(** * Babel webpack loader of build_angular: option resolution and stage assembly

    Shallow embedding of
    [packages/angular_devkit/build_angular/src/babel/webpack-loader.ts]:
    the path and source tests, the three module-level capability caches,
    [requiresLinking], the [customOptions] hook and the [config] hook.

    Asynchronous code is embedded as a small resumption monad [Prog] whose
    suspension points are the [await]s of the source.  It is given a
    sequential meaning ([run], one invocation carried to its end) and an
    interleaved one ([exec], several invocations in flight, switched at
    their [await]s). *)

From Stdlib Require Import Bool List String Ascii ZArith Lia Arith.
From Stdlib Require Import DecimalString Permutation Zquot.
Import ListNotations.
Local Open Scope string_scope.
Local Open Scope list_scope.
Set Warnings "-register-all".

(* ================================================================= *)
(** ** Strings and regular expressions *)

(** [String.prototype.startsWith] *)
Fixpoint startsWith (s needle : string) {struct needle} : bool :=
  match needle, s with
  | EmptyString, _ => true
  | String _ _, EmptyString => false
  | String a needle', String b s' => Ascii.eqb a b && startsWith s' needle'
  end.

(** [String.prototype.includes]: some suffix of [s] starts with [needle]. *)
Fixpoint includes (s needle : string) : bool :=
  startsWith s needle
  || match s with
     | EmptyString => false
     | String _ s' => includes s' needle
     end.

(** The fragment of the regular-expression syntax that the loader uses:
    literal characters, character classes, concatenation, alternation,
    the [?] quantifier and the end-of-input assertion [$]. *)
Inductive Regex : Type :=
| Chr (c : ascii)
| Class (cs : list ascii)
| Seq (r1 r2 : Regex)
| Alt (r1 r2 : Regex)
| Opt (r : Regex)
| Eol.

(** Backtracking matcher: [matchAt r s k] tries to consume a prefix of
    [s] with [r] and hands the remaining input to the continuation. *)
Fixpoint matchAt (r : Regex) (s : string) (k : string -> bool) : bool :=
  match r with
  | Chr c =>
      match s with
      | String c' s' => if Ascii.eqb c c' then k s' else false
      | EmptyString => false
      end
  | Class cs =>
      match s with
      | String c' s' => if existsb (Ascii.eqb c') cs then k s' else false
      | EmptyString => false
      end
  | Seq r1 r2 => matchAt r1 s (fun s' => matchAt r2 s' k)
  | Alt r1 r2 => matchAt r1 s k || matchAt r2 s k
  | Opt r1 => matchAt r1 s k || k s
  | Eol =>
      match s with
      | EmptyString => k s
      | String _ _ => false
      end
  end.

(** [RegExp.prototype.test] without flags: a match may start anywhere. *)
Fixpoint test (r : Regex) (s : string) : bool :=
  matchAt r s (fun _ => true)
  || match s with
     | EmptyString => false
     | String _ s' => test r s'
     end.

(** What a pattern means: at a position where [a ++ rest] is what is
    left of the input, [r] matches the text [a]. *)
Fixpoint denote (r : Regex) (a rest : string) : Prop :=
  match r with
  | Chr c => a = String c ""
  | Class cs => exists c, In c cs /\ a = String c ""
  | Seq r1 r2 =>
      exists a1 a2,
        a = (a1 ++ a2)%string /\ denote r1 a1 (a2 ++ rest)%string /\ denote r2 a2 rest
  | Alt r1 r2 => denote r1 a rest \/ denote r2 a rest
  | Opt r1 => denote r1 a rest \/ a = ""
  | Eol => a = "" /\ rest = ""
  end.

Definition isSeparator (c : ascii) : Prop := c = "\"%char \/ c = "/"%char.

(** A literal word, character after character. *)
Fixpoint lit (w : string) : Regex :=
  match w with
  | EmptyString => Opt Eol
  | String c EmptyString => Chr c
  | String c w' => Seq (Chr c) (lit w')
  end.

(** The class [[\\/]]: a path separator of either flavour. *)
Definition sep : Regex := Class ["\"%char; "/"%char].

(** [/[\\/]@angular[\\/](?:compiler|core)|\.tsx?$/] *)
Definition re_core_or_ts : Regex :=
  Alt (Seq sep (Seq (lit "@angular") (Seq sep (Alt (lit "compiler") (lit "core")))))
      (Seq (lit ".ts") (Seq (Opt (Chr "x")) Eol)).

(** [/\.[cm]?js$/] *)
Definition re_js : Regex :=
  Seq (Chr ".") (Seq (Opt (Class ["c"%char; "m"%char])) (Seq (lit "js") Eol)).

(** [/[\\/][_f]?esm2015[\\/]/] *)
Definition re_esm2015 : Regex :=
  Seq sep (Seq (Opt (Class ["_"%char; "f"%char])) (Seq (lit "esm2015") sep)).

(** [/[\\/]@angular[\\/](?:compiler|localize)/] *)
Definition re_compiler_or_localize : Regex :=
  Seq sep (Seq (lit "@angular") (Seq sep (Alt (lit "compiler") (lit "localize")))).

(** [/[\\/]node_modules[\\/]@angular[\\/]/] *)
Definition re_angular_package : Regex :=
  Seq sep (Seq (lit "node_modules") (Seq sep (Seq (lit "@angular") sep))).

(* ================================================================= *)
(** ** JavaScript values, objects and [JSON.stringify] *)

(** Function values are opaque apart from the one closure the loader
    creates itself, [() => true]. *)
Inductive JsFunction : Type :=
| ArrowTrue
| Extern (name : string).

(** Objects keep their properties in insertion order (property names
    here are never array indices), hence association lists.  Numbers
    are the integers. *)
Inductive JsValue : Type :=
| JUndefined
| JNull
| JBool (b : bool)
| JNum (n : Z)
| JStr (s : string)
| JFun (f : JsFunction)
| JArr (items : list JsValue)
| JObj (props : list (string * JsValue)).

Definition JsObject : Type := list (string * JsValue).

(** ToBoolean *)
Definition truthy (v : JsValue) : bool :=
  match v with
  | JUndefined | JNull => false
  | JBool b => b
  | JNum n => negb (Z.eqb n 0)
  | JStr s => negb (String.eqb s "")
  | JFun _ | JArr _ | JObj _ => true
  end.

(** [o.k]: the value of property [k], [undefined] when absent. *)
Fixpoint obj_get (k : string) (o : JsObject) : JsValue :=
  match o with
  | [] => JUndefined
  | (k', v) :: o' => if String.eqb k k' then v else obj_get k o'
  end.

(** [o.k = v]: overwrite in place, or add as the newest property. *)
Fixpoint obj_set (k : string) (v : JsValue) (o : JsObject) : JsObject :=
  match o with
  | [] => [(k, v)]
  | (k', v') :: o' =>
      if String.eqb k k' then (k', v) :: o' else (k', v') :: obj_set k v o'
  end.

(** [{...base, ...extra}] *)
Definition spread (base extra : JsObject) : JsObject :=
  fold_left (fun o kv => obj_set (fst kv) (snd kv) o) extra base.

Definition dquote : string := String (ascii_of_N 34) "".

Definition hexDigit (n : N) : ascii :=
  ascii_of_N (if N.ltb n 10 then 48 + n else 87 + n).

(** QuoteJSONString, character by character. *)
Definition escapeChar (c : ascii) : string :=
  let n := N_of_ascii c in
  if N.eqb n 34 then ("\" ++ dquote)%string
  else if N.eqb n 92 then "\\"
  else if N.eqb n 8 then "\b"
  else if N.eqb n 9 then "\t"
  else if N.eqb n 10 then "\n"
  else if N.eqb n 12 then "\f"
  else if N.eqb n 13 then "\r"
  else if N.ltb n 32 then
    ("\u00" ++ String (hexDigit (N.div n 16)) (String (hexDigit (N.modulo n 16)) ""))%string
  else String c "".

Fixpoint escape (s : string) : string :=
  match s with
  | EmptyString => ""
  | String c s' => (escapeChar c ++ escape s')%string
  end.

Definition quote (s : string) : string := (dquote ++ escape s ++ dquote)%string.

Definition numberToString (n : Z) : string :=
  NilZero.string_of_int (Z.to_int n).

Fixpoint join (d : string) (l : list string) : string :=
  match l with
  | [] => ""
  | [x] => x
  | x :: l' => (x ++ d ++ join d l')%string
  end.

(** [JSON.stringify(v)]; [None] stands for the [undefined] it returns on
    [undefined] and on functions.  A property whose value serializes to
    [undefined] is left out, an array element becomes [null]. *)
Fixpoint stringify (v : JsValue) : option string :=
  match v with
  | JUndefined => None
  | JFun _ => None
  | JNull => Some "null"
  | JBool b => Some (if b then "true" else "false")
  | JNum n => Some (numberToString n)
  | JStr s => Some (quote s)
  | JArr items =>
      Some ("[" ++ join ","
                     (map (fun x => match stringify x with
                                    | Some t => t
                                    | None => "null"
                                    end) items) ++ "]")%string
  | JObj props =>
      Some ("{" ++ join ","
                     (flat_map (fun kv => match stringify (snd kv) with
                                          | Some t => [(quote (fst kv) ++ ":" ++ t)%string]
                                          | None => []
                                          end) props) ++ "}")%string
  end.

Definition JSON_stringify (v : JsValue) : JsValue :=
  match stringify v with
  | Some s => JStr s
  | None => JUndefined
  end.


(* ================================================================= *)
(** ** The loader's data *)

(** Numeric values of the TypeScript compiler's [ScriptTarget] enum, an
    external package; the loader compares against [ES2015] and [ES2017]. *)
Module ScriptTarget.
Definition ES3 : Z := 0.
Definition ES5 : Z := 1.
Definition ES2015 : Z := 2.
Definition ES2016 : Z := 3.
Definition ES2017 : Z := 4.
Definition ES2018 : Z := 5.
Definition ESNext : Z := 99.
End ScriptTarget.

(** The modules reached through [loadEsmModule]. *)
Inductive Specifier : Type :=
| LinkerModule        (* '@angular/compiler-cli/linker' *)
| LinkerBabelModule   (* '@angular/compiler-cli/linker/babel' *)
| LocalizeTools.      (* '@angular/localize/tools' *)

Definition Specifier_eqb (a b : Specifier) : bool :=
  match a, b with
  | LinkerModule, LinkerModule
  | LinkerBabelModule, LinkerBabelModule
  | LocalizeTools, LocalizeTools => true
  | _, _ => false
  end.

(** The detector exported by the linker module: [(path, source) => boolean]. *)
Definition NeedsLinkingFn : Type := string -> string -> bool.

(** The namespace of the localize tools: an object of factory functions. *)
Definition I18nPluginCreators : Type := JsObject.

(** What the loader keeps of each module. *)
Definition ModuleOf (s : Specifier) : Type :=
  match s with
  | LinkerModule => NeedsLinkingFn       (* linkerModule.needsLinking *)
  | LinkerBabelModule => JsFunction      (* linkerBabelModule.createEs2015LinkerPlugin *)
  | LocalizeTools => I18nPluginCreators
  end.

(** The three module-level [let] variables; [None] is [undefined]. *)
Record Caches : Type := mkCaches {
  needsLinking : option NeedsLinkingFn;
  linkerPluginCreator : option JsFunction;
  i18nPluginCreators : option I18nPluginCreators
}.

Definition emptyCaches : Caches := mkCaches None None None.

Module AngularLinker.
Record t : Type := mk {
    shouldLink : bool;
    jitMode : bool;
    linkerPluginCreator : option JsFunction
  }.
End AngularLinker.

Module Optimize.
Record t : Type := mk {
    looseEnums : bool;
    pureTopLevel : bool;
    wrapDecorators : bool
  }.
End Optimize.

(** [AngularCustomOptions] *)
Module Custom.
Record t : Type := mk {
    forceAsyncTransformation : bool;
    forceES5 : bool;
    angularLinker : option AngularLinker.t;
    i18n : option JsObject;
    optimize : option Optimize.t
  }.

  (** Assignments to single fields. *)
Definition set_forceAsyncTransformation (v : bool) (c : t) : t :=
    mk v (forceES5 c) (angularLinker c) (i18n c) (optimize c).
Definition set_forceES5 (v : bool) (c : t) : t :=
    mk (forceAsyncTransformation c) v (angularLinker c) (i18n c) (optimize c).
Definition set_angularLinker (v : option AngularLinker.t) (c : t) : t :=
    mk (forceAsyncTransformation c) (forceES5 c) v (i18n c) (optimize c).
Definition set_i18n (v : option JsObject) (c : t) : t :=
    mk (forceAsyncTransformation c) (forceES5 c) (angularLinker c) v (optimize c).
Definition set_optimize (v : option Optimize.t) (c : t) : t :=
    mk (forceAsyncTransformation c) (forceES5 c) (angularLinker c) (i18n c) v.
End Custom.

(** The first argument of [customOptions], already destructured:
    [{ i18n, scriptTarget, aot, optimize, ...rawOptions }].  The two
    options the source casts carry the type of the cast. *)
Module Options.
Record t : Type := mk {
    i18n : option JsObject;
    scriptTarget : option Z;
    aot : JsValue;
    optimize : JsValue;
    rawOptions : JsObject
  }.
End Options.

(** The part of the loader context ([this]) that the hook reads. *)
Record FactoryMeta : Type := mkFactoryMeta { sideEffectFree : option bool }.
Record NormalModule : Type := mkModule { factoryMeta : option FactoryMeta }.
Record LoaderContext : Type := mkContext {
  resourcePath : string;
  _module : option NormalModule
}.

(** [!!this._module?.factoryMeta?.sideEffectFree] *)
Definition moduleSideEffectFree (this : LoaderContext) : bool :=
  match _module this with
  | None => false
  | Some m =>
      match factoryMeta m with
      | None => false
      | Some fm =>
          match sideEffectFree fm with
          | None => false
          | Some b => b
          end
      end
  end.

Record CustomResult : Type := mkResult {
  custom : Custom.t;
  loader : JsObject
}.

Definition baseOptions : JsObject :=
  [ ("babelrc", JBool false);
    ("configFile", JBool false);
    ("compact", JBool false);
    ("cacheCompression", JBool false);
    ("sourceType", JStr "unambiguous");
    ("inputSourceMap", JBool false) ].

(* ================================================================= *)
(** ** Effects: caches, module loads, detector calls *)

Inductive Event : Type :=
| Load (s : Specifier)                 (* loadEsmModule(s) was called *)
| Detect (path source : string).       (* the cached detector was called *)

Definition isLoad (s : Specifier) (e : Event) : bool :=
  match e with
  | Load s' => Specifier_eqb s s'
  | Detect _ _ => false
  end.

Definition isDetect (e : Event) : bool :=
  match e with
  | Load _ => false
  | Detect _ _ => true
  end.

(** How often [s] was requested in a trace. *)
Definition loads (s : Specifier) (tr : list Event) : nat :=
  List.length (filter (isLoad s) tr).

Definition detections (tr : list Event) : nat :=
  List.length (filter isDetect tr).

(** The process: the caches and, for the statements about loads and
    calls, the events so far, oldest first. *)
Record World : Type := mkWorld {
  caches : Caches;
  trace : list Event
}.

Definition initialWorld : World := mkWorld emptyCaches [].

Definition setCaches (c : Caches) (w : World) : World :=
  mkWorld c (trace w).

Definition log (e : Event) (w : World) : World :=
  mkWorld (caches w) (trace w ++ [e]).

(** The surroundings: what a module load settles to, given everything
    that happened before ([None]: the promise rejects), and the version
    field of the package's [package.json]. *)
Record Env : Type := mkEnv {
  loadEsmModule : list Event -> forall s : Specifier, option (ModuleOf s);
  version : string
}.

Inductive Error : Type :=
| LoadError (s : Specifier)
| TypeError.

Inductive Outcome (A : Type) : Type :=
| Ok (a : A)
| Err (e : Error).
Arguments Ok {A} a.
Arguments Err {A} e.

(** Programs: straight-line code between suspension points. *)
Inductive Prog (A : Type) : Type :=
| Ret (a : A)
| Throw (e : Error)
| GetCaches (k : Caches -> Prog A)
| SetCaches (c : Caches) (k : Prog A)
| CallDetector (f : NeedsLinkingFn) (path source : string) (k : bool -> Prog A)
| AwaitLoad (s : Specifier) (k : option (ModuleOf s) -> Prog A)
| AwaitTick (k : Prog A).
Arguments Ret {A} a.
Arguments Throw {A} e.
Arguments GetCaches {A} k.
Arguments SetCaches {A} c k.
Arguments CallDetector {A} f path source k.
Arguments AwaitLoad {A} s k.
Arguments AwaitTick {A} k.

Fixpoint bind {A B : Type} (p : Prog A) (f : A -> Prog B) : Prog B :=
  match p with
  | Ret a => f a
  | Throw e => Throw e
  | GetCaches k => GetCaches (fun c => bind (k c) f)
  | SetCaches c k => SetCaches c (bind k f)
  | CallDetector d path source k => CallDetector d path source (fun b => bind (k b) f)
  | AwaitLoad s k => AwaitLoad s (fun r => bind (k r) f)
  | AwaitTick k => AwaitTick (bind k f)
  end.

Notation "x <- p ;; q" := (bind p (fun x => q))
  (at level 61, p at next level, right associativity).

(** One invocation carried through to its end, nothing else running. *)
Fixpoint run {A : Type} (env : Env) (p : Prog A) (w : World) : Outcome A * World :=
  match p with
  | Ret a => (Ok a, w)
  | Throw e => (Err e, w)
  | GetCaches k => run env (k (caches w)) w
  | SetCaches c k => run env k (setCaches c w)
  | CallDetector f path source k => run env (k (f path source)) (log (Detect path source) w)
  | AwaitLoad s k => run env (k (loadEsmModule env (trace w) s)) (log (Load s) w)
  | AwaitTick k => run env k w
  end.

(** Several invocations in flight.  A task runs from where it stands to
    its next [await]; the load is requested (and its outcome fixed) when
    the task suspends, and the task sees the outcome when resumed. *)
Inductive Task (A : Type) : Type :=
| Ready (p : Prog A)
| Done (o : Outcome A).
Arguments Ready {A} p.
Arguments Done {A} o.

Fixpoint advance {A : Type} (env : Env) (p : Prog A) (w : World) : Task A * World :=
  match p with
  | Ret a => (Done (Ok a), w)
  | Throw e => (Done (Err e), w)
  | GetCaches k => advance env (k (caches w)) w
  | SetCaches c k => advance env k (setCaches c w)
  | CallDetector f path source k =>
      advance env (k (f path source)) (log (Detect path source) w)
  | AwaitLoad s k => (Ready (k (loadEsmModule env (trace w) s)), log (Load s) w)
  | AwaitTick k => (Ready k, w)
  end.

Fixpoint stepTask {A : Type} (env : Env) (i : nat) (pool : list (Task A)) (w : World)
  : list (Task A) * World :=
  match pool, i with
  | [], _ => ([], w)
  | Ready p :: rest, O => let (t, w') := advance env p w in (t :: rest, w')
  | Done o :: rest, O => (Done o :: rest, w)
  | t :: rest, S j => let (rest', w') := stepTask env j rest w in (t :: rest', w')
  end.

(** The tasks are resumed in the order the schedule lists them. *)
Fixpoint exec {A : Type} (env : Env) (schedule : list nat) (pool : list (Task A)) (w : World)
  : list (Task A) * World :=
  match schedule with
  | [] => (pool, w)
  | i :: schedule' => let (pool', w') := stepTask env i pool w in exec env schedule' pool' w'
  end.

(** Invocations one after the other, each finished before the next starts. *)
Fixpoint runAll {A : Type} (env : Env) (ps : list (Prog A)) (w : World)
  : list (Outcome A) * World :=
  match ps with
  | [] => ([], w)
  | p :: ps' =>
      let (o, w') := run env p w in
      let (os, w'') := runAll env ps' w' in
      (o :: os, w'')
  end.

(* ================================================================= *)
(** ** [requiresLinking] and the [customOptions] hook *)

(** [await loadEsmModule(s)] outside a [try]: a rejection is thrown. *)
Definition awaitLoad (s : Specifier) : Prog (ModuleOf s) :=
  AwaitLoad s (fun r =>
    match r with
    | Some m => Ret m
    | None => Throw (LoadError s)
    end).

(** [await p] on the promise of an async call that has come to its end. *)
Definition awaitCall {A : Type} (p : Prog A) : Prog A :=
  x <- p ;; AwaitTick (Ret x).

(** Assignments to the module-level variables. *)
Definition assign_needsLinking (f : NeedsLinkingFn) : Prog unit :=
  GetCaches (fun c =>
    SetCaches (mkCaches (Some f) (linkerPluginCreator c) (i18nPluginCreators c)) (Ret tt)).

Definition assign_linkerPluginCreator (g : JsFunction) : Prog unit :=
  GetCaches (fun c =>
    SetCaches (mkCaches (needsLinking c) (Some g) (i18nPluginCreators c)) (Ret tt)).

Definition assign_i18nPluginCreators (m : I18nPluginCreators) : Prog unit :=
  GetCaches (fun c =>
    SetCaches (mkCaches (needsLinking c) (linkerPluginCreator c) (Some m)) (Ret tt)).

Definition requiresLinking (path source : string) : Prog bool :=
  (* @angular/core and @angular/compiler will cause false positives;
     TypeScript files do not require linking *)
  if test re_core_or_ts path then Ret false
  else
    c <- GetCaches (fun c => Ret c) ;;
    _ <- match needsLinking c with
         | Some _ => Ret tt
         | None =>
             linkerModule <- awaitLoad LinkerModule ;;
             assign_needsLinking linkerModule
         end ;;
    c' <- GetCaches (fun c => Ret c) ;;
    match needsLinking c' with
    | Some f => CallDetector f path source (fun b => Ret b)
    | None => Throw TypeError
    end.

(** The two locals that the hook updates as it goes. *)
Record Locals : Type := mkLocals {
  shouldProcess : bool;
  customOptions_ : Custom.t
}.

(** [Array.isArray(rawOptions.plugins) && rawOptions.plugins.length > 0] *)
Definition hasPlugins (rawOptions : JsObject) : bool :=
  match obj_get "plugins" rawOptions with
  | JArr (_ :: _) => true
  | _ => false
  end.

Definition initialLocals (rawOptions : JsObject) : Locals :=
  mkLocals (hasPlugins rawOptions)
           (Custom.mk false false None None None).

(** [aot !== true] *)
Definition notTrue (v : JsValue) : bool :=
  match v with
  | JBool true => false
  | _ => true
  end.

(** Analyze file for linking *)
Definition analyzeLinking (this : LoaderContext) (aot : JsValue) (source : string)
    (l : Locals) : Prog Locals :=
  required <- awaitCall (requiresLinking (resourcePath this) source) ;;
  if required : bool then
    c <- GetCaches (fun c => Ret c) ;;
    _ <- match linkerPluginCreator c with
         | Some _ => Ret tt
         | None =>
             linkerBabelModule <- awaitLoad LinkerBabelModule ;;
             assign_linkerPluginCreator linkerBabelModule
         end ;;
    c' <- GetCaches (fun c => Ret c) ;;
    Ret (mkLocals true
           (Custom.set_angularLinker
              (Some (AngularLinker.mk true (notTrue aot) (linkerPluginCreator c')))
              (customOptions_ l)))
  else Ret l.

(** Analyze for ES target processing *)
Definition analyzeEsTarget (this : LoaderContext) (scriptTarget : option Z)
    (source : string) (l : Locals) : Locals :=
  match scriptTarget with
  | None => l
  | Some esTarget =>
      let co := customOptions_ l in
      let co' :=
        if (esTarget <? ScriptTarget.ES2015)%Z then
          Custom.set_forceES5 true co
        else if (esTarget >=? ScriptTarget.ES2017)%Z || test re_js (resourcePath this) then
          (* Application code (TS files) will only contain native async if
             target is ES2017+; third-party libraries can regardless of the
             target.  Code in [f]esm2015 directories is downlevelled to
             ES2015 and will not have native async. *)
          Custom.set_forceAsyncTransformation
            (negb (test re_esm2015 (resourcePath this)) && includes source "async") co
        else co in
      mkLocals (shouldProcess l
                || (Custom.forceAsyncTransformation co' || Custom.forceES5 co'))
               co'
  end.

Definition creatorsValue (c : option I18nPluginCreators) : JsValue :=
  match c with
  | Some m => JObj m
  | None => JUndefined
  end.

(** Whether the file is looked at for i18n inlining at all. *)
Definition i18nEligible (this : LoaderContext) (i18n : option JsObject)
    (source : string) : bool :=
  match i18n with
  | Some _ =>
      negb (test re_compiler_or_localize (resourcePath this))
      && includes source "$localize"
  | None => false
  end.

(** Analyze for i18n inlining *)
Definition analyzeI18n (this : LoaderContext) (i18n : option JsObject)
    (source : string) (l : Locals) : Prog Locals :=
  match i18n with
  | Some i18nOptions =>
      if negb (test re_compiler_or_localize (resourcePath this))
         && includes source "$localize"
      then
        c <- GetCaches (fun c => Ret c) ;;
        _ <- match i18nPluginCreators c with
             | Some _ => Ret tt
             | None =>
                 (* try { i18nPluginCreators = await loadEsmModule(...) } catch {} *)
                 AwaitLoad LocalizeTools (fun r =>
                   match r with
                   | Some m => assign_i18nPluginCreators m
                   | None => Ret tt
                   end)
             end ;;
        c' <- GetCaches (fun c => Ret c) ;;
        Ret (mkLocals true
               (Custom.set_i18n
                  (Some (obj_set "i18nPluginCreators"
                           (creatorsValue (i18nPluginCreators c'))
                           (spread [] i18nOptions)))
                  (customOptions_ l)))
      else Ret l
  | None => Ret l
  end.

Definition analyzeOptimize (this : LoaderContext) (optimize : JsValue)
    (l : Locals) : Locals :=
  if truthy optimize then
    let angularPackage := test re_angular_package (resourcePath this) in
    mkLocals true
      (Custom.set_optimize
         (Some (Optimize.mk angularPackage angularPackage (moduleSideEffectFree this)))
         (customOptions_ l))
  else l.

(** The custom options as the object that [JSON.stringify] sees. *)
Definition optionFunction (f : option JsFunction) : JsValue :=
  match f with
  | Some g => JFun g
  | None => JUndefined
  end.

Definition angularLinkerObject (a : option AngularLinker.t) : JsValue :=
  match a with
  | None => JUndefined
  | Some al =>
      JObj [ ("shouldLink", JBool (AngularLinker.shouldLink al));
             ("jitMode", JBool (AngularLinker.jitMode al));
             ("linkerPluginCreator", optionFunction (AngularLinker.linkerPluginCreator al)) ]
  end.

Definition optimizeObject (o : option Optimize.t) : JsObject :=
  match o with
  | None => []
  | Some op =>
      [ ("optimize",
         JObj [ ("looseEnums", JBool (Optimize.looseEnums op));
                ("pureTopLevel", JBool (Optimize.pureTopLevel op));
                ("wrapDecorators", JBool (Optimize.wrapDecorators op)) ]) ]
  end.

Definition customObject (co : Custom.t) : JsValue :=
  JObj ([ ("forceAsyncTransformation", JBool (Custom.forceAsyncTransformation co));
          ("forceES5", JBool (Custom.forceES5 co));
          ("angularLinker", angularLinkerObject (Custom.angularLinker co));
          ("i18n", match Custom.i18n co with
                   | Some o => JObj o
                   | None => JUndefined
                   end) ]
        ++ optimizeObject (Custom.optimize co)).

(** [JSON.stringify({ buildAngular, customOptions, baseOptions, rawOptions })] *)
Definition cacheIdentifier (buildAngular : string) (co : Custom.t)
    (base raw : JsObject) : JsValue :=
  JSON_stringify
    (JObj [ ("buildAngular", JStr buildAngular);
            ("customOptions", customObject co);
            ("baseOptions", JObj base);
            ("rawOptions", JObj raw) ]).

(** [[() => true]] *)
Definition ignoreAll : JsValue := JArr [JFun ArrowTrue].

(** Add provided loader options to default base options; skip babel
    processing if no actions are needed. *)
Definition finish (env : Env) (rawOptions : JsObject) (l : Locals) : CustomResult :=
  let loaderOptions :=
    obj_set "cacheIdentifier"
      (cacheIdentifier (version env) (customOptions_ l) baseOptions rawOptions)
      (spread (spread [] baseOptions) rawOptions) in
  mkResult (customOptions_ l)
    (if negb (shouldProcess l) then obj_set "ignore" ignoreAll loaderOptions
     else loaderOptions).

(** The hook up to the point where both locals have their final value. *)
Definition resolveLocals (this : LoaderContext) (o : Options.t) (source : string)
  : Prog Locals :=
  l1 <- analyzeLinking this (Options.aot o) source (initialLocals (Options.rawOptions o)) ;;
  l3 <- analyzeI18n this (Options.i18n o) source
          (analyzeEsTarget this (Options.scriptTarget o) source l1) ;;
  Ret (analyzeOptimize this (Options.optimize o) l3).

Definition customOptions (env : Env) (this : LoaderContext) (o : Options.t)
    (source : string) : Prog CustomResult :=
  l <- resolveLocals this o source ;;
  Ret (finish env (Options.rawOptions o) l).

(* ================================================================= *)
(** ** The [config] hook *)

(** What a plugin or preset entry refers to: one of the loader's own
    modules or whatever the configuration already held. *)
Inductive Target : Type :=
| PureToplevelFunctions       (* ./plugins/pure-toplevel-functions *)
| ElideAngularMetadata        (* ./plugins/elide-angular-metadata *)
| AdjustTypescriptEnums       (* ./plugins/adjust-typescript-enums *)
| AdjustStaticClassMembers    (* ./plugins/adjust-static-class-members *)
| Existing (v : JsValue).

Inductive PluginItem : Type :=
| Plain (t : Target)
| WithOptions (t : Target) (options : JsObject).

Inductive Emission : Type :=
| EmitError (message : string)
| EmitWarning (message : string).

(** [ApplicationPresetOptions]: the custom options plus the reporter. *)
Record ApplicationPresetOptions : Type := mkPresetOptions {
  presetCustom : Custom.t;
  diagnosticReporter : string -> string -> list Emission
}.

Inductive PresetItem : Type :=
| ExistingPreset (v : JsValue)
| ApplicationPreset (options : ApplicationPresetOptions).   (* ./presets/application *)

(** [configuration.options] *)
Record BabelOptions : Type := mkBabelOptions {
  plugins : option (list PluginItem);
  presets : option (list PresetItem);
  inputSourceMap : JsValue;
  otherOptions : JsObject
}.

(** Webpack does not currently have an informational diagnostic. *)
Definition reporter (type message : string) : list Emission :=
  if String.eqb type "error" then [EmitError message]
  else if String.eqb type "info" then [EmitWarning message]
  else if String.eqb type "warning" then [EmitWarning message]
  else [].

(** The stages pushed when [customOptions.optimize] is set, in the
    order of the two [push] calls. *)
Definition optimizePlugins (o : Optimize.t) : list PluginItem :=
  (if Optimize.pureTopLevel o then [Plain PureToplevelFunctions] else [])
  ++ [ Plain ElideAngularMetadata;
       WithOptions AdjustTypescriptEnums [("loose", JBool (Optimize.looseEnums o))];
       WithOptions AdjustStaticClassMembers
         [("wrapDecorators", JBool (Optimize.wrapDecorators o))] ].

(** The hook returns the new options; that [push] also changes the
    array it was handed is not part of this embedding. *)
Definition config (options : BabelOptions) (customOptions : Custom.t) : BabelOptions :=
  let plugins0 := match plugins options with
                  | Some ps => ps
                  | None => []
                  end in
  let plugins1 := match Custom.optimize customOptions with
                  | Some o => plugins0 ++ optimizePlugins o
                  | None => plugins0
                  end in
  mkBabelOptions
    (Some plugins1)
    (Some ((match presets options with
            | Some ps => ps
            | None => []
            end)
           ++ [ApplicationPreset (mkPresetOptions customOptions reporter)]))
    (if truthy (inputSourceMap options) then inputSourceMap options else JBool false)
    (otherOptions options).

(* ================================================================= *)
(** ** Auxiliary notions for the statements *)

Definition isSome {A : Type} (x : option A) : bool :=
  match x with
  | Some _ => true
  | None => false
  end.

(** How many loads an empty cache costs. *)
Definition missing {A : Type} (c : option A) : nat :=
  match c with
  | Some _ => 0
  | None => 1
  end.

(** One call of the hook: the loader context, the options, the source. *)
Definition Invocation : Type := LoaderContext * Options.t * string.

Definition invoke (env : Env) (i : Invocation) : Prog CustomResult :=
  let '(this, o, source) := i in customOptions env this o source.

(** The caches hold nothing but the exports [detector] and [creator]. *)
Definition cachesAgree (detector : NeedsLinkingFn) (creator : JsFunction)
    (w : World) : Prop :=
  (needsLinking (caches w) = None \/ needsLinking (caches w) = Some detector)
  /\ (linkerPluginCreator (caches w) = None
      \/ linkerPluginCreator (caches w) = Some creator).

(** The file is one that needs linking. *)
Definition needsLinkb (detector : NeedsLinkingFn) (i : Invocation) : bool :=
  negb (test re_core_or_ts (resourcePath (fst (fst i))))
  && detector (resourcePath (fst (fst i))) (snd i).

Definition needsLink (detector : NeedsLinkingFn) (i : Invocation) : Prop :=
  test re_core_or_ts (resourcePath (fst (fst i))) = false
  /\ detector (resourcePath (fst (fst i))) (snd i) = true.

(** The hook returned with the linker options attached, [creator] in them. *)
Definition linkedWith (creator : JsFunction) (out : Outcome CustomResult) : Prop :=
  exists r al,
    out = Ok r
    /\ Custom.angularLinker (custom r) = Some al
    /\ AngularLinker.linkerPluginCreator al = Some creator.

Definition JsFunction_eqb (f g : JsFunction) : bool :=
  match f, g with
  | ArrowTrue, ArrowTrue => true
  | Extern a, Extern b => String.eqb a b
  | _, _ => false
  end.

(** The same for a task, as a test: it is done and returned linker
    options that carry [creator]. *)
Definition isLinkedWith (creator : JsFunction) (t : Task CustomResult) : bool :=
  match t with
  | Done (Ok r) =>
      match Custom.angularLinker (custom r) with
      | Some al =>
          match AngularLinker.linkerPluginCreator al with
          | Some g => JsFunction_eqb g creator
          | None => false
          end
      | None => false
      end
  | _ => false
  end.

(** [always Q p]: whatever the caches hold when [p] looks at them and
    whatever the loads deliver, a value that [p] returns satisfies [Q]. *)
Fixpoint always {A : Type} (Q : A -> Prop) (p : Prog A) : Prop :=
  match p with
  | Ret a => Q a
  | Throw _ => True
  | GetCaches k => forall c, always Q (k c)
  | SetCaches _ k => always Q k
  | CallDetector f path source k => always Q (k (f path source))
  | AwaitLoad s k => forall r, always Q (k r)
  | AwaitTick k => always Q k
  end.

Definition taskMeets {A : Type} (Q : A -> Prop) (t : Task A) : Prop :=
  match t with
  | Ready p => always Q p
  | Done (Ok a) => Q a
  | Done (Err _) => True
  end.

(** The fields of the result that depend on the arguments alone. *)
Definition resolvedFrom (i : Invocation) (r : CustomResult) : Prop :=
  let '(this, o, source) := i in
  let co := custom r in
  let path := resourcePath this in
  Custom.forceES5 co
  = match Options.scriptTarget o with
    | Some esTarget => (esTarget <? ScriptTarget.ES2015)%Z
    | None => false
    end
  /\ Custom.forceAsyncTransformation co
     = match Options.scriptTarget o with
       | Some esTarget =>
           negb (esTarget <? ScriptTarget.ES2015)%Z
           && ((esTarget >=? ScriptTarget.ES2017)%Z || test re_js path)
           && (negb (test re_esm2015 path) && includes source "async")
       | None => false
       end
  /\ isSome (Custom.i18n co) = i18nEligible this (Options.i18n o) source
  /\ Custom.optimize co
     = (if truthy (Options.optimize o)
        then Some (Optimize.mk (test re_angular_package path)
                               (test re_angular_package path)
                               (moduleSideEffectFree this))
        else None)
  /\ (hasPlugins (Options.rawOptions o)
      || isSome (Custom.angularLinker co)
      || Custom.forceAsyncTransformation co
      || Custom.forceES5 co
      || i18nEligible this (Options.i18n o) source
      || truthy (Options.optimize o) = false ->
      obj_get "ignore" (loader r) = ignoreAll).

(** Every task in turn, [rounds] times over. *)
Definition roundRobin (tasks rounds : nat) : list nat :=
  List.concat (repeat (seq 0 tasks) rounds).

(* ================================================================= *)
(** ** Concrete surroundings for the examples *)

(** A detector that answers from the source text alone. *)
Definition declDetector : NeedsLinkingFn :=
  fun _ source => includes source "ngDeclare".

Definition createEs2015LinkerPlugin : JsFunction := Extern "createEs2015LinkerPlugin".

Definition localizeTools : I18nPluginCreators :=
  [ ("makeEs2015TranslatePlugin", JFun (Extern "makeEs2015TranslatePlugin"));
    ("makeEs5TranslatePlugin", JFun (Extern "makeEs5TranslatePlugin"));
    ("makeLocalePlugin", JFun (Extern "makeLocalePlugin")) ].

(** Every load resolves. *)
Definition healthyEnv : Env :=
  mkEnv (fun _ s =>
           match s with
           | LinkerModule => Some declDetector
           | LinkerBabelModule => Some createEs2015LinkerPlugin
           | LocalizeTools => Some localizeTools
           end)
        "13.0.0".

(** The localize entry point does not exist yet: its load rejects until
    it has been asked for twice; the linker modules resolve. *)
Definition transitionEnv : Env :=
  mkEnv (fun tr s =>
           match s with
           | LinkerModule => Some declDetector
           | LinkerBabelModule => Some createEs2015LinkerPlugin
           | LocalizeTools =>
               if Nat.leb 2 (loads LocalizeTools tr) then Some localizeTools else None
           end)
        "13.0.0".

(** The detector module resolves, the plugin factory and the localize
    tools do not. *)
Definition factoryMissingEnv : Env :=
  mkEnv (fun _ s =>
           match s with
           | LinkerModule => Some declDetector
           | LinkerBabelModule => None
           | LocalizeTools => None
           end)
        "13.0.0".

Definition plainContext (path : string) : LoaderContext := mkContext path None.

Definition noOptions : Options.t := Options.mk None None JUndefined JUndefined [].

(** The [n]-th module of a partially compiled library. *)
Definition libraryFile (n : nat) : Invocation :=
  (plainContext
     ("/app/node_modules/lib/fesm2015/m" ++ numberToString (Z.of_nat n) ++ ".mjs")%string,
   noOptions,
   "i0.ngDeclareComponent({ type: C })").

(* ================================================================= *)
(** ** Further notions for the statements *)

(** What one call may do to a cache and to the count of loads of its
    module: nothing at all, or, from an empty cache only, one load. *)
Definition cacheStep {A : Type} (c c' : option A) (n n' : nat) : Prop :=
  (c' = c /\ n' = n) \/ (c = None /\ n' = S n).

(** The keys of an object. *)
Definition keys (o : JsObject) : list string := map fst o.

(** Reading back one character of an escaped string: the inverse of
    [escapeChar], [None] at the closing quote and at the end. *)
Definition hexValue (c : ascii) : N :=
  let n := N_of_ascii c in
  if N.ltb n 58 then n - 48 else n - 87.

Definition unescapeChar (s : string) : option (ascii * string) :=
  match s with
  | EmptyString => None
  | String c rest =>
      let n := N_of_ascii c in
      if N.eqb n 34 then None
      else if N.eqb n 92 then
        match rest with
        | EmptyString => None
        | String d rest' =>
            let m := N_of_ascii d in
            if N.eqb m 98 then Some (ascii_of_N 8, rest')
            else if N.eqb m 116 then Some (ascii_of_N 9, rest')
            else if N.eqb m 110 then Some (ascii_of_N 10, rest')
            else if N.eqb m 102 then Some (ascii_of_N 12, rest')
            else if N.eqb m 114 then Some (ascii_of_N 13, rest')
            else if N.eqb m 117 then
              match rest' with
              | String _ (String _ (String h (String l rest''))) =>
                  Some (ascii_of_N (16 * hexValue h + hexValue l), rest'')
              | _ => None
              end
            else Some (d, rest')
        end
      else Some (c, rest)
  end.

(** The text of a boolean in JSON. *)
Definition boolText (b : bool) : string := if b then "true" else "false".

(** The fixed stretches of a cache identifier up to the two target
    flags: [{"buildAngular":"], then after the version
    [","customOptions":{"forceAsyncTransformation":], then
    [,"forceES5":]. *)
Definition keyHead : string := ("{" ++ quote "buildAngular" ++ ":" ++ dquote)%string.

Definition keyMiddle : string :=
  ("," ++ quote "customOptions" ++ ":{" ++ quote "forceAsyncTransformation" ++ ":")%string.

Definition keyFlag : string := ("," ++ quote "forceES5" ++ ":")%string.

(** [loadsAtMost s n p]: along every way [p] can go, whatever the
    caches hold and the loads deliver, module [s] is asked for at most
    [n] times. *)
Fixpoint loadsAtMost {A : Type} (s : Specifier) (n : nat) (p : Prog A) : Prop :=
  match p with
  | Ret _ => True
  | Throw _ => True
  | GetCaches k => forall c, loadsAtMost s n (k c)
  | SetCaches _ k => loadsAtMost s n k
  | CallDetector _ _ _ k => forall b, loadsAtMost s n (k b)
  | AwaitLoad s' k =>
      if Specifier_eqb s s'
      then match n with
           | O => False
           | S m => forall r, loadsAtMost s m (k r)
           end
      else forall r, loadsAtMost s n (k r)
  | AwaitTick k => loadsAtMost s n k
  end.

Definition taskLoadsAtMost {A : Type} (s : Specifier) (n : nat) (t : Task A) : Prop :=
  match t with
  | Ready p => loadsAtMost s n p
  | Done _ => True
  end.

(** The cache is filled exactly when its module has been loaded, once. *)
Definition loadedOnce {A : Type} (c : option A) (n : nat) : Prop :=
  match c with
  | Some _ => n = 1
  | None => n = 0
  end.

Definition linkerLoadedOnce (w : World) : Prop :=
  loadedOnce (needsLinking (caches w)) (loads LinkerModule (trace w))
  /\ loadedOnce (linkerPluginCreator (caches w)) (loads LinkerBabelModule (trace w)).

(** How many loads of [s] a call may make for module [s']: one for the
    module itself. *)
Definition budgetOf (s s' : Specifier) : nat :=
  if Specifier_eqb s s' then 1 else 0.

(* ================================================================= *)
(** ** The startup script [bin/ng] *)

(** [String.prototype.split] with a one-character separator. *)
Fixpoint splitOn (separator : ascii) (s : string) : list string :=
  match s with
  | EmptyString => [""]
  | String c s' =>
      if Ascii.eqb c separator then "" :: splitOn separator s'
      else match splitOn separator s' with
           | part :: parts => String c part :: parts
           | [] => [String c ""]
           end
  end.

(** Whether [c] occurs in [s]. *)
Fixpoint occurs (c : ascii) (s : string) : bool :=
  match s with
  | EmptyString => false
  | String c' s' => Ascii.eqb c' c || occurs c s'
  end.

(** Numbers as the version test sees them: an integer, or [None] for
    [NaN]; [undefined], the value of a missing array element, behaves
    as [NaN] in every operation of the test. *)
Definition JsNumber : Type := option Z.

(** [version[i]] *)
Definition element (version : list JsNumber) (i : nat) : JsNumber :=
  match nth_error version i with
  | Some n => n
  | None => None
  end.

(** [a < b], [a > b], [a === b] and [a % 2 === 1] with [b] a literal. *)
Definition num_lt (a : JsNumber) (b : Z) : bool :=
  match a with
  | Some x => (x <? b)%Z
  | None => false
  end.

Definition num_gt (a : JsNumber) (b : Z) : bool :=
  match a with
  | Some x => (b <? x)%Z
  | None => false
  end.

Definition num_eq (a : JsNumber) (b : Z) : bool :=
  match a with
  | Some x => (x =? b)%Z
  | None => false
  end.

Definition num_odd (a : JsNumber) : bool :=
  match a with
  | Some x => (Z.rem x 2 =? 1)%Z
  | None => false
  end.

Inductive StartupEffect : Type :=
| ConsoleWarn (text : string)
| ConsoleError (text : string)
| SetExitCode (code : Z)
| RequireBootstrap.

Definition newline : string := String (ascii_of_N 10) "".

Definition oddVersionWarning (processVersion : string) : string :=
  ("Node.js version " ++ processVersion ++ " detected." ++ newline
   ++ "Odd numbered Node.js versions will not enter LTS status and should not be used for production."
   ++ " For more information, please see https://nodejs.org/en/about/releases/.")%string.

Definition unsupportedVersionError (processVersion : string) : string :=
  ("Node.js version " ++ processVersion ++ " detected." ++ newline
   ++ "The Angular CLI requires a minimum Node.js version of either v12.20 or v14.15."
   ++ newline ++ newline
   ++ "Please update your Node.js version or visit https://nodejs.org/ for additional instructions."
   ++ newline)%string.

Section Startup.

(** The global [Number], applied to a part of the version string. *)
Variable Number : string -> JsNumber.

(** The version test: [nodeVersion] is [process.versions.node],
    [processVersion] is [process.version]. *)
Definition versionCheck (nodeVersion processVersion : string) : list StartupEffect :=
  let version := map Number (splitOn "." nodeVersion) in
  if num_odd (element version 0) && num_gt (element version 0) 14 then
    (* Allow new odd numbered releases with a warning (currently v15+) *)
    [ConsoleWarn (oddVersionWarning processVersion); RequireBootstrap]
  else if num_lt (element version 0) 12
          || num_eq (element version 0) 13
          || (num_eq (element version 0) 12 && num_lt (element version 1) 20)
          || (num_eq (element version 0) 14 && num_lt (element version 1) 15)
  then
    (* Error and exit if less than 12.20 or 13.x or less than 14.15 *)
    [ConsoleError (unsupportedVersionError processVersion); SetExitCode 3]
  else [RequireBootstrap].

End Startup.

(** The title given to the process; [assignable] is whether the first
    assignment to [process.title] goes through, the [catch] branch sets
    the most basic title. *)
Definition processTitle (assignable : bool) (argv : list string) : string :=
  if assignable then ("ng " ++ join " " (skipn 2 argv))%string else "ng".

(** [Number] on the parts of a released version: a run of decimal
    digits is its value, the empty string is 0, anything else here
    [NaN]. *)
Fixpoint digitsValue (acc : Z) (s : string) : JsNumber :=
  match s with
  | EmptyString => Some acc
  | String c s' =>
      let n := N_of_ascii c in
      if N.leb 48 n && N.leb n 57
      then digitsValue (10 * acc + Z.of_N (n - 48)) s'
      else None
  end.

Definition decimalNumber (s : string) : JsNumber := digitsValue 0 s.

(* ================================================================= *)
(** ** Basic facts: objects, traces, the monad *)

Lemma obj_get_set_same (k : string) (v : JsValue) (o : JsObject) :
  obj_get k (obj_set k v o) = v.
Proof.
  induction o as [|[k' v'] o IH]; simpl.
  - now rewrite String.eqb_refl.
  - destruct (String.eqb k k') eqn:E; simpl; rewrite E; auto.
Qed.

Lemma obj_get_set_other (k k' : string) (v : JsValue) (o : JsObject) :
  k <> k' -> obj_get k (obj_set k' v o) = obj_get k o.
Proof.
  intros Hne. induction o as [|[k2 v2] o IH]; simpl.
  - destruct (String.eqb k k') eqn:E; auto.
    apply String.eqb_eq in E. contradiction.
  - destruct (String.eqb k' k2) eqn:E; simpl.
    + apply String.eqb_eq in E. subst k2.
      destruct (String.eqb k k') eqn:E2; auto.
      apply String.eqb_eq in E2. contradiction.
    + now rewrite IH.
Qed.

Lemma loads_app (s : Specifier) (tr tr' : list Event) :
  loads s (tr ++ tr') = loads s tr + loads s tr'.
Proof. unfold loads. now rewrite filter_app, length_app. Qed.

Lemma detections_app (tr tr' : list Event) :
  detections (tr ++ tr') = detections tr + detections tr'.
Proof. unfold detections. now rewrite filter_app, length_app. Qed.

Lemma run_bind {A B : Type} (env : Env) (p : Prog A) (f : A -> Prog B) (w : World) :
  run env (bind p f) w =
  match run env p w with
  | (Ok a, w') => run env (f a) w'
  | (Err e, w') => (Err e, w')
  end.
Proof.
  revert w. induction p; intros w; simpl; auto.
Qed.

(** The sequential meaning is one of the interleavings: a task that is
    alone and resumed often enough ends as [run] says. *)
Lemma run_is_a_schedule {A : Type} (env : Env) (p : Prog A) :
  forall w,
    exists n,
      exec env (repeat 0 (S n)) [Ready p] w
      = ([Done (fst (run env p w))], snd (run env p w)).
Proof.
  induction p as [a|e|k IH|c k IH|f path source k IH|s k IH|k IH]; intros w.
  - exists 0. reflexivity.
  - exists 0. reflexivity.
  - destruct (IH (caches w) w) as [n Hn]. exists n. exact Hn.
  - destruct (IH (setCaches c w)) as [n Hn]. exists n. exact Hn.
  - destruct (IH (f path source) (log (Detect path source) w)) as [n Hn].
    exists n. exact Hn.
  - destruct (IH (loadEsmModule env (trace w) s) (log (Load s) w)) as [n Hn].
    exists (S n). exact Hn.
  - destruct (IH w) as [n Hn]. exists (S n). exact Hn.
Qed.

(** A run only ever adds to the trace. *)
Lemma run_trace_extends {A : Type} (env : Env) (p : Prog A) (w : World) :
  exists tr, trace (snd (run env p w)) = trace w ++ tr.
Proof.
  revert w. induction p; intros w; simpl.
  - exists []. now rewrite app_nil_r.
  - exists []. now rewrite app_nil_r.
  - apply H.
  - destruct (IHp (setCaches c w)) as [tr Htr]. exists tr. exact Htr.
  - destruct (H (f path source) (log (Detect path source) w)) as [tr Htr].
    exists (Detect path source :: tr). rewrite Htr. simpl. now rewrite <- app_assoc.
  - destruct (H (loadEsmModule env (trace w) s) (log (Load s) w)) as [tr Htr].
    exists (Load s :: tr). rewrite Htr. simpl. now rewrite <- app_assoc.
  - apply IHp.
Qed.

(* ================================================================= *)
(** ** What the path and source tests mean *)

Lemma append_assoc (a b c : string) : ((a ++ b) ++ c = a ++ (b ++ c))%string.
Proof. induction a as [|x a IH]; cbn; [reflexivity | now rewrite IH]. Qed.

Lemma append_nil_r (a : string) : (a ++ "")%string = a.
Proof. induction a as [|x a IH]; cbn; [reflexivity | now rewrite IH]. Qed.

Lemma startsWith_iff (s needle : string) :
  startsWith s needle = true <-> exists post, s = (needle ++ post)%string.
Proof.
  revert s. induction needle as [|a needle IH]; intros s; cbn.
  - split; [intros _; exists s; reflexivity | reflexivity].
  - destruct s as [|b s].
    + split; [discriminate | intros [post H]; discriminate].
    + rewrite andb_true_iff, Ascii.eqb_eq, IH. split.
      * intros [-> [post ->]]. exists post. reflexivity.
      * intros [post H]. inversion H; subst. split; [reflexivity | exists post; reflexivity].
Qed.

Lemma includes_iff (s needle : string) :
  includes s needle = true <->
  exists pre post, s = (pre ++ needle ++ post)%string.
Proof.
  induction s as [|c s IH]; cbn [includes]; rewrite orb_true_iff, startsWith_iff.
  - split.
    + intros [[post H] | H]; [|discriminate]. exists "", post. exact H.
    + intros (pre & post & H). left. destruct pre; [|discriminate].
      exists post. exact H.
  - rewrite IH. split.
    + intros [[post H] | (pre & post & H)].
      * exists "", post. exact H.
      * exists (String c pre), post. cbn. now rewrite H.
    + intros (pre & post & H). destruct pre as [|c' pre].
      * left. exists post. exact H.
      * right. cbn in H. inversion H; subst. exists pre, post. reflexivity.
Qed.

(** The matcher agrees with the meaning of the patterns. *)
Lemma matchAt_denote (r : Regex) :
  forall s k,
    matchAt r s k = true <->
    exists a rest, s = (a ++ rest)%string /\ denote r a rest /\ k rest = true.
Proof.
  induction r as [c|cs|r1 IH1 r2 IH2|r1 IH1 r2 IH2|r1 IH1|]; intros s k; cbn [matchAt denote].
  - destruct s as [|c' s].
    + split; [discriminate|]. intros (a & rest & H & -> & _). discriminate.
    + destruct (Ascii.eqb c c') eqn:E.
      * apply Ascii.eqb_eq in E. subst c'. split.
        -- intros H. exists (String c ""), s. auto.
        -- intros (a & rest & H & -> & Hk). cbn in H. inversion H; subst. exact Hk.
      * apply Ascii.eqb_neq in E. split; [discriminate|].
        intros (a & rest & H & -> & _). cbn in H. inversion H; subst. contradiction.
  - destruct s as [|c' s].
    + split; [discriminate|]. intros (a & rest & H & (c & _ & ->) & _). discriminate.
    + destruct (existsb (Ascii.eqb c') cs) eqn:E.
      * apply existsb_exists in E. destruct E as (c & Hin & E).
        apply Ascii.eqb_eq in E. subst c'. split.
        -- intros H. exists (String c ""), s. eauto 6.
        -- intros (a & rest & H & (c0 & _ & ->) & Hk). cbn in H.
           inversion H; subst. exact Hk.
      * split; [discriminate|].
        intros (a & rest & H & (c0 & Hin & ->) & _). cbn in H. inversion H; subst.
        assert (existsb (Ascii.eqb c0) cs = true) as E'.
        { apply existsb_exists. exists c0. split; [exact Hin | apply Ascii.eqb_refl]. }
        congruence.
  - rewrite IH1. split.
    + intros (a1 & rest1 & -> & H1 & H2). apply IH2 in H2.
      destruct H2 as (a2 & rest & -> & H2 & Hk).
      exists (a1 ++ a2)%string, rest. rewrite append_assoc. eauto 8.
    + intros (a & rest & -> & (a1 & a2 & -> & H1 & H2) & Hk).
      exists a1, (a2 ++ rest)%string. rewrite append_assoc.
      split; [reflexivity|]. split; [exact H1|]. apply IH2. eauto.
  - rewrite orb_true_iff, IH1, IH2. split.
    + intros [(a & rest & H & D & Hk) | (a & rest & H & D & Hk)]; exists a, rest; auto.
    + intros (a & rest & H & [D | D] & Hk); [left | right]; exists a, rest; auto.
  - rewrite orb_true_iff, IH1. split.
    + intros [(a & rest & H & D & Hk) | Hk].
      * exists a, rest. auto.
      * exists "", s. auto.
    + intros (a & rest & H & [D | ->] & Hk).
      * left. exists a, rest. auto.
      * right. cbn in H. now subst.
  - destruct s as [|c s].
    + split.
      * intros Hk. exists "", "". auto.
      * intros (a & rest & H & [-> ->] & Hk). exact Hk.
    + split; [discriminate|]. intros (a & rest & H & [-> ->] & _). discriminate.
Qed.

(** [test]: the pattern matches some stretch of the input. *)
Lemma test_denote (r : Regex) (s : string) :
  test r s = true <->
  exists pre a rest, s = (pre ++ a ++ rest)%string /\ denote r a rest.
Proof.
  induction s as [|c s IH]; cbn [test]; rewrite orb_true_iff, matchAt_denote.
  - split.
    + intros [(a & rest & H & D & _) | H]; [|discriminate]. exists "", a, rest. auto.
    + intros (pre & a & rest & H & D). left. destruct pre; [|discriminate].
      exists a, rest. auto.
  - rewrite IH. split.
    + intros [(a & rest & H & D & _) | (pre & a & rest & H & D)].
      * exists "", a, rest. auto.
      * exists (String c pre), a, rest. cbn. rewrite H. auto.
    + intros (pre & a & rest & H & D). destruct pre as [|c' pre].
      * left. exists a, rest. auto.
      * right. cbn in H. inversion H; subst. exists pre, a, rest. auto.
Qed.

Lemma denote_lit (w a rest : string) : denote (lit w) a rest <-> a = w.
Proof.
  revert a rest. induction w as [|c w IH]; intros a rest.
  - cbn. split; [intros [[-> _] | ->]; reflexivity | auto].
  - destruct w as [|c' w].
    + cbn. reflexivity.
    + change (lit (String c (String c' w))) with (Seq (Chr c) (lit (String c' w))).
      cbn [denote]. split.
      * intros (a1 & a2 & -> & -> & H). apply IH in H. now subst.
      * intros ->. exists (String c ""), (String c' w).
        split; [reflexivity|]. split; [reflexivity|]. now apply IH.
Qed.

Lemma denote_sep (a rest : string) :
  denote sep a rest <-> exists c, isSeparator c /\ a = String c "".
Proof.
  unfold sep, isSeparator. cbn. split.
  - intros (c & [<- | [<- | []]] & ->); eauto.
  - intros (c & [-> | ->] & ->); eauto.
Qed.

Example test_examples :
  test re_core_or_ts "/app/src/main.ts" = true
  /\ test re_core_or_ts "C:\app\view.tsx" = true
  /\ test re_core_or_ts "/app/a.ts/b.js" = false
  /\ test re_core_or_ts "/n/node_modules/@angular/core/fesm2015/core.mjs" = true
  /\ test re_core_or_ts "/n/node_modules/@angular/common/fesm2015/common.mjs" = false
  /\ test re_js "/a/b.cjs" = true
  /\ test re_js "/a/b.js.map" = false
  /\ test re_esm2015 "/p/fesm2015/x.js" = true
  /\ test re_esm2015 "/p/esm2015x/x.js" = false
  /\ test re_angular_package "/n/node_modules/@angular/common/fesm2015/common.mjs" = true
  /\ includes "const f = async () => 1" "async" = true
  /\ includes "asyn" "async" = false.
Proof. repeat split. Qed.

Example stringify_example :
  stringify (JObj [ ("a", JNum 1); ("f", JFun ArrowTrue);
                    ("b", JArr [JStr "x\y"; JUndefined; JBool true; JNum (-12)]) ])
  = Some (String.concat dquote ["{"; "a"; ":1,"; "b"; ":["; "x\\y"; ",null,true,-12]}"]).
Proof. reflexivity. Qed.

Ltac break_denote :=
  repeat match goal with
         | H : exists _, _ |- _ => destruct H
         | H : _ /\ _ |- _ => destruct H
         | H : _ \/ _ |- _ => destruct H
         | H : False |- _ => destruct H
         | H : denote (lit _) _ _ |- _ => apply denote_lit in H
         | H : denote sep _ _ |- _ => apply denote_sep in H
         | H : denote _ _ _ |- _ => progress cbn [denote In] in H
         end;
  subst.

(** [/\.[cm]?js$/]: the path ends in [.js], [.cjs] or [.mjs]. *)
Lemma test_re_js_iff (path : string) :
  test re_js path = true <->
  exists stem,
    path = (stem ++ ".js")%string
    \/ path = (stem ++ ".cjs")%string
    \/ path = (stem ++ ".mjs")%string.
Proof.
  rewrite test_denote. unfold re_js. split.
  - intros (pre & a & rest & -> & D). break_denote; exists pre; cbn; auto.
  - intros (stem & [-> | [-> | ->]]).
    + exists stem, ".js", "". split; [reflexivity|].
      exists ".", "js". repeat split.
      exists "", "js". repeat split; [now right|].
      exists "js", "". repeat split. now apply denote_lit.
    + exists stem, ".cjs", "". split; [reflexivity|].
      exists ".", "cjs". repeat split.
      exists "c", "js". repeat split; [left; exists "c"%char; cbn; auto|].
      exists "js", "". repeat split. now apply denote_lit.
    + exists stem, ".mjs", "". split; [reflexivity|].
      exists ".", "mjs". repeat split.
      exists "m", "js". repeat split; [left; exists "m"%char; cbn; auto|].
      exists "js", "". repeat split. now apply denote_lit.
Qed.

(** [/[\\/]@angular[\\/](?:compiler|core)|\.tsx?$/]: the path has a
    segment [@angular] followed by a segment that starts with
    [compiler] or [core], or it ends in [.ts] or [.tsx]. *)
Lemma test_re_core_or_ts_iff (path : string) :
  test re_core_or_ts path = true <->
  (exists pre s1 s2 package post,
     path = (pre ++ String s1 ("@angular" ++ String s2 (package ++ post)))%string
     /\ isSeparator s1 /\ isSeparator s2
     /\ (package = "compiler" \/ package = "core"))
  \/ (exists stem, path = (stem ++ ".ts")%string \/ path = (stem ++ ".tsx")%string).
Proof.
  rewrite test_denote. unfold re_core_or_ts. split.
  - intros (pre & a & rest & -> & D). break_denote.
    + left. eexists pre, _, _, "compiler", rest. cbn. split; [reflexivity | auto].
    + left. eexists pre, _, _, "core", rest. cbn. split; [reflexivity | auto].
    + right. exists pre. cbn. auto.
    + right. exists pre. cbn. auto.
  - intros [(pre & s1 & s2 & package & post & -> & H1 & H2 & Hp)
           | (stem & [-> | ->])].
    + exists pre, (String s1 ("@angular" ++ String s2 package))%string, post.
      split.
      { destruct Hp as [-> | ->]; reflexivity. }
      left. exists (String s1 ""), ("@angular" ++ String s2 package)%string.
      split; [reflexivity|]. split; [apply denote_sep; eauto|].
      exists "@angular", (String s2 package). split; [reflexivity|].
      split; [now apply denote_lit|].
      exists (String s2 ""), package. split; [reflexivity|].
      split; [apply denote_sep; eauto|].
      destruct Hp as [-> | ->]; [left | right]; now apply denote_lit.
    + exists stem, ".ts", "". split; [reflexivity|]. right.
      exists ".ts", "". split; [reflexivity|]. split; [now apply denote_lit|].
      exists "", "". repeat split. now right.
    + exists stem, ".tsx", "". split; [reflexivity|]. right.
      exists ".ts", "x". split; [reflexivity|]. split; [now apply denote_lit|].
      exists "x", "". repeat split. now left.
Qed.

(** [/[\\/]node_modules[\\/]@angular[\\/]/]: the path goes through
    [node_modules/@angular/]. *)
Lemma test_re_angular_package_iff (path : string) :
  test re_angular_package path = true <->
  exists pre s1 s2 s3 post,
    path = (pre ++ String s1 ("node_modules" ++ String s2 ("@angular" ++ String s3 post)))%string
    /\ isSeparator s1 /\ isSeparator s2 /\ isSeparator s3.
Proof.
  rewrite test_denote. unfold re_angular_package. split.
  - intros (pre & a & rest & -> & D). break_denote.
    eexists pre, _, _, _, rest. cbn. split; [reflexivity | auto].
  - intros (pre & s1 & s2 & s3 & post & -> & H1 & H2 & H3).
    exists pre, (String s1 ("node_modules" ++ String s2 ("@angular" ++ String s3 "")))%string,
      post.
    split; [reflexivity|].
    exists (String s1 ""), ("node_modules" ++ String s2 ("@angular" ++ String s3 ""))%string.
    split; [reflexivity|]. split; [apply denote_sep; eauto|].
    exists "node_modules", (String s2 ("@angular" ++ String s3 ""))%string.
    split; [reflexivity|]. split; [now apply denote_lit|].
    exists (String s2 ""), ("@angular" ++ String s3 "")%string.
    split; [reflexivity|]. split; [apply denote_sep; eauto|].
    exists "@angular", (String s3 "").
    split; [reflexivity|]. split; [now apply denote_lit|].
    apply denote_sep; eauto.
Qed.

(** [/[\\/][_f]?esm2015[\\/]/]: the path has a directory [esm2015],
    [_esm2015] or [fesm2015]. *)
Lemma test_re_esm2015_iff (path : string) :
  test re_esm2015 path = true <->
  exists pre s1 dir s2 post,
    path = (pre ++ String s1 (dir ++ String s2 post))%string
    /\ isSeparator s1 /\ isSeparator s2
    /\ (dir = "esm2015" \/ dir = "_esm2015" \/ dir = "fesm2015").
Proof.
  rewrite test_denote. unfold re_esm2015. split.
  - intros (pre & a & rest & -> & D). break_denote.
    + eexists pre, _, "_esm2015", _, rest. cbn. split; [reflexivity | auto 6].
    + eexists pre, _, "fesm2015", _, rest. cbn. split; [reflexivity | auto 6].
    + eexists pre, _, "esm2015", _, rest. cbn. split; [reflexivity | auto 6].
  - intros (pre & s1 & dir & s2 & post & -> & H1 & H2 & Hd).
    exists pre, (String s1 (dir ++ String s2 ""))%string, post.
    split.
    { destruct Hd as [-> | [-> | ->]]; reflexivity. }
    exists (String s1 ""), (dir ++ String s2 "")%string.
    split; [reflexivity|]. split; [apply denote_sep; eauto|].
    destruct Hd as [-> | [-> | ->]].
    + exists "", ("esm2015" ++ String s2 "")%string. repeat split; [now right|].
      exists "esm2015", (String s2 ""). repeat split; [now apply denote_lit|].
      apply denote_sep; eauto.
    + exists "_", ("esm2015" ++ String s2 "")%string.
      repeat split; [left; exists "_"%char; cbn; auto|].
      exists "esm2015", (String s2 ""). repeat split; [now apply denote_lit|].
      apply denote_sep; eauto.
    + exists "f", ("esm2015" ++ String s2 "")%string.
      repeat split; [left; exists "f"%char; cbn; auto|].
      exists "esm2015", (String s2 ""). repeat split; [now apply denote_lit|].
      apply denote_sep; eauto.
Qed.

(** [/[\\/]@angular[\\/](?:compiler|localize)/] *)
Lemma test_re_compiler_or_localize_iff (path : string) :
  test re_compiler_or_localize path = true <->
  exists pre s1 s2 package post,
    path = (pre ++ String s1 ("@angular" ++ String s2 (package ++ post)))%string
    /\ isSeparator s1 /\ isSeparator s2
    /\ (package = "compiler" \/ package = "localize").
Proof.
  rewrite test_denote. unfold re_compiler_or_localize. split.
  - intros (pre & a & rest & -> & D). break_denote.
    + eexists pre, _, _, "compiler", rest. cbn. split; [reflexivity | auto].
    + eexists pre, _, _, "localize", rest. cbn. split; [reflexivity | auto].
  - intros (pre & s1 & s2 & package & post & -> & H1 & H2 & Hp).
    exists pre, (String s1 ("@angular" ++ String s2 package))%string, post.
    split.
    { destruct Hp as [-> | ->]; reflexivity. }
    exists (String s1 ""), ("@angular" ++ String s2 package)%string.
    split; [reflexivity|]. split; [apply denote_sep; eauto|].
    exists "@angular", (String s2 package). split; [reflexivity|].
    split; [now apply denote_lit|].
    exists (String s2 ""), package. split; [reflexivity|].
    split; [apply denote_sep; eauto|].
    destruct Hp as [-> | ->]; [left | right]; now apply denote_lit.
Qed.

(* ================================================================= *)
(** ** [requiresLinking] *)

Arguments test : simpl never.
Arguments includes : simpl never.

Lemma run_requiresLinking_excluded env path source w :
  test re_core_or_ts path = true ->
  run env (requiresLinking path source) w = (Ok false, w).
Proof. intros E. unfold requiresLinking. now rewrite E. Qed.

Lemma run_requiresLinking_cached env path source w f :
  test re_core_or_ts path = false ->
  needsLinking (caches w) = Some f ->
  run env (requiresLinking path source) w
  = (Ok (f path source), log (Detect path source) w).
Proof.
  intros E C. unfold requiresLinking. rewrite E. cbn. rewrite C. cbn.
  now rewrite C.
Qed.

Lemma run_requiresLinking_loaded env path source w f :
  test re_core_or_ts path = false ->
  needsLinking (caches w) = None ->
  loadEsmModule env (trace w) LinkerModule = Some f ->
  run env (requiresLinking path source) w
  = (Ok (f path source),
     log (Detect path source)
       (setCaches (mkCaches (Some f) (linkerPluginCreator (caches w))
                            (i18nPluginCreators (caches w)))
                  (log (Load LinkerModule) w))).
Proof.
  intros E C L. unfold requiresLinking. rewrite E. cbn. rewrite C. cbn.
  now rewrite L.
Qed.

Lemma run_requiresLinking_rejected env path source w :
  test re_core_or_ts path = false ->
  needsLinking (caches w) = None ->
  loadEsmModule env (trace w) LinkerModule = None ->
  run env (requiresLinking path source) w
  = (Err (LoadError LinkerModule), log (Load LinkerModule) w).
Proof.
  intros E C L. unfold requiresLinking. rewrite E. cbn. rewrite C. cbn.
  now rewrite L.
Qed.

(** C2: on a path that matches the compiler/core pattern or ends in
    [.ts]/[.tsx], [requiresLinking] answers [false] and leaves the world
    as it was: no module is loaded and the detector is not called.  On
    any other path it calls the detector it holds (the cached one, or
    the one the load delivers) exactly once, and its answer is the
    detector's answer for that path and source; it fails only when there
    is no cached detector and the load rejects. *)
Theorem requiresLinking_decides :
  forall env path source w,
    (test re_core_or_ts path = true ->
       run env (requiresLinking path source) w = (Ok false, w))
    /\ (test re_core_or_ts path = false ->
        (forall detector,
           needsLinking (caches w) = Some detector
           \/ (needsLinking (caches w) = None
               /\ loadEsmModule env (trace w) LinkerModule = Some detector) ->
           exists w',
             run env (requiresLinking path source) w = (Ok (detector path source), w')
             /\ detections (trace w') = S (detections (trace w))
             /\ needsLinking (caches w') = Some detector)
        /\ (needsLinking (caches w) = None ->
            loadEsmModule env (trace w) LinkerModule = None ->
            fst (run env (requiresLinking path source) w) = Err (LoadError LinkerModule))).
Proof.
  intros env path source w. split; [apply run_requiresLinking_excluded|].
  intros E. split.
  - intros detector [C | [C L]].
    + eexists. split; [now apply run_requiresLinking_cached|].
      cbn [trace caches log setCaches]. rewrite detections_app. cbn. split; [lia | exact C].
    + eexists. split; [now apply run_requiresLinking_loaded|].
      cbn [trace caches log setCaches]. rewrite !detections_app. cbn.
      split; [lia | reflexivity].
  - intros C L. now rewrite run_requiresLinking_rejected.
Qed.

Lemma requiresLinking_decides_witness :
  run healthyEnv (requiresLinking "/app/src/main.ts" "ngDeclare") initialWorld
  = (Ok false, initialWorld)
  /\ exists w',
      run healthyEnv (requiresLinking "/lib/fesm2015/lib.mjs" "ngDeclareComponent") initialWorld
      = (Ok true, w')
      /\ detections (trace w') = 1
      /\ needsLinking (caches w') = Some declDetector.
Proof.
  split.
  - apply (proj1 (requiresLinking_decides healthyEnv "/app/src/main.ts" "ngDeclare"
                    initialWorld)).
    reflexivity.
  - apply (proj1 (proj2 (requiresLinking_decides healthyEnv "/lib/fesm2015/lib.mjs"
                           "ngDeclareComponent" initialWorld) eq_refl) declDetector).
    right. split; reflexivity.
Defined.

(* ================================================================= *)
(** ** The phases of [customOptions] *)

Lemma run_awaitCall {A : Type} env (p : Prog A) w :
  run env (awaitCall p) w = run env p w.
Proof.
  unfold awaitCall. rewrite run_bind.
  destruct (run env p w) as [[a|e] w']; reflexivity.
Qed.

(** The linking analysis either leaves the locals alone (no linking) or
    sets [shouldProcess] and attaches the linker options. *)
Lemma analyzeLinking_ok env this aot source l w l1 w1 :
  run env (analyzeLinking this aot source l) w = (Ok l1, w1) ->
  exists required w0 creator,
    run env (requiresLinking (resourcePath this) source) w = (Ok required, w0)
    /\ l1 = (if required : bool
             then mkLocals true
                    (Custom.set_angularLinker
                       (Some (AngularLinker.mk true (notTrue aot) creator))
                       (customOptions_ l))
             else l)
    /\ i18nPluginCreators (caches w1) = i18nPluginCreators (caches w0)
    /\ loads LocalizeTools (trace w1) = loads LocalizeTools (trace w0).
Proof.
  unfold analyzeLinking. rewrite run_bind, run_awaitCall.
  destruct (run env (requiresLinking (resourcePath this) source) w) as [[required|e] w0];
    [|discriminate].
  destruct required; cbn.
  - destruct (linkerPluginCreator (caches w0)) eqn:C; cbn.
    + rewrite C. intros H. inversion H; subst.
      exists true, w1, (Some j). auto.
    + destruct (loadEsmModule env (trace w0) LinkerBabelModule) eqn:L; cbn;
        [|discriminate].
      intros H. inversion H; subst.
      exists true, w0, (Some m).
      cbn [trace caches log setCaches i18nPluginCreators].
      rewrite loads_app. cbn. rewrite Nat.add_0_r. auto.
  - intros H. inversion H; subst. exists false, w1, None. auto.
Qed.

(** The i18n analysis never fails. *)
Lemma analyzeI18n_run env this i18n source l w :
  (i18nEligible this i18n source = false
   /\ run env (analyzeI18n this i18n source l) w = (Ok l, w))
  \/ (exists i18nOptions w',
        i18n = Some i18nOptions
        /\ i18nEligible this i18n source = true
        /\ run env (analyzeI18n this i18n source l) w
           = (Ok (mkLocals true
                    (Custom.set_i18n
                       (Some (obj_set "i18nPluginCreators"
                                (creatorsValue (i18nPluginCreators (caches w')))
                                (spread [] i18nOptions)))
                       (customOptions_ l))),
              w')
        /\ needsLinking (caches w') = needsLinking (caches w)
        /\ linkerPluginCreator (caches w') = linkerPluginCreator (caches w)
        /\ match i18nPluginCreators (caches w) with
           | Some m => w' = w
           | None =>
               trace w' = trace w ++ [Load LocalizeTools]
               /\ i18nPluginCreators (caches w')
                  = loadEsmModule env (trace w) LocalizeTools
           end).
Proof.
  unfold analyzeI18n, i18nEligible. destruct i18n as [i18nOptions|]; [|left; auto].
  destruct (negb (test re_compiler_or_localize (resourcePath this))
            && includes source "$localize"); [|left; auto].
  right. exists i18nOptions. cbn.
  destruct (i18nPluginCreators (caches w)) eqn:C; cbn.
  - exists w. rewrite C. auto 10.
  - destruct (loadEsmModule env (trace w) LocalizeTools) eqn:L; cbn.
    + exists (setCaches (mkCaches (needsLinking (caches w))
                                  (linkerPluginCreator (caches w)) (Some m))
                        (log (Load LocalizeTools) w)).
      repeat split; cbn; auto.
    + exists (log (Load LocalizeTools) w).
      cbn [caches log]. rewrite C. repeat split; cbn; auto.
Qed.

Lemma resolveLocals_ok env this o source w l w' :
  run env (resolveLocals this o source) w = (Ok l, w') ->
  exists l1 w1 l3,
    run env (analyzeLinking this (Options.aot o) source
               (initialLocals (Options.rawOptions o))) w = (Ok l1, w1)
    /\ run env (analyzeI18n this (Options.i18n o) source
                  (analyzeEsTarget this (Options.scriptTarget o) source l1)) w1
       = (Ok l3, w')
    /\ l = analyzeOptimize this (Options.optimize o) l3.
Proof.
  unfold resolveLocals. rewrite run_bind.
  destruct (run env (analyzeLinking _ _ _ _) w) as [[l1|e] w1]; [|discriminate].
  rewrite run_bind.
  destruct (run env (analyzeI18n _ _ _ _) w1) as [[l3|e] w3] eqn:HI; [|discriminate].
  cbn. intros H. inversion H; subst. exists l1, w1, l3. auto.
Qed.

Lemma customOptions_ok env this o source w r w' :
  run env (customOptions env this o source) w = (Ok r, w') ->
  exists l,
    run env (resolveLocals this o source) w = (Ok l, w')
    /\ r = finish env (Options.rawOptions o) l.
Proof.
  unfold customOptions. rewrite run_bind.
  destruct (run env (resolveLocals this o source) w) as [[l|e] w1] eqn:HR;
    [|discriminate].
  cbn. intros H. inversion H; subst. exists l. auto.
Qed.

(** What the locals are when the hook gets to its end, field by field. *)
Lemma resolveLocals_summary env this o source w l w' :
  run env (resolveLocals this o source) w = (Ok l, w') ->
  let co := customOptions_ l in
  let path := resourcePath this in
  exists required w0,
    run env (requiresLinking path source) w = (Ok required, w0)
    /\ isSome (Custom.angularLinker co) = required
    /\ Custom.forceES5 co
       = match Options.scriptTarget o with
         | Some esTarget => (esTarget <? ScriptTarget.ES2015)%Z
         | None => false
         end
    /\ Custom.forceAsyncTransformation co
       = match Options.scriptTarget o with
         | Some esTarget =>
             negb (esTarget <? ScriptTarget.ES2015)%Z
             && ((esTarget >=? ScriptTarget.ES2017)%Z || test re_js path)
             && (negb (test re_esm2015 path) && includes source "async")
         | None => false
         end
    /\ isSome (Custom.i18n co) = i18nEligible this (Options.i18n o) source
    /\ Custom.optimize co
       = (if truthy (Options.optimize o)
          then Some (Optimize.mk (test re_angular_package path)
                                 (test re_angular_package path)
                                 (moduleSideEffectFree this))
          else None)
    /\ shouldProcess l
       = hasPlugins (Options.rawOptions o)
         || required
         || Custom.forceAsyncTransformation co
         || Custom.forceES5 co
         || i18nEligible this (Options.i18n o) source
         || truthy (Options.optimize o).
Proof.
  intros H. apply resolveLocals_ok in H.
  destruct H as (l1 & w1 & l3 & HL & HI & ->).
  apply analyzeLinking_ok in HL.
  destruct HL as (required & w0 & creator & HR & -> & _ & _).
  exists required, w0. split; [exact HR|].
  destruct (analyzeI18n_run env this (Options.i18n o) source
              (analyzeEsTarget this (Options.scriptTarget o) source
                 (if required
                  then mkLocals true
                         (Custom.set_angularLinker
                            (Some (AngularLinker.mk true (notTrue (Options.aot o)) creator))
                            (customOptions_ (initialLocals (Options.rawOptions o))))
                  else initialLocals (Options.rawOptions o))) w1)
    as [[E HI'] | (cfg & w2 & _ & E & HI' & _)];
    rewrite HI' in HI; inversion HI; subst; clear HI HI'; rewrite E;
    unfold analyzeOptimize, analyzeEsTarget;
    destruct (Options.scriptTarget o) as [esTarget|];
    destruct required;
    destruct (truthy (Options.optimize o));
    try destruct (esTarget <? ScriptTarget.ES2015)%Z;
    try destruct ((esTarget >=? ScriptTarget.ES2017)%Z || test re_js (resourcePath this));
    cbn;
    repeat split;
    try reflexivity;
    try (destruct (hasPlugins (Options.rawOptions o));
         destruct (negb (test re_esm2015 (resourcePath this)) && includes source "async");
         reflexivity).
Qed.

(* ================================================================= *)
(** ** Target-level analysis *)

(** C9: in the options the hook returns, [forceES5] is set exactly when
    a script target is given and it lies below ES2015. *)
Theorem forceES5_iff :
  forall env this o source w r w',
    run env (customOptions env this o source) w = (Ok r, w') ->
    (Custom.forceES5 (custom r) = true <->
     exists esTarget,
       Options.scriptTarget o = Some esTarget /\ (esTarget < ScriptTarget.ES2015)%Z).
Proof.
  intros env this o source w r w' H.
  apply customOptions_ok in H. destruct H as (l & H & ->).
  apply resolveLocals_summary in H.
  destruct H as (required & w0 & _ & _ & HES5 & _).
  cbn [custom finish]. rewrite HES5.
  destruct (Options.scriptTarget o) as [esTarget|].
  - rewrite Z.ltb_lt. split.
    + intros Hlt. exists esTarget. auto.
    + intros (t & Ht & Hlt). inversion Ht; subst. exact Hlt.
  - split; [discriminate|]. intros (t & Ht & _). discriminate.
Qed.

Lemma forceES5_iff_witness :
  exists r w',
    run healthyEnv
        (customOptions healthyEnv (plainContext "/app/src/main.ts")
           (Options.mk None (Some ScriptTarget.ES5) JUndefined JUndefined [])
           "export const x = 1;")
        initialWorld = (Ok r, w')
    /\ (Custom.forceES5 (custom r) = true <->
        exists esTarget,
          Some ScriptTarget.ES5 = Some esTarget /\ (esTarget < ScriptTarget.ES2015)%Z).
Proof.
  eexists. eexists. split.
  - reflexivity.
  - eapply (forceES5_iff healthyEnv (plainContext "/app/src/main.ts")
              (Options.mk None (Some ScriptTarget.ES5) JUndefined JUndefined [])
              "export const x = 1;" initialWorld).
    reflexivity.
Defined.

(** C10: the returned options never have both [forceES5] and
    [forceAsyncTransformation] set. *)
Theorem forceES5_excludes_async :
  forall env this o source w r w',
    run env (customOptions env this o source) w = (Ok r, w') ->
    ~ (Custom.forceES5 (custom r) = true
       /\ Custom.forceAsyncTransformation (custom r) = true).
Proof.
  intros env this o source w r w' H.
  apply customOptions_ok in H. destruct H as (l & H & ->).
  apply resolveLocals_summary in H.
  destruct H as (required & w0 & _ & _ & HES5 & HAsync & _).
  cbn [custom finish]. rewrite HES5, HAsync.
  destruct (Options.scriptTarget o) as [esTarget|]; [|intros [? _]; discriminate].
  destruct (esTarget <? ScriptTarget.ES2015)%Z; cbn; intros [? ?]; discriminate.
Qed.

Lemma forceES5_excludes_async_witness :
  exists r w',
    run healthyEnv
        (customOptions healthyEnv (plainContext "/app/vendor/lib.js")
           (Options.mk None (Some ScriptTarget.ES5) JUndefined JUndefined [])
           "async function f() {}")
        initialWorld = (Ok r, w')
    /\ ~ (Custom.forceES5 (custom r) = true
          /\ Custom.forceAsyncTransformation (custom r) = true).
Proof.
  eexists. eexists. split.
  - reflexivity.
  - eapply (forceES5_excludes_async healthyEnv (plainContext "/app/vendor/lib.js")
              (Options.mk None (Some ScriptTarget.ES5) JUndefined JUndefined [])
              "async function f() {}" initialWorld).
    reflexivity.
Defined.

(** C3, as the code has it: [forceAsyncTransformation] is set exactly
    when a script target is given, the target is not below ES2015, the
    target is at least ES2017 or the path ends in [.js], [.cjs] or
    [.mjs], the source contains [async], and the path has no
    [esm2015]-style directory. *)
Theorem forceAsync_iff :
  forall env this o source w r w',
    run env (customOptions env this o source) w = (Ok r, w') ->
    (Custom.forceAsyncTransformation (custom r) = true <->
     (exists esTarget,
        Options.scriptTarget o = Some esTarget
        /\ ~ (esTarget < ScriptTarget.ES2015)%Z
        /\ ((ScriptTarget.ES2017 <= esTarget)%Z \/ test re_js (resourcePath this) = true))
     /\ includes source "async" = true
     /\ test re_esm2015 (resourcePath this) = false).
Proof.
  intros env this o source w r w' H.
  apply customOptions_ok in H. destruct H as (l & H & ->).
  apply resolveLocals_summary in H.
  destruct H as (required & w0 & _ & _ & _ & HAsync & _).
  cbn [custom finish]. rewrite HAsync.
  destruct (Options.scriptTarget o) as [esTarget|].
  - rewrite !andb_true_iff, orb_true_iff, !negb_true_iff, Z.ltb_ge, Z.geb_le.
    split.
    + intros [[Hge Hhi] [Hesm Hasync]]. repeat split; auto.
      exists esTarget. repeat split; auto. lia.
    + intros [(t & Ht & Hge & Hhi) [Hasync Hesm]]. inversion Ht; subst.
      repeat split; auto. lia.
  - split; [discriminate|]. intros [(t & Ht & _) _]. discriminate.
Qed.

Lemma forceAsync_iff_witness :
  exists r w',
    run healthyEnv
        (customOptions healthyEnv (plainContext "/app/node_modules/rxjs/dist/index.js")
           (Options.mk None (Some ScriptTarget.ES2015) JUndefined JUndefined [])
           "export async function f() {}")
        initialWorld = (Ok r, w')
    /\ Custom.forceAsyncTransformation (custom r) = true
    /\ (Custom.forceAsyncTransformation (custom r) = true <->
        (exists esTarget,
           Some ScriptTarget.ES2015 = Some esTarget
           /\ ~ (esTarget < ScriptTarget.ES2015)%Z
           /\ ((ScriptTarget.ES2017 <= esTarget)%Z
               \/ test re_js "/app/node_modules/rxjs/dist/index.js" = true))
        /\ includes "export async function f() {}" "async" = true
        /\ test re_esm2015 "/app/node_modules/rxjs/dist/index.js" = false).
Proof.
  eexists. eexists. split; [reflexivity|]. split; [reflexivity|].
  eapply (forceAsync_iff healthyEnv
            (plainContext "/app/node_modules/rxjs/dist/index.js")
            (Options.mk None (Some ScriptTarget.ES2015) JUndefined JUndefined [])
            "export async function f() {}" initialWorld).
  reflexivity.
Defined.

(** C3 as stated fails: with target ES5, a [.js] path outside any
    [esm2015] directory and a source that contains [async], all four
    conditions of the claim hold, yet the hook takes the [forceES5]
    branch and leaves [forceAsyncTransformation] unset. *)
Lemma forceAsync_claim_fails_below_ES2015 :
  exists r w',
    run healthyEnv
        (customOptions healthyEnv (plainContext "/app/vendor/lib.js")
           (Options.mk None (Some ScriptTarget.ES5) JUndefined JUndefined [])
           "async function f() {}")
        initialWorld = (Ok r, w')
    /\ ~ (Custom.forceAsyncTransformation (custom r) = true <->
          (exists esTarget,
             Some ScriptTarget.ES5 = Some esTarget
             /\ ((ScriptTarget.ES2017 <= esTarget)%Z
                 \/ test re_js "/app/vendor/lib.js" = true))
          /\ includes "async function f() {}" "async" = true
          /\ test re_esm2015 "/app/vendor/lib.js" = false).
Proof.
  eexists. eexists. split; [reflexivity|].
  intros [_ Hback].
  assert (Hfalse : false = true); [|discriminate Hfalse].
  apply Hback. split; [|split; reflexivity].
  exists ScriptTarget.ES5. split; [reflexivity|]. right. reflexivity.
Qed.

(* ================================================================= *)
(** ** Optimization flags *)

(** C5: when optimization is requested, [looseEnums] and [pureTopLevel]
    are both set exactly when the path contains
    [node_modules/@angular/] and both unset otherwise; [wrapDecorators]
    is set exactly when the module carries [factoryMeta.sideEffectFree],
    whatever the path. *)
Theorem optimize_flags :
  forall env this o source w r w',
    run env (customOptions env this o source) w = (Ok r, w') ->
    truthy (Options.optimize o) = true ->
    exists op,
      Custom.optimize (custom r) = Some op
      /\ (Optimize.looseEnums op = true /\ Optimize.pureTopLevel op = true <->
          test re_angular_package (resourcePath this) = true)
      /\ (test re_angular_package (resourcePath this) = false ->
          Optimize.looseEnums op = false /\ Optimize.pureTopLevel op = false)
      /\ (Optimize.wrapDecorators op = true <->
          exists m fm,
            _module this = Some m
            /\ factoryMeta m = Some fm
            /\ sideEffectFree fm = Some true).
Proof.
  intros env this o source w r w' H Hopt.
  apply customOptions_ok in H. destruct H as (l & H & ->).
  apply resolveLocals_summary in H.
  destruct H as (required & w0 & _ & _ & _ & _ & _ & HO & _).
  cbn [custom finish]. rewrite HO, Hopt.
  eexists. split; [reflexivity|]. cbn.
  split; [|split].
  - split; [intros [? _]; assumption | intros ?; split; assumption].
  - intros ->. split; reflexivity.
  - unfold moduleSideEffectFree.
    destruct (_module this) as [m|].
    + destruct (factoryMeta m) as [fm|] eqn:Efm.
      * destruct (sideEffectFree fm) as [b|] eqn:Es.
        -- split.
           ++ intros ->. exists m, fm. auto.
           ++ intros (m' & fm' & Hm & Hfm & Hs).
              inversion Hm; subst m'. rewrite Efm in Hfm. inversion Hfm; subst fm'.
              rewrite Es in Hs. now inversion Hs.
        -- split; [discriminate|].
           intros (m' & fm' & Hm & Hfm & Hs).
           inversion Hm; subst m'. rewrite Efm in Hfm. inversion Hfm; subst fm'.
           rewrite Es in Hs. discriminate.
      * split; [discriminate|].
        intros (m' & fm' & Hm & Hfm & _).
        inversion Hm; subst m'. rewrite Efm in Hfm. discriminate.
    + split; [discriminate|]. intros (m' & fm' & Hm & _). discriminate.
Qed.

Lemma optimize_flags_witness :
  exists op,
    Custom.optimize
      (custom
         (finish healthyEnv []
            (analyzeOptimize
               (mkContext "/app/node_modules/@angular/common/fesm2015/common.mjs"
                          (Some (mkModule (Some (mkFactoryMeta (Some true))))))
               (JBool true)
               (initialLocals [])))) = Some op
    /\ Optimize.looseEnums op = true
    /\ Optimize.pureTopLevel op = true
    /\ Optimize.wrapDecorators op = true.
Proof.
  destruct (optimize_flags healthyEnv
              (mkContext "/app/node_modules/@angular/common/fesm2015/common.mjs"
                         (Some (mkModule (Some (mkFactoryMeta (Some true))))))
              (Options.mk None None JUndefined (JBool true) [])
              "export const x = 1;" initialWorld _ _ eq_refl eq_refl)
    as (op & Hop & Hboth & _ & Hwrap).
  exists op. split; [exact Hop|].
  destruct (proj2 Hboth eq_refl) as [Hl Hp].
  split; [exact Hl|]. split; [exact Hp|].
  apply (proj2 Hwrap). eexists. eexists. repeat split.
Defined.

(* ================================================================= *)
(** ** [shouldProcess] and the bypass *)

Lemma hasPlugins_iff (rawOptions : JsObject) :
  hasPlugins rawOptions = true <->
  exists p ps, obj_get "plugins" rawOptions = JArr (p :: ps).
Proof.
  unfold hasPlugins. split.
  - destruct (obj_get "plugins" rawOptions) as [| | | | | |[|p ps]|]; try discriminate.
    intros _. exists p, ps. reflexivity.
  - intros (p & ps & ->). reflexivity.
Qed.

Lemma finish_ignore env rawOptions l :
  shouldProcess l = false ->
  obj_get "ignore" (loader (finish env rawOptions l)) = ignoreAll.
Proof.
  intros E. unfold finish. cbn [loader]. rewrite E. cbn [negb].
  apply obj_get_set_same.
Qed.

Lemma finish_cacheIdentifier env rawOptions l :
  obj_get "cacheIdentifier" (loader (finish env rawOptions l))
  = cacheIdentifier (version env) (customOptions_ l) baseOptions rawOptions.
Proof.
  unfold finish. cbn [loader].
  destruct (negb (shouldProcess l)).
  - rewrite obj_get_set_other by discriminate. apply obj_get_set_same.
  - apply obj_get_set_same.
Qed.

(** C1: when the hook returns, its [shouldProcess] local is set exactly
    when [rawOptions.plugins] is a non-empty array, or [requiresLinking]
    answered [true], or [forceAsyncTransformation] or [forceES5] is set
    in the result, or i18n was asked for and applies to the file, or
    [optimize] was asked for; and when it is not set, the loader options
    carry [ignore: [() => true]]. *)
Theorem shouldProcess_iff :
  forall env this o source w r w',
    run env (customOptions env this o source) w = (Ok r, w') ->
    exists l required w0,
      run env (resolveLocals this o source) w = (Ok l, w')
      /\ r = finish env (Options.rawOptions o) l
      /\ run env (requiresLinking (resourcePath this) source) w = (Ok required, w0)
      /\ (required = true <-> Custom.angularLinker (custom r) <> None)
      /\ (i18nEligible this (Options.i18n o) source = true <->
          Custom.i18n (custom r) <> None)
      /\ (truthy (Options.optimize o) = true <-> Custom.optimize (custom r) <> None)
      /\ (shouldProcess l = true <->
          (exists p ps, obj_get "plugins" (Options.rawOptions o) = JArr (p :: ps))
          \/ required = true
          \/ Custom.forceAsyncTransformation (custom r) = true
          \/ Custom.forceES5 (custom r) = true
          \/ i18nEligible this (Options.i18n o) source = true
          \/ truthy (Options.optimize o) = true)
      /\ (shouldProcess l = false -> obj_get "ignore" (loader r) = ignoreAll).
Proof.
  intros env this o source w r w' H.
  apply customOptions_ok in H. destruct H as (l & H & ->).
  pose proof (resolveLocals_summary _ _ _ _ _ _ _ H) as S.
  destruct S as (required & w0 & HR & HL & _ & _ & HI & HO & HS).
  exists l, required, w0. cbn [custom finish].
  split; [exact H|]. split; [reflexivity|]. split; [exact HR|].
  split; [|split; [|split; [|split]]].
  - rewrite <- HL. destruct (Custom.angularLinker (customOptions_ l)); cbn;
      split; congruence.
  - rewrite <- HI. destruct (Custom.i18n (customOptions_ l)); cbn;
      split; congruence.
  - rewrite HO. destruct (truthy (Options.optimize o)); split; congruence.
  - rewrite HS, <- hasPlugins_iff, !orb_true_iff. tauto.
  - apply finish_ignore.
Qed.

Lemma shouldProcess_iff_witness :
  exists r w',
    run healthyEnv (customOptions healthyEnv (plainContext "/app/src/main.ts")
                      noOptions "export const x = 1;") initialWorld
    = (Ok r, w')
    /\ obj_get "ignore" (loader r) = ignoreAll.
Proof.
  eexists. eexists. split; [reflexivity|].
  destruct (shouldProcess_iff healthyEnv (plainContext "/app/src/main.ts")
              noOptions "export const x = 1;" initialWorld _ _ eq_refl)
    as (l & required & w0 & Hl & Hr & _ & _ & _ & _ & _ & Hignore).
  apply Hignore.
  inversion Hl. reflexivity.
Defined.

(* ================================================================= *)
(** ** The cache identifier *)

(** C4, as the code has it: the [cacheIdentifier] of the returned loader
    options is [JSON.stringify] of the object made of the package
    version, the custom options, the base options and the raw options,
    always a string; two invocations that agree on the version, on the
    resolved custom options and on the raw options (the same properties
    in the same order) get the same identifier, whatever the file, the
    caches or the other options were. *)
Theorem cacheIdentifier_deterministic :
  forall env1 env2 this1 this2 o1 o2 source1 source2 w1 w2 r1 r2 w1' w2',
    run env1 (customOptions env1 this1 o1 source1) w1 = (Ok r1, w1') ->
    run env2 (customOptions env2 this2 o2 source2) w2 = (Ok r2, w2') ->
    version env1 = version env2 ->
    custom r1 = custom r2 ->
    Options.rawOptions o1 = Options.rawOptions o2 ->
    obj_get "cacheIdentifier" (loader r1) = obj_get "cacheIdentifier" (loader r2)
    /\ obj_get "cacheIdentifier" (loader r1)
       = JSON_stringify
           (JObj [ ("buildAngular", JStr (version env1));
                   ("customOptions", customObject (custom r1));
                   ("baseOptions", JObj baseOptions);
                   ("rawOptions", JObj (Options.rawOptions o1)) ])
    /\ exists key, obj_get "cacheIdentifier" (loader r1) = JStr key.
Proof.
  intros env1 env2 this1 this2 o1 o2 source1 source2 w1 w2 r1 r2 w1' w2'
         H1 H2 Hv Hc Hraw.
  apply customOptions_ok in H1. destruct H1 as (l1 & _ & ->).
  apply customOptions_ok in H2. destruct H2 as (l2 & _ & ->).
  rewrite !finish_cacheIdentifier. cbn [custom finish] in *.
  split; [|split].
  - now rewrite Hv, Hc, Hraw.
  - reflexivity.
  - unfold cacheIdentifier, JSON_stringify. cbn [stringify]. eexists. reflexivity.
Qed.

Lemma cacheIdentifier_deterministic_witness :
  exists r1 r2 w1' w2',
    run healthyEnv
        (customOptions healthyEnv (plainContext "/app/src/a.ts")
           (Options.mk None None JUndefined (JBool false) [("compact", JBool true)])
           "export const a = 1;")
        initialWorld = (Ok r1, w1')
    /\ run healthyEnv
           (customOptions healthyEnv (plainContext "/app/src/b.ts")
              (Options.mk None None (JBool true) JUndefined [("compact", JBool true)])
              "export const b = 2;")
           (mkWorld (mkCaches (Some declDetector) None None) [Load LinkerModule])
       = (Ok r2, w2')
    /\ obj_get "cacheIdentifier" (loader r1) = obj_get "cacheIdentifier" (loader r2).
Proof.
  eexists. eexists. eexists. eexists.
  split; [reflexivity|]. split; [reflexivity|].
  eapply (cacheIdentifier_deterministic healthyEnv healthyEnv
            (plainContext "/app/src/a.ts") (plainContext "/app/src/b.ts")
            (Options.mk None None JUndefined (JBool false) [("compact", JBool true)])
            (Options.mk None None (JBool true) JUndefined [("compact", JBool true)])
            "export const a = 1;" "export const b = 2;"
            initialWorld
            (mkWorld (mkCaches (Some declDetector) None None) [Load LinkerModule]));
    reflexivity.
Defined.

(** C4 as stated fails: the same raw options, entered in a different
    order, give a different identifier. *)
Lemma cacheIdentifier_follows_insertion_order :
  let raw1 := [("cacheDirectory", JStr "/tmp/cache"); ("compact", JBool true)] in
  let raw2 := [("compact", JBool true); ("cacheDirectory", JStr "/tmp/cache")] in
  Permutation raw1 raw2
  /\ (forall k, obj_get k raw1 = obj_get k raw2)
  /\ exists r1 r2 w1' w2',
       run healthyEnv
           (customOptions healthyEnv (plainContext "/app/src/main.ts")
              (Options.mk None None JUndefined JUndefined raw1)
              "export const x = 1;")
           initialWorld = (Ok r1, w1')
       /\ run healthyEnv
              (customOptions healthyEnv (plainContext "/app/src/main.ts")
                 (Options.mk None None JUndefined JUndefined raw2)
                 "export const x = 1;")
              initialWorld = (Ok r2, w2')
       /\ custom r1 = custom r2
       /\ obj_get "cacheIdentifier" (loader r1) <> obj_get "cacheIdentifier" (loader r2).
Proof.
  cbv zeta. split; [apply perm_swap|]. split.
  - intros k. cbn.
    destruct (String.eqb k "cacheDirectory") eqn:E1;
      destruct (String.eqb k "compact") eqn:E2; try reflexivity.
    apply String.eqb_eq in E1. apply String.eqb_eq in E2. congruence.
  - eexists. eexists. eexists. eexists.
    split; [reflexivity|]. split; [reflexivity|]. split; [reflexivity|].
    vm_compute. discriminate.
Qed.

(* ================================================================= *)
(** ** Loading the localize tools *)

Lemma requiresLinking_keeps_localize env path source w :
  i18nPluginCreators (caches (snd (run env (requiresLinking path source) w)))
  = i18nPluginCreators (caches w)
  /\ loads LocalizeTools (trace (snd (run env (requiresLinking path source) w)))
     = loads LocalizeTools (trace w).
Proof.
  destruct (test re_core_or_ts path) eqn:E.
  - rewrite run_requiresLinking_excluded by exact E. auto.
  - destruct (needsLinking (caches w)) as [f|] eqn:C.
    + rewrite (run_requiresLinking_cached _ _ _ _ f) by assumption.
      cbn [snd log caches trace]. rewrite loads_app. cbn. split; [reflexivity | lia].
    + destruct (loadEsmModule env (trace w) LinkerModule) as [f|] eqn:L.
      * rewrite (run_requiresLinking_loaded _ _ _ _ f) by assumption.
        cbn [snd log caches trace setCaches i18nPluginCreators].
        rewrite !loads_app. cbn. split; [reflexivity | lia].
      * rewrite run_requiresLinking_rejected by assumption.
        cbn [snd log caches trace]. rewrite loads_app. cbn. split; [reflexivity | lia].
Qed.

Lemma analyzeLinking_keeps_localize env this aot source l w l1 w1 :
  run env (analyzeLinking this aot source l) w = (Ok l1, w1) ->
  i18nPluginCreators (caches w1) = i18nPluginCreators (caches w)
  /\ loads LocalizeTools (trace w1) = loads LocalizeTools (trace w).
Proof.
  intros H. apply analyzeLinking_ok in H.
  destruct H as (required & w0 & creator & HR & _ & HC & HT).
  pose proof (requiresLinking_keeps_localize env (resourcePath this) source w) as K.
  rewrite HR in K. cbn [snd] in K. destruct K as [KC KT].
  split; congruence.
Qed.

(** C6: on a file that is eligible for i18n inlining (and whose linking
    analysis came through), the hook returns with [shouldProcess] set
    and the i18n options attached, whatever the load of the localize
    tools does.  While the cache is empty every such file requests the
    load once more; a rejected load leaves the cache empty and attaches
    [undefined] as the plugin creators; a load that resolves fills the
    cache, and from then on no further load is requested. *)
Theorem i18n_load_failure_tolerated :
  forall env this o source w l1 w1,
    i18nEligible this (Options.i18n o) source = true ->
    run env (analyzeLinking this (Options.aot o) source
               (initialLocals (Options.rawOptions o))) w = (Ok l1, w1) ->
    exists l r w' cfg,
      run env (customOptions env this o source) w = (Ok r, w')
      /\ run env (resolveLocals this o source) w = (Ok l, w')
      /\ r = finish env (Options.rawOptions o) l
      /\ shouldProcess l = true
      /\ Custom.i18n (custom r) = Some cfg
      /\ match i18nPluginCreators (caches w) with
         | None =>
             loads LocalizeTools (trace w') = S (loads LocalizeTools (trace w))
             /\ (loadEsmModule env (trace w1) LocalizeTools = None ->
                 i18nPluginCreators (caches w') = None
                 /\ obj_get "i18nPluginCreators" cfg = JUndefined)
             /\ (forall m,
                   loadEsmModule env (trace w1) LocalizeTools = Some m ->
                   i18nPluginCreators (caches w') = Some m
                   /\ obj_get "i18nPluginCreators" cfg = JObj m)
         | Some m =>
             loads LocalizeTools (trace w') = loads LocalizeTools (trace w)
             /\ i18nPluginCreators (caches w') = Some m
             /\ obj_get "i18nPluginCreators" cfg = JObj m
         end.
Proof.
  intros env this o source w l1 w1 HE HL.
  destruct (analyzeLinking_keeps_localize _ _ _ _ _ _ _ _ HL) as [KC KT].
  destruct (analyzeI18n_run env this (Options.i18n o) source
              (analyzeEsTarget this (Options.scriptTarget o) source l1) w1)
    as [[E _] | (i18nOptions & w' & _ & _ & HI & _ & _ & HW)];
    [congruence|].
  assert (HRes : run env (resolveLocals this o source) w
                 = (Ok (analyzeOptimize this (Options.optimize o)
                          (mkLocals true
                             (Custom.set_i18n
                                (Some (obj_set "i18nPluginCreators"
                                         (creatorsValue (i18nPluginCreators (caches w')))
                                         (spread [] i18nOptions)))
                                (customOptions_
                                   (analyzeEsTarget this (Options.scriptTarget o)
                                      source l1))))),
                    w')).
  { unfold resolveLocals. rewrite run_bind, HL, run_bind, HI. reflexivity. }
  eexists. eexists. exists w'. eexists.
  split; [unfold customOptions; rewrite run_bind, HRes; reflexivity|].
  split; [exact HRes|]. split; [reflexivity|].
  split; [unfold analyzeOptimize; destruct (truthy (Options.optimize o)); reflexivity|].
  split; [unfold analyzeOptimize; destruct (truthy (Options.optimize o)); reflexivity|].
  rewrite obj_get_set_same. rewrite KC in HW.
  destruct (i18nPluginCreators (caches w)) as [m|] eqn:C.
  - subst w'. rewrite KC, KT. auto.
  - destruct HW as [HT HC]. rewrite HT, loads_app, KT, HC. cbn.
    split; [lia|]. split.
    + intros ->. auto.
    + intros m ->. auto.
Qed.

Lemma i18n_load_failure_tolerated_witness :
  exists l r w' cfg,
    run transitionEnv
        (customOptions transitionEnv (plainContext "/app/src/main.ts")
           (Options.mk (Some [("locale", JStr "fr")]) None JUndefined JUndefined [])
           "const t = $localize`hello`;")
        initialWorld = (Ok r, w')
    /\ shouldProcess l = true
    /\ Custom.i18n (custom r) = Some cfg
    /\ loads LocalizeTools (trace w') = 1
    /\ i18nPluginCreators (caches w') = None
    /\ obj_get "i18nPluginCreators" cfg = JUndefined.
Proof.
  destruct (i18n_load_failure_tolerated transitionEnv (plainContext "/app/src/main.ts")
              (Options.mk (Some [("locale", JStr "fr")]) None JUndefined JUndefined [])
              "const t = $localize`hello`;" initialWorld _ _ eq_refl eq_refl)
    as (l & r & w' & cfg & Hrun & _ & _ & Hsp & Hcfg & Hloads & Hfail & _).
  exists l, r, w', cfg.
  destruct (Hfail eq_refl) as [Hcache Hattached].
  repeat split; assumption.
Defined.

(** Four eligible files in a row while the entry point appears only at
    the third request: three loads are made, the fourth file finds the
    cache filled. *)
Example i18n_retries_until_loaded :
  let file := customOptions transitionEnv (plainContext "/app/src/main.ts")
                (Options.mk (Some [("locale", JStr "fr")]) None JUndefined JUndefined [])
                "const t = $localize`hello`;" in
  let w := snd (runAll transitionEnv [file; file; file; file] initialWorld) in
  loads LocalizeTools (trace w) = 3
  /\ i18nPluginCreators (caches w) = Some localizeTools.
Proof. vm_compute. split; reflexivity. Qed.

(* ================================================================= *)
(** ** The [config] hook *)

(** C7: with [optimize] set, [config] appends to the plugins it was
    given, in this order, the pure-toplevel plugin (only with
    [pureTopLevel]), the metadata elision, the enum adjustment with
    [loose: looseEnums] and the static-member adjustment with
    [wrapDecorators]; without [optimize] the plugins stay as given.  In
    every case the application preset, carrying the custom options and
    the diagnostic reporter, comes after all presets already there. *)
Theorem config_stage_order :
  forall options co,
    let given := match plugins options with Some ps => ps | None => [] end in
    let givenPresets := match presets options with Some ps => ps | None => [] end in
    (forall op,
       Custom.optimize co = Some op ->
       Optimize.pureTopLevel op = true ->
       plugins (config options co)
       = Some (given
               ++ [ Plain PureToplevelFunctions;
                    Plain ElideAngularMetadata;
                    WithOptions AdjustTypescriptEnums
                      [("loose", JBool (Optimize.looseEnums op))];
                    WithOptions AdjustStaticClassMembers
                      [("wrapDecorators", JBool (Optimize.wrapDecorators op))] ]))
    /\ (forall op,
          Custom.optimize co = Some op ->
          Optimize.pureTopLevel op = false ->
          plugins (config options co)
          = Some (given
                  ++ [ Plain ElideAngularMetadata;
                       WithOptions AdjustTypescriptEnums
                         [("loose", JBool (Optimize.looseEnums op))];
                       WithOptions AdjustStaticClassMembers
                         [("wrapDecorators", JBool (Optimize.wrapDecorators op))] ]))
    /\ (Custom.optimize co = None -> plugins (config options co) = Some given)
    /\ presets (config options co)
       = Some (givenPresets ++ [ApplicationPreset (mkPresetOptions co reporter)])
    /\ (forall message,
          reporter "error" message = [EmitError message]
          /\ reporter "info" message = [EmitWarning message]
          /\ reporter "warning" message = [EmitWarning message]).
Proof.
  intros options co given givenPresets. unfold config.
  split; [|split; [|split; [|split]]].
  - intros op -> Hp. unfold optimizePlugins. rewrite Hp. reflexivity.
  - intros op -> Hp. unfold optimizePlugins. rewrite Hp. reflexivity.
  - intros ->. reflexivity.
  - reflexivity.
  - intros message. repeat split.
Qed.

Lemma config_stage_order_witness :
  plugins (config (mkBabelOptions (Some [Plain (Existing (JStr "istanbul"))]) None
                                  JUndefined [])
                  (Custom.mk false false None None
                             (Some (Optimize.mk true true false))))
  = Some [ Plain (Existing (JStr "istanbul"));
           Plain PureToplevelFunctions;
           Plain ElideAngularMetadata;
           WithOptions AdjustTypescriptEnums [("loose", JBool true)];
           WithOptions AdjustStaticClassMembers [("wrapDecorators", JBool false)] ].
Proof.
  apply (proj1 (config_stage_order
                  (mkBabelOptions (Some [Plain (Existing (JStr "istanbul"))]) None
                                  JUndefined [])
                  (Custom.mk false false None None
                             (Some (Optimize.mk true true false))))
               (Optimize.mk true true false));
    reflexivity.
Defined.

(* ================================================================= *)
(** ** How often the linker modules are loaded *)

Lemma run_analyzeLinking_required env this aot source l w w0 :
  run env (requiresLinking (resourcePath this) source) w = (Ok true, w0) ->
  run env (analyzeLinking this aot source l) w
  = match linkerPluginCreator (caches w0) with
    | Some g =>
        (Ok (mkLocals true
               (Custom.set_angularLinker
                  (Some (AngularLinker.mk true (notTrue aot) (Some g)))
                  (customOptions_ l))),
         w0)
    | None =>
        match loadEsmModule env (trace w0) LinkerBabelModule with
        | Some g =>
            (Ok (mkLocals true
                   (Custom.set_angularLinker
                      (Some (AngularLinker.mk true (notTrue aot) (Some g)))
                      (customOptions_ l))),
             setCaches (mkCaches (needsLinking (caches w0)) (Some g)
                                 (i18nPluginCreators (caches w0)))
                       (log (Load LinkerBabelModule) w0))
        | None => (Err (LoadError LinkerBabelModule), log (Load LinkerBabelModule) w0)
        end
    end.
Proof.
  intros HR. unfold analyzeLinking. rewrite run_bind, run_awaitCall, HR. cbn.
  destruct (linkerPluginCreator (caches w0)) eqn:C; cbn.
  - now rewrite C.
  - destruct (loadEsmModule env (trace w0) LinkerBabelModule); reflexivity.
Qed.

(** The i18n analysis leaves the linker caches and the count of linker
    loads as they are. *)
Lemma analyzeI18n_keeps_linker env this i18n source l w :
  let w' := snd (run env (analyzeI18n this i18n source l) w) in
  needsLinking (caches w') = needsLinking (caches w)
  /\ linkerPluginCreator (caches w') = linkerPluginCreator (caches w)
  /\ loads LinkerModule (trace w') = loads LinkerModule (trace w)
  /\ loads LinkerBabelModule (trace w') = loads LinkerBabelModule (trace w).
Proof.
  destruct (analyzeI18n_run env this i18n source l w)
    as [[_ HI] | (cfg & w1 & _ & _ & HI & HN & HP & HW)]; rewrite HI; cbn [snd].
  - auto.
  - destruct (i18nPluginCreators (caches w)).
    + subst w1. auto.
    + destruct HW as [HT _]. rewrite HT, !loads_app. cbn. repeat split; auto.
Qed.

Lemma analyzeEsTarget_linker this scriptTarget source l :
  Custom.angularLinker (customOptions_ (analyzeEsTarget this scriptTarget source l))
  = Custom.angularLinker (customOptions_ l).
Proof.
  unfold analyzeEsTarget. destruct scriptTarget as [t|]; [|reflexivity].
  destruct (t <? ScriptTarget.ES2015)%Z; [reflexivity|].
  destruct ((t >=? ScriptTarget.ES2017)%Z || test re_js (resourcePath this));
    reflexivity.
Qed.

Lemma analyzeOptimize_linker this optimize l :
  Custom.angularLinker (customOptions_ (analyzeOptimize this optimize l))
  = Custom.angularLinker (customOptions_ l).
Proof. unfold analyzeOptimize. destruct (truthy optimize); reflexivity. Qed.

Lemma analyzeI18n_linker env this i18n source l w :
  exists l' w',
    run env (analyzeI18n this i18n source l) w = (Ok l', w')
    /\ Custom.angularLinker (customOptions_ l')
       = Custom.angularLinker (customOptions_ l).
Proof.
  destruct (analyzeI18n_run env this i18n source l w)
    as [[_ HI] | (cfg & w1 & _ & _ & HI & _)]; rewrite HI; eauto.
Qed.

Lemma run_analyzeLinking_not_required env this aot source l w w0 :
  run env (requiresLinking (resourcePath this) source) w = (Ok false, w0) ->
  run env (analyzeLinking this aot source l) w = (Ok l, w0).
Proof.
  intros HR. unfold analyzeLinking. now rewrite run_bind, run_awaitCall, HR.
Qed.

(** The hook fails on a rejected linker load and on nothing else: when
    both linker modules resolve it returns. *)
Lemma customOptions_returns env this o source w :
  (forall tr, loadEsmModule env tr LinkerModule <> None) ->
  (forall tr, loadEsmModule env tr LinkerBabelModule <> None) ->
  exists r w', run env (customOptions env this o source) w = (Ok r, w').
Proof.
  intros HD HC.
  assert (HR : exists required w0,
             run env (requiresLinking (resourcePath this) source) w = (Ok required, w0)).
  { destruct (test re_core_or_ts (resourcePath this)) eqn:E.
    - eexists. eexists. now apply run_requiresLinking_excluded.
    - destruct (needsLinking (caches w)) as [f|] eqn:C.
      + eexists. eexists. eapply run_requiresLinking_cached; eassumption.
      + destruct (loadEsmModule env (trace w) LinkerModule) as [f|] eqn:L.
        * eexists. eexists. eapply run_requiresLinking_loaded; eassumption.
        * now apply HD in L. }
  destruct HR as (required & w0 & HR).
  assert (HA : exists l1 w1,
             run env (analyzeLinking this (Options.aot o) source
                        (initialLocals (Options.rawOptions o))) w = (Ok l1, w1)).
  { destruct required.
    - rewrite (run_analyzeLinking_required _ _ _ _ _ _ _ HR).
      destruct (linkerPluginCreator (caches w0)); [eauto|].
      destruct (loadEsmModule env (trace w0) LinkerBabelModule) eqn:L; [eauto|].
      now apply HC in L.
    - rewrite (run_analyzeLinking_not_required _ _ _ _ _ _ _ HR). eauto. }
  destruct HA as (l1 & w1 & HA).
  destruct (analyzeI18n_linker env this (Options.i18n o) source
              (analyzeEsTarget this (Options.scriptTarget o) source l1) w1)
    as (l3 & w2 & HI & _).
  unfold customOptions, resolveLocals.
  rewrite run_bind, run_bind, HA, run_bind, HI. cbn. eauto.
Qed.

Section LinkerAvailable.

Variable env : Env.
Variable detector : NeedsLinkingFn.
Variable creator : JsFunction.

(** Both linker modules resolve, always to the same exports. *)
Hypothesis linker_resolves :
  forall tr, loadEsmModule env tr LinkerModule = Some detector.
Hypothesis linkerBabel_resolves :
  forall tr, loadEsmModule env tr LinkerBabelModule = Some creator.

Lemma requiresLinking_step path source w :
  test re_core_or_ts path = false ->
  cachesAgree detector creator w ->
  exists w0,
    run env (requiresLinking path source) w = (Ok (detector path source), w0)
    /\ needsLinking (caches w0) = Some detector
    /\ linkerPluginCreator (caches w0) = linkerPluginCreator (caches w)
    /\ loads LinkerModule (trace w0)
       = loads LinkerModule (trace w) + missing (needsLinking (caches w))
    /\ loads LinkerBabelModule (trace w0) = loads LinkerBabelModule (trace w).
Proof.
  intros E [[C | C] _].
  - eexists. split.
    + apply run_requiresLinking_loaded; [exact E | exact C | apply linker_resolves].
    + cbn [caches trace log setCaches needsLinking linkerPluginCreator].
      rewrite C, !loads_app. cbn. repeat split; lia.
  - eexists. split.
    + apply run_requiresLinking_cached; [exact E | exact C].
    + cbn [caches trace log]. rewrite C, !loads_app. cbn. repeat split; lia.
Qed.

Lemma invoke_step i w :
  needsLink detector i ->
  cachesAgree detector creator w ->
  exists w',
    linkedWith creator (fst (run env (invoke env i) w))
    /\ snd (run env (invoke env i) w) = w'
    /\ needsLinking (caches w') = Some detector
    /\ linkerPluginCreator (caches w') = Some creator
    /\ loads LinkerModule (trace w')
       = loads LinkerModule (trace w) + missing (needsLinking (caches w))
    /\ loads LinkerBabelModule (trace w')
       = loads LinkerBabelModule (trace w) + missing (linkerPluginCreator (caches w)).
Proof.
  destruct i as [[this o] source]. unfold needsLink. cbn [fst snd invoke].
  intros [E D] A.
  destruct (requiresLinking_step (resourcePath this) source w E A)
    as (w0 & HR & HN & HP & HL & HB).
  rewrite D in HR.
  pose proof (run_analyzeLinking_required env this (Options.aot o) source
                (initialLocals (Options.rawOptions o)) w w0 HR) as HA.
  rewrite linkerBabel_resolves in HA.
  set (l1 := mkLocals true
               (Custom.set_angularLinker
                  (Some (AngularLinker.mk true (notTrue (Options.aot o)) (Some creator)))
                  (customOptions_ (initialLocals (Options.rawOptions o))))) in *.
  assert (HA' : exists w1,
             run env (analyzeLinking this (Options.aot o) source
                        (initialLocals (Options.rawOptions o))) w = (Ok l1, w1)
             /\ needsLinking (caches w1) = Some detector
             /\ linkerPluginCreator (caches w1) = Some creator
             /\ loads LinkerModule (trace w1) = loads LinkerModule (trace w0)
             /\ loads LinkerBabelModule (trace w1)
                = loads LinkerBabelModule (trace w0)
                  + missing (linkerPluginCreator (caches w))).
  { rewrite HA, HP. destruct A as [_ [C | C]]; rewrite C.
    - eexists. split; [reflexivity|].
      cbn [caches trace log setCaches needsLinking linkerPluginCreator].
      rewrite !loads_app. cbn. repeat split; first [congruence | lia].
    - eexists. split; [reflexivity|]. cbn [missing].
      repeat split; first [congruence | lia]. }
  destruct HA' as (w1 & HA1 & HN1 & HP1 & HL1 & HB1).
  pose proof (analyzeI18n_keeps_linker env this (Options.i18n o) source
                (analyzeEsTarget this (Options.scriptTarget o) source l1) w1) as K.
  cbv zeta in K.
  destruct (analyzeI18n_linker env this (Options.i18n o) source
              (analyzeEsTarget this (Options.scriptTarget o) source l1) w1)
    as (l3 & w2 & HI & HAL).
  rewrite HI in K. cbn [snd] in K. destruct K as (KN & KP & KL & KB).
  unfold customOptions, resolveLocals.
  rewrite run_bind, run_bind, HA1, run_bind, HI.
  cbn [run fst snd].
  exists w2. split; [|split; [reflexivity|repeat split; congruence]].
  unfold linkedWith, finish. eexists. eexists. split; [reflexivity|].
  cbn [custom]. rewrite analyzeOptimize_linker, HAL, analyzeEsTarget_linker.
  split; reflexivity.
Qed.

(** Once both caches are filled, further files load nothing. *)
Lemma runAll_loaded invs :
  Forall (needsLink detector) invs ->
  forall w,
    needsLinking (caches w) = Some detector ->
    linkerPluginCreator (caches w) = Some creator ->
    let res := runAll env (map (invoke env) invs) w in
    Forall (linkedWith creator) (fst res)
    /\ needsLinking (caches (snd res)) = Some detector
    /\ linkerPluginCreator (caches (snd res)) = Some creator
    /\ loads LinkerModule (trace (snd res)) = loads LinkerModule (trace w)
    /\ loads LinkerBabelModule (trace (snd res)) = loads LinkerBabelModule (trace w).
Proof.
  induction 1 as [|i invs Hi _ IH]; intros w HN HP; cbn.
  - auto.
  - destruct (invoke_step i w Hi) as (w1 & HLk & Hw1 & HN1 & HP1 & HL1 & HB1).
    { split; right; assumption. }
    destruct (run env (invoke env i) w) as [out w1'] eqn:R. cbn [fst snd] in *.
    subst w1'.
    specialize (IH w1 HN1 HP1). cbv zeta in IH.
    destruct (runAll env (map (invoke env) invs) w1) as [outs w2]. cbn [fst snd] in *.
    destruct IH as (IHF & IHN & IHP & IHL & IHB).
    rewrite HN in HL1. rewrite HP in HB1. cbn in HL1, HB1.
    repeat split; auto; lia.
Qed.

End LinkerAvailable.

(** C8, as the code has it: when the files are resolved one after the
    other, each call finished before the next begins, and both linker
    modules resolve, then over any number of files that all need linking
    the detector module and the plugin-factory module are each loaded
    exactly once, the caches end up holding their exports, and every
    call returns linker options that carry the same factory. *)
Theorem sequential_resolution_loads_once :
  forall env detector creator inv invs,
    (forall tr, loadEsmModule env tr LinkerModule = Some detector) ->
    (forall tr, loadEsmModule env tr LinkerBabelModule = Some creator) ->
    Forall (needsLink detector) (inv :: invs) ->
    let res := runAll env (map (invoke env) (inv :: invs)) initialWorld in
    loads LinkerModule (trace (snd res)) = 1
    /\ loads LinkerBabelModule (trace (snd res)) = 1
    /\ needsLinking (caches (snd res)) = Some detector
    /\ linkerPluginCreator (caches (snd res)) = Some creator
    /\ Forall (linkedWith creator) (fst res).
Proof.
  intros env detector creator inv invs HD HC HF. inversion HF as [|? ? Hi Hrest]; subst.
  cbn [map runAll].
  destruct (invoke_step env detector creator HD HC inv initialWorld Hi)
    as (w1 & HLk & Hw1 & HN1 & HP1 & HL1 & HB1).
  { split; left; reflexivity. }
  destruct (run env (invoke env inv) initialWorld) as [out w1'] eqn:R.
  cbn [fst snd] in *. subst w1'.
  pose proof (runAll_loaded env detector creator HD HC invs Hrest w1 HN1 HP1) as HA.
  cbv zeta in HA.
  destruct (runAll env (map (invoke env) invs) w1) as [outs w2].
  cbn [fst snd] in *.
  destruct HA as (HF2 & HN2 & HP2 & HL2 & HB2).
  cbn in HL1, HB1.
  repeat split; auto; lia.
Qed.

Lemma sequential_resolution_loads_once_witness :
  let res := runAll healthyEnv
               (map (invoke healthyEnv) [libraryFile 0; libraryFile 1; libraryFile 2])
               initialWorld in
  loads LinkerModule (trace (snd res)) = 1
  /\ loads LinkerBabelModule (trace (snd res)) = 1
  /\ needsLinking (caches (snd res)) = Some declDetector
  /\ linkerPluginCreator (caches (snd res)) = Some createEs2015LinkerPlugin
  /\ Forall (linkedWith createEs2015LinkerPlugin) (fst res).
Proof.
  apply (sequential_resolution_loads_once healthyEnv declDetector
           createEs2015LinkerPlugin (libraryFile 0) [libraryFile 1; libraryFile 2]).
  - intros tr. reflexivity.
  - intros tr. reflexivity.
  - repeat constructor.
Defined.

(** C8 as stated fails: a hundred files that all need linking, resolved
    in overlap (every call started before any load has settled, then
    resumed in turn), request each of the two modules a hundred times;
    the cache is tested before the [await] and filled after it. *)
Lemma concurrent_resolution_loads_per_caller :
  let files := map libraryFile (seq 0 100) in
  let pool := map (fun i => Ready (invoke healthyEnv i)) files in
  let res := exec healthyEnv (roundRobin 100 4) pool initialWorld in
  forallb (needsLinkb declDetector) files = true
  /\ forallb (isLinkedWith createEs2015LinkerPlugin) (fst res) = true
  /\ loads LinkerModule (trace (snd res)) = 100
  /\ loads LinkerBabelModule (trace (snd res)) = 100
  /\ ~ (loads LinkerModule (trace (snd res)) = 1
        /\ loads LinkerBabelModule (trace (snd res)) = 1).
Proof.
  vm_compute. repeat split; try reflexivity.
  intros [H _]. discriminate H.
Qed.

(** Two overlapping calls are enough. *)
Example two_overlapping_calls :
  let pool := [Ready (invoke healthyEnv (libraryFile 0));
               Ready (invoke healthyEnv (libraryFile 1))] in
  filter (isLoad LinkerModule)
         (trace (snd (exec healthyEnv [0; 1; 0; 1; 0; 1; 0; 1] pool initialWorld)))
  = [Load LinkerModule; Load LinkerModule].
Proof. reflexivity. Qed.

(* ================================================================= *)
(** ** Invocations in overlap *)

Lemma always_bind {A B : Type} (Q : B -> Prop) (p : Prog A) (f : A -> Prog B) :
  always (fun a => always Q (f a)) p -> always Q (bind p f).
Proof. induction p; cbn; auto. Qed.

Lemma always_run {A : Type} (Q : A -> Prop) env (p : Prog A) :
  always Q p -> forall w a w', run env p w = (Ok a, w') -> Q a.
Proof.
  induction p as [a0|e|k IH|c k IH|f path source k IH|s k IH|k IH]; cbn;
    intros HQ w a w' R.
  - inversion R; subst. exact HQ.
  - discriminate.
  - eapply IH; [apply HQ | exact R].
  - eapply IH; [exact HQ | exact R].
  - eapply IH; [exact HQ | exact R].
  - eapply IH; [apply HQ | exact R].
  - eapply IH; [exact HQ | exact R].
Qed.

Lemma always_advance {A : Type} (Q : A -> Prop) env (p : Prog A) :
  always Q p -> forall w, taskMeets Q (fst (advance env p w)).
Proof.
  induction p as [a0|e|k IH|c k IH|f path source k IH|s k IH|k IH]; cbn;
    intros HQ w.
  - exact HQ.
  - exact I.
  - apply IH, HQ.
  - apply IH, HQ.
  - apply IH, HQ.
  - apply HQ.
  - exact HQ.
Qed.

Lemma always_stepTask {A : Type} (Qs : list (A -> Prop)) env (pool : list (Task A)) :
  Forall2 taskMeets Qs pool ->
  forall i w, Forall2 taskMeets Qs (fst (stepTask env i pool w)).
Proof.
  induction 1 as [|Q t Qs pool Ht Hpool IH]; intros i w.
  - destruct i; constructor.
  - destruct i as [|j]; destruct t as [p|o]; cbn [stepTask].
    + pose proof (always_advance Q env p Ht w) as Hadv.
      destruct (advance env p w) as [t' w']. constructor; assumption.
    + constructor; assumption.
    + specialize (IH j w). destruct (stepTask env j pool w) as [rest' w'].
      constructor; assumption.
    + specialize (IH j w). destruct (stepTask env j pool w) as [rest' w'].
      constructor; assumption.
Qed.

Lemma always_exec {A : Type} (Qs : list (A -> Prop)) env (schedule : list nat) :
  forall (pool : list (Task A)) w,
    Forall2 taskMeets Qs pool ->
    Forall2 taskMeets Qs (fst (exec env schedule pool w)).
Proof.
  induction schedule as [|i schedule IH]; intros pool w H; cbn.
  - exact H.
  - pose proof (always_stepTask Qs env pool H i w) as Hs.
    destruct (stepTask env i pool w) as [pool' w']. cbn in Hs.
    apply IH, Hs.
Qed.

Lemma analyzeLinking_always this aot source l :
  always (fun l1 =>
            l1 = l
            \/ exists al,
                 l1 = mkLocals true (Custom.set_angularLinker (Some al) (customOptions_ l)))
         (analyzeLinking this aot source l).
Proof.
  unfold analyzeLinking, awaitCall, requiresLinking.
  destruct (test re_core_or_ts (resourcePath this)); cbn; [auto|].
  intros c. destruct (needsLinking c) as [f|]; cbn.
  - intros c'. destruct (needsLinking c') as [f'|]; cbn; [|exact I].
    destruct (f' (resourcePath this) source); cbn; [|auto].
    intros c2. destruct (linkerPluginCreator c2); cbn; [eauto|].
    intros r. destruct r; cbn; eauto.
  - intros r. destruct r as [f|]; cbn; [|exact I].
    intros c0 c'. destruct (needsLinking c') as [f'|]; cbn; [|exact I].
    destruct (f' (resourcePath this) source); cbn; [|auto].
    intros c2. destruct (linkerPluginCreator c2); cbn; [eauto|].
    intros r. destruct r; cbn; eauto.
Qed.

Lemma analyzeI18n_always this i18n source l :
  always (fun l3 =>
            (i18nEligible this i18n source = false /\ l3 = l)
            \/ (i18nEligible this i18n source = true
                /\ exists cfg,
                     l3 = mkLocals true (Custom.set_i18n (Some cfg) (customOptions_ l))))
         (analyzeI18n this i18n source l).
Proof.
  unfold analyzeI18n, i18nEligible. destruct i18n as [i18nOptions|]; cbn; [|auto].
  destruct (negb (test re_compiler_or_localize (resourcePath this))
            && includes source "$localize"); cbn; [|auto].
  intros c. destruct (i18nPluginCreators c); cbn.
  - intros c'. right. eauto.
  - intros r. destruct r; cbn; intros; right; eauto.
Qed.

Lemma always_weaken {A : Type} (Q Q' : A -> Prop) (p : Prog A) :
  (forall a, Q a -> Q' a) -> always Q p -> always Q' p.
Proof. intros HQ. induction p; cbn; auto. Qed.

(** Whatever else is in flight, a call that returns has its target
    flags, its i18n and optimize options and its bypass as the arguments
    alone decide them. *)
Lemma invoke_always env (i : Invocation) :
  always (resolvedFrom i) (invoke env i).
Proof.
  destruct i as [[this o] source]. unfold invoke, customOptions, resolveLocals.
  apply always_bind, always_bind.
  eapply always_weaken; [|apply analyzeLinking_always].
  intros l1 H1. cbn beta. apply always_bind.
  eapply always_weaken; [|apply analyzeI18n_always].
  intros l3 H3. cbn [always].
  unfold resolvedFrom, finish. cbn [custom loader].
  destruct H1 as [-> | (al & ->)];
    destruct H3 as [[E ->] | (E & cfg & ->)]; rewrite E;
    unfold analyzeOptimize, analyzeEsTarget;
    destruct (Options.scriptTarget o) as [esTarget|];
    destruct (truthy (Options.optimize o));
    try destruct (esTarget <? ScriptTarget.ES2015)%Z;
    try destruct ((esTarget >=? ScriptTarget.ES2017)%Z || test re_js (resourcePath this));
    cbn;
    repeat split;
    try discriminate;
    try (destruct (hasPlugins (Options.rawOptions o)); cbn;
         try discriminate;
         try destruct (negb (test re_esm2015 (resourcePath this))
                       && includes source "async"); cbn;
         try discriminate;
         intros _; apply obj_get_set_same).
Qed.

(** Any number of calls, resumed in any order: every call that has
    returned satisfies the same. *)
Lemma interleaved_results env (invs : list Invocation) (schedule : list nat) (w : World) :
  Forall2 (fun i t => forall r, t = Done (Ok r) -> resolvedFrom i r)
          invs
          (fst (exec env schedule (map (fun i => Ready (invoke env i)) invs) w)).
Proof.
  assert (H : Forall2 taskMeets (map resolvedFrom invs)
                (fst (exec env schedule (map (fun i => Ready (invoke env i)) invs) w))).
  { apply always_exec. induction invs as [|i invs IH]; cbn; constructor.
    - apply invoke_always.
    - exact IH. }
  remember (fst (exec env schedule (map (fun i => Ready (invoke env i)) invs) w)) as pool.
  clear Heqpool. revert pool H.
  induction invs as [|i invs IH]; intros pool H; inversion H; subst; constructor.
  - intros r ->. assumption.
  - apply IH. assumption.
Qed.

(* ================================================================= *)
(** ** The startup script: which Node.js versions start the CLI *)

Lemma splitOn_nonempty separator s : splitOn separator s <> [].
Proof.
  destruct s as [|c s]; cbn; [discriminate|].
  destruct (Ascii.eqb c separator); [discriminate|].
  destruct (splitOn separator s); discriminate.
Qed.

Lemma splitOn_whole separator s :
  occurs separator s = false -> splitOn separator s = [s].
Proof.
  induction s as [|c s IH]; cbn; [reflexivity|].
  intros H. apply orb_false_iff in H. destruct H as [Hc Hs].
  rewrite Hc, (IH Hs). reflexivity.
Qed.

Lemma splitOn_first separator a b :
  occurs separator a = false ->
  splitOn separator (a ++ String separator b)%string = a :: splitOn separator b.
Proof.
  induction a as [|c a IH]; cbn.
  - intros _. now rewrite Ascii.eqb_refl.
  - intros H. apply orb_false_iff in H. destruct H as [Hc Ha].
    rewrite Hc, (IH Ha). reflexivity.
Qed.

(** Splitting undoes joining when no part holds the separator. *)
Lemma splitOn_join separator part parts :
  Forall (fun p => occurs separator p = false) (part :: parts) ->
  splitOn separator (join (String separator "") (part :: parts)) = part :: parts.
Proof.
  revert part. induction parts as [|q parts IH]; intros part H.
  - cbn. apply splitOn_whole. now inversion H.
  - inversion H as [|? ? Hp Hrest]; subst.
    change (join (String separator "") (part :: q :: parts))
      with (part ++ String separator "" ++ join (String separator "") (q :: parts))%string.
    cbn [append]. rewrite splitOn_first by exact Hp. now rewrite IH.
Qed.

Section StartupFacts.

Variable Number : string -> JsNumber.

(** A version string with at least a major and a minor part, both
    numbers: the effects of the test, by cases. *)
Lemma versionCheck_cases major minor rest processVersion M m :
  Forall (fun p => occurs "." p = false) (major :: minor :: rest) ->
  Number major = Some M ->
  Number minor = Some m ->
  versionCheck Number (join "." (major :: minor :: rest)) processVersion
  = if ((Z.rem M 2 =? 1) && (14 <? M))%Z
    then [ConsoleWarn (oddVersionWarning processVersion); RequireBootstrap]
    else if ((M <? 12) || (M =? 13) || ((M =? 12) && (m <? 20))
             || ((M =? 14) && (m <? 15)))%Z
         then [ConsoleError (unsupportedVersionError processVersion); SetExitCode 3]
         else [RequireBootstrap].
Proof.
  intros Hparts HM Hm. unfold versionCheck.
  rewrite (splitOn_join "." major (minor :: rest) Hparts).
  cbn [map element nth_error]. rewrite HM, Hm. reflexivity.
Qed.

(** X1: for a version [major.minor...] with numeric major and minor the
    CLI is started exactly when the version is 12.20 or later within
    12, 14.15 or later within 14, or 15 and above; in every other case
    nothing is started and the exit code is set to 3.  A warning is
    printed exactly for the odd majors from 15 on. *)
Theorem versionCheck_supported :
  forall major minor rest processVersion M m,
    Forall (fun p => occurs "." p = false) (major :: minor :: rest) ->
    Number major = Some M ->
    Number minor = Some m ->
    let effects := versionCheck Number (join "." (major :: minor :: rest)) processVersion in
    let supported := ((M = 12 /\ 20 <= m) \/ (M = 14 /\ 15 <= m) \/ 15 <= M)%Z in
    (In RequireBootstrap effects <-> supported)
    /\ (~ supported ->
        effects = [ConsoleError (unsupportedVersionError processVersion); SetExitCode 3])
    /\ (In (ConsoleWarn (oddVersionWarning processVersion)) effects <->
        (15 <= M)%Z /\ Z.odd M = true)
    /\ (forall text, In (ConsoleError text) effects -> ~ In RequireBootstrap effects).
Proof.
  intros major minor rest processVersion M m Hparts HM Hm effects supported.
  subst effects supported.
  rewrite (versionCheck_cases major minor rest processVersion M m Hparts HM Hm).
  assert (Hodd : (Z.rem M 2 =? 1)%Z = true -> Z.odd M = true).
  { rewrite Z.eqb_eq, Zrem_odd. destruct (Z.odd M); [reflexivity | discriminate]. }
  assert (Hodd' : (14 < M)%Z -> Z.odd M = true -> (Z.rem M 2 =? 1)%Z = true).
  { intros Hpos H. rewrite Zrem_odd, H, Z.sgn_pos by lia. reflexivity. }
  assert (Hw' : ((Z.rem M 2 =? 1) && (14 <? M))%Z = false ->
                Z.odd M = true -> (M <= 14)%Z).
  { intros Hw Ho. apply andb_false_iff in Hw. destruct Hw as [Hw | Hw].
    - destruct (Z.lt_ge_cases 14 M) as [Hlt | Hge]; [|exact Hge].
      rewrite (Hodd' Hlt Ho) in Hw. discriminate.
    - now apply Z.ltb_ge in Hw. }
  destruct ((Z.rem M 2 =? 1) && (14 <? M))%Z eqn:Hw.
  - apply andb_true_iff in Hw. destruct Hw as [Hr Hgt].
    apply Z.ltb_lt in Hgt. apply Hodd in Hr. clear Hodd Hodd' Hw'.
    cbn [In]. split; [|split; [|split]].
    + split; [intros _; lia | intros _; right; left; reflexivity].
    + intros H. exfalso. apply H. lia.
    + split; [intros _; split; [lia | exact Hr] | intros _; left; reflexivity].
    + intros text [H | [H | []]]; discriminate.
  - specialize (Hw' eq_refl). clear Hodd Hodd'.
    destruct ((M <? 12) || (M =? 13) || ((M =? 12) && (m <? 20))
              || ((M =? 14) && (m <? 15)))%Z eqn:Hbad.
    + rewrite !orb_true_iff, !andb_true_iff, !Z.ltb_lt, !Z.eqb_eq in Hbad.
      cbn [In]. split; [|split; [|split]].
      * split; [intros [H | [H | []]]; discriminate | intros H; exfalso; lia].
      * intros _. reflexivity.
      * split; [intros [H | [H | []]]; discriminate|].
        intros [Hge Ho]. specialize (Hw' Ho). lia.
      * intros text _ [H | [H | []]]; discriminate.
    + rewrite !orb_false_iff, !andb_false_iff, !Z.ltb_ge, !Z.eqb_neq in Hbad.
      cbn [In]. split; [|split; [|split]].
      * split; [intros _; lia | intros _; left; reflexivity].
      * intros H. exfalso. apply H. lia.
      * split; [intros [H | []]; discriminate|].
        intros [Hge Ho]. specialize (Hw' Ho). lia.
      * intros text [H | []]; discriminate.
Qed.

(** X2: the test lets the process start, without any message, when the
    major part of the version is not a number, and also when the major
    is 12 or 14 and the minor part is missing or not a number: every
    comparison with [NaN] or [undefined] is false. *)
Theorem versionCheck_unparsed :
  forall processVersion,
    (forall major rest,
       Forall (fun p => occurs "." p = false) (major :: rest) ->
       Number major = None ->
       versionCheck Number (join "." (major :: rest)) processVersion = [RequireBootstrap])
    /\ (forall major M,
          occurs "." major = false ->
          Number major = Some M ->
          (M = 12 \/ M = 14)%Z ->
          versionCheck Number major processVersion = [RequireBootstrap])
    /\ (forall major minor rest M,
          Forall (fun p => occurs "." p = false) (major :: minor :: rest) ->
          Number major = Some M ->
          Number minor = None ->
          (M = 12 \/ M = 14)%Z ->
          versionCheck Number (join "." (major :: minor :: rest)) processVersion
          = [RequireBootstrap]).
Proof.
  intros processVersion. split; [|split].
  - intros major rest Hparts HM. unfold versionCheck.
    rewrite (splitOn_join "." major rest Hparts).
    cbn [map element nth_error]. rewrite HM. reflexivity.
  - intros major M Hdot HM HM12. unfold versionCheck.
    rewrite (splitOn_whole "." major Hdot).
    cbn [map element nth_error]. rewrite HM.
    destruct HM12 as [-> | ->]; reflexivity.
  - intros major minor rest M Hparts HM Hm HM12. unfold versionCheck.
    rewrite (splitOn_join "." major (minor :: rest) Hparts).
    cbn [map element nth_error]. rewrite HM, Hm.
    destruct HM12 as [-> | ->]; reflexivity.
Qed.

(** X3: within one major, a version that starts the CLI keeps doing so
    for every later minor. *)
Theorem versionCheck_later_minor :
  forall major minor1 rest1 minor2 rest2 processVersion M m1 m2,
    Forall (fun p => occurs "." p = false) (major :: minor1 :: rest1) ->
    Forall (fun p => occurs "." p = false) (major :: minor2 :: rest2) ->
    Number major = Some M ->
    Number minor1 = Some m1 ->
    Number minor2 = Some m2 ->
    (m1 <= m2)%Z ->
    In RequireBootstrap
       (versionCheck Number (join "." (major :: minor1 :: rest1)) processVersion) ->
    In RequireBootstrap
       (versionCheck Number (join "." (major :: minor2 :: rest2)) processVersion).
Proof.
  intros major minor1 rest1 minor2 rest2 processVersion M m1 m2
         H1 H2 HM Hm1 Hm2 Hle.
  rewrite (versionCheck_cases major minor1 rest1 processVersion M m1 H1 HM Hm1).
  rewrite (versionCheck_cases major minor2 rest2 processVersion M m2 H2 HM Hm2).
  destruct ((Z.rem M 2 =? 1) && (14 <? M))%Z; [auto|].
  destruct ((M <? 12) || (M =? 13) || ((M =? 12) && (m1 <? 20))
            || ((M =? 14) && (m1 <? 15)))%Z eqn:Hbad1.
  - intros [H | [H | []]]; discriminate.
  - intros _.
    destruct ((M <? 12) || (M =? 13) || ((M =? 12) && (m2 <? 20))
              || ((M =? 14) && (m2 <? 15)))%Z eqn:Hbad2; [|left; reflexivity].
    exfalso.
    rewrite !orb_false_iff, !andb_false_iff, !Z.ltb_ge, !Z.eqb_neq in Hbad1.
    rewrite !orb_true_iff, !andb_true_iff, !Z.ltb_lt, !Z.eqb_eq in Hbad2.
    lia.
Qed.

End StartupFacts.

Lemma versionCheck_supported_witness :
  In RequireBootstrap (versionCheck decimalNumber "16.13.0" "v16.13.0")
  /\ versionCheck decimalNumber "14.14.0" "v14.14.0"
     = [ConsoleError (unsupportedVersionError "v14.14.0"); SetExitCode 3]
  /\ In (ConsoleWarn (oddVersionWarning "v17.1.0"))
        (versionCheck decimalNumber "17.1.0" "v17.1.0").
Proof.
  split; [|split].
  - apply (proj1 (versionCheck_supported decimalNumber "16" "13" ["0"] "v16.13.0"
                    16%Z 13%Z ltac:(repeat constructor) eq_refl eq_refl)).
    right. right. lia.
  - apply (proj1 (proj2 (versionCheck_supported decimalNumber "14" "14" ["0"] "v14.14.0"
                           14%Z 14%Z ltac:(repeat constructor) eq_refl eq_refl))).
    lia.
  - apply (proj1 (proj2 (proj2 (versionCheck_supported decimalNumber "17" "1" ["0"]
                                  "v17.1.0" 17%Z 1%Z ltac:(repeat constructor)
                                  eq_refl eq_refl)))).
    split; [lia | reflexivity].
Defined.

Lemma versionCheck_unparsed_witness :
  versionCheck decimalNumber "nightly.2021.10" "vnightly" = [RequireBootstrap]
  /\ versionCheck decimalNumber "12" "v12" = [RequireBootstrap]
  /\ versionCheck decimalNumber "14.x.0" "v14.x.0" = [RequireBootstrap].
Proof.
  split; [|split].
  - apply (proj1 (versionCheck_unparsed decimalNumber "vnightly") "nightly" ["2021"; "10"]).
    + repeat constructor.
    + reflexivity.
  - apply (proj1 (proj2 (versionCheck_unparsed decimalNumber "v12")) "12" 12%Z).
    + reflexivity.
    + reflexivity.
    + left. reflexivity.
  - apply (proj2 (proj2 (versionCheck_unparsed decimalNumber "v14.x.0")) "14" "x" ["0"] 14%Z).
    + repeat constructor.
    + reflexivity.
    + reflexivity.
    + right. reflexivity.
Defined.

Lemma versionCheck_later_minor_witness :
  In RequireBootstrap (versionCheck decimalNumber "12.22.7" "v12.22.7").
Proof.
  apply (versionCheck_later_minor decimalNumber "12" "20" ["0"] "22" ["7"] "v12.22.7"
           12%Z 20%Z 22%Z).
  - repeat constructor.
  - repeat constructor.
  - reflexivity.
  - reflexivity.
  - reflexivity.
  - lia.
  - left. reflexivity.
Defined.

Lemma join_holds_each (d a : string) (l : list string) :
  In a l -> exists pre post, join d l = (pre ++ a ++ post)%string.
Proof.
  induction l as [|x l IH]; intros Hin; [destruct Hin|].
  destruct l as [|y l].
  - destruct Hin as [-> | []]. exists "", "". cbn. now rewrite append_nil_r.
  - change (join d (x :: y :: l)) with (x ++ d ++ join d (y :: l))%string.
    destruct Hin as [-> | Hin].
    + exists "", (d ++ join d (y :: l))%string. reflexivity.
    + destruct (IH Hin) as (pre & post & ->).
      exists (x ++ d ++ pre)%string, post. now rewrite !append_assoc.
Qed.

(** X4: the process title begins with [ng], whichever branch sets it,
    and when the first assignment goes through it shows every argument
    given after the script path. *)
Theorem processTitle_shows_arguments :
  forall argv,
    (forall assignable, startsWith (processTitle assignable argv) "ng" = true)
    /\ (forall a, In a (skipn 2 argv) -> includes (processTitle true argv) a = true)
    /\ (List.length argv <= 2 -> processTitle true argv = "ng ").
Proof.
  intros argv. split; [|split].
  - intros [|]; reflexivity.
  - intros a Hin. apply includes_iff. unfold processTitle.
    destruct (join_holds_each " " a (skipn 2 argv) Hin) as (pre & post & ->).
    exists ("ng " ++ pre)%string, post. now rewrite !append_assoc.
  - intros Hlen. unfold processTitle.
    destruct argv as [|a [|b [|c argv]]]; cbn in *; try reflexivity. lia.
Qed.

Lemma processTitle_shows_arguments_witness :
  includes (processTitle true ["node"; "/usr/bin/ng"; "serve"; "--open"]) "--open" = true
  /\ processTitle true ["node"; "/usr/bin/ng"] = "ng ".
Proof.
  split.
  - apply (proj1 (proj2 (processTitle_shows_arguments
                           ["node"; "/usr/bin/ng"; "serve"; "--open"]))).
    right. left. reflexivity.
  - apply (proj2 (proj2 (processTitle_shows_arguments ["node"; "/usr/bin/ng"]))).
    cbn. lia.
Defined.

(* ================================================================= *)
(** ** What a call does to the caches and to the trace *)

Ltac frame_leaf := first [assumption | reflexivity | congruence | lia].

Ltac solve_frame :=
  unfold cacheStep in *;
  repeat match goal with
         | H : (_ /\ _) \/ (_ /\ _) |- _ => destruct H as [[? ?] | [? ?]]
         end;
  repeat split;
  first [ frame_leaf
        | left; split; frame_leaf
        | right; split; frame_leaf ].

Lemma requiresLinking_effect env path source w :
  let w0 := snd (run env (requiresLinking path source) w) in
  cacheStep (needsLinking (caches w)) (needsLinking (caches w0))
            (loads LinkerModule (trace w)) (loads LinkerModule (trace w0))
  /\ linkerPluginCreator (caches w0) = linkerPluginCreator (caches w)
  /\ i18nPluginCreators (caches w0) = i18nPluginCreators (caches w)
  /\ loads LinkerBabelModule (trace w0) = loads LinkerBabelModule (trace w)
  /\ loads LocalizeTools (trace w0) = loads LocalizeTools (trace w)
  /\ detections (trace w) <= detections (trace w0) <= S (detections (trace w)).
Proof.
  destruct (test re_core_or_ts path) eqn:E.
  - rewrite run_requiresLinking_excluded by exact E. cbn [snd]. solve_frame.
  - destruct (needsLinking (caches w)) as [f|] eqn:C.
    + rewrite (run_requiresLinking_cached _ _ _ _ f) by assumption.
      cbn [snd log caches trace]. rewrite !loads_app, detections_app. cbn.
      solve_frame.
    + destruct (loadEsmModule env (trace w) LinkerModule) as [f|] eqn:L.
      * rewrite (run_requiresLinking_loaded _ _ _ _ f) by assumption.
        cbn [snd log caches trace setCaches needsLinking linkerPluginCreator
                 i18nPluginCreators].
        rewrite !loads_app, !detections_app. cbn. solve_frame.
      * rewrite run_requiresLinking_rejected by assumption.
        cbn [snd log caches trace]. rewrite !loads_app, detections_app. cbn.
        solve_frame.
Qed.

Lemma analyzeLinking_effect env this aot source l w :
  let w1 := snd (run env (analyzeLinking this aot source l) w) in
  cacheStep (needsLinking (caches w)) (needsLinking (caches w1))
            (loads LinkerModule (trace w)) (loads LinkerModule (trace w1))
  /\ cacheStep (linkerPluginCreator (caches w)) (linkerPluginCreator (caches w1))
               (loads LinkerBabelModule (trace w)) (loads LinkerBabelModule (trace w1))
  /\ i18nPluginCreators (caches w1) = i18nPluginCreators (caches w)
  /\ loads LocalizeTools (trace w1) = loads LocalizeTools (trace w)
  /\ detections (trace w) <= detections (trace w1) <= S (detections (trace w)).
Proof.
  pose proof (requiresLinking_effect env (resourcePath this) source w) as R.
  cbv zeta in R.
  destruct (run env (requiresLinking (resourcePath this) source) w)
    as [[required|e] w0] eqn:HR; cbn [snd] in R;
    destruct R as (RN & RP & RI & RB & RT & RD).
  - destruct required.
    + rewrite (run_analyzeLinking_required _ _ _ _ _ _ _ HR).
      destruct (linkerPluginCreator (caches w0)) as [g|] eqn:C.
      * cbn [snd]. solve_frame.
      * destruct (loadEsmModule env (trace w0) LinkerBabelModule) as [g|];
          cbn [snd log caches trace setCaches needsLinking linkerPluginCreator
                   i18nPluginCreators];
          rewrite !loads_app, detections_app; cbn; solve_frame.
    + rewrite (run_analyzeLinking_not_required _ _ _ _ _ _ _ HR).
      cbn [snd]. solve_frame.
  - unfold analyzeLinking. rewrite run_bind, run_awaitCall, HR.
    cbn [snd]. solve_frame.
Qed.

Lemma analyzeI18n_effect env this i18n source l w :
  let w2 := snd (run env (analyzeI18n this i18n source l) w) in
  needsLinking (caches w2) = needsLinking (caches w)
  /\ linkerPluginCreator (caches w2) = linkerPluginCreator (caches w)
  /\ loads LinkerModule (trace w2) = loads LinkerModule (trace w)
  /\ loads LinkerBabelModule (trace w2) = loads LinkerBabelModule (trace w)
  /\ cacheStep (i18nPluginCreators (caches w)) (i18nPluginCreators (caches w2))
               (loads LocalizeTools (trace w)) (loads LocalizeTools (trace w2))
  /\ detections (trace w2) = detections (trace w).
Proof.
  destruct (analyzeI18n_keeps_linker env this i18n source l w) as (KN & KP & KL & KB).
  cbv zeta. repeat (split; [assumption|]).
  destruct (analyzeI18n_run env this i18n source l w)
    as [[_ HI] | (cfg & w1 & _ & _ & HI & _ & _ & HW)]; rewrite HI; cbn [snd].
  - solve_frame.
  - destruct (i18nPluginCreators (caches w)) eqn:C.
    + subst w1. solve_frame.
    + destruct HW as [HT _]. rewrite HT, loads_app, detections_app. cbn.
      solve_frame.
Qed.

(** The world after the hook, whatever its outcome. *)
Lemma customOptions_effect env this o source w :
  let w' := snd (run env (customOptions env this o source) w) in
  cacheStep (needsLinking (caches w)) (needsLinking (caches w'))
            (loads LinkerModule (trace w)) (loads LinkerModule (trace w'))
  /\ cacheStep (linkerPluginCreator (caches w)) (linkerPluginCreator (caches w'))
               (loads LinkerBabelModule (trace w)) (loads LinkerBabelModule (trace w'))
  /\ cacheStep (i18nPluginCreators (caches w)) (i18nPluginCreators (caches w'))
               (loads LocalizeTools (trace w)) (loads LocalizeTools (trace w'))
  /\ detections (trace w) <= detections (trace w') <= S (detections (trace w)).
Proof.
  pose proof (analyzeLinking_effect env this (Options.aot o) source
                (initialLocals (Options.rawOptions o)) w) as A.
  cbv zeta in A. unfold customOptions, resolveLocals. rewrite !run_bind.
  destruct (run env (analyzeLinking this (Options.aot o) source
                       (initialLocals (Options.rawOptions o))) w)
    as [[l1|e] w1]; cbn [snd] in A; destruct A as (AN & AP & AI & AT & AD).
  - pose proof (analyzeI18n_effect env this (Options.i18n o) source
                  (analyzeEsTarget this (Options.scriptTarget o) source l1) w1) as B.
    cbv zeta in B. rewrite run_bind.
    destruct (run env (analyzeI18n this (Options.i18n o) source
                         (analyzeEsTarget this (Options.scriptTarget o) source l1)) w1)
      as [[l3|e] w2]; cbn [snd run] in *;
      destruct B as (BN & BP & BL & BB & BI & BD);
      rewrite BN, BP, BL, BB, BD, <- AI, <- AT; auto.
  - cbn [snd]. rewrite <- AI, <- AT. solve_frame.
Qed.



(** X6: one call of the hook asks for each of the three modules at most
    once and calls the detector at most once; a module whose cache is
    filled is not asked for at all. *)
Theorem cached_module_not_reloaded :
  forall env this o source w,
    let w' := snd (run env (customOptions env this o source) w) in
    (forall s, loads s (trace w) <= loads s (trace w') <= S (loads s (trace w)))
    /\ detections (trace w) <= detections (trace w') <= S (detections (trace w))
    /\ (needsLinking (caches w) <> None ->
        loads LinkerModule (trace w') = loads LinkerModule (trace w))
    /\ (linkerPluginCreator (caches w) <> None ->
        loads LinkerBabelModule (trace w') = loads LinkerBabelModule (trace w))
    /\ (i18nPluginCreators (caches w) <> None ->
        loads LocalizeTools (trace w') = loads LocalizeTools (trace w)).
Proof.
  intros env this o source w.
  destruct (customOptions_effect env this o source w) as (HN & HP & HI & HD).
  cbv zeta. unfold cacheStep in *. split; [|split; [exact HD|]].
  - intros [| |].
    + destruct HN as [[_ ->] | [_ ->]]; lia.
    + destruct HP as [[_ ->] | [_ ->]]; lia.
    + destruct HI as [[_ ->] | [_ ->]]; lia.
  - repeat split; intros Hc.
    + destruct HN as [[_ ->] | [H _]]; [reflexivity | contradiction].
    + destruct HP as [[_ ->] | [H _]]; [reflexivity | contradiction].
    + destruct HI as [[_ ->] | [H _]]; [reflexivity | contradiction].
Qed.

Lemma cached_module_not_reloaded_witness :
  loads LinkerModule
        (trace (snd (run healthyEnv
                         (customOptions healthyEnv (plainContext "/lib/a.mjs") noOptions
                                        "ngDeclareComponent")
                         (mkWorld (mkCaches (Some declDetector) None None)
                                  [Load LinkerModule]))))
  = 1.
Proof.
  apply (proj1 (proj2 (proj2 (cached_module_not_reloaded healthyEnv
                                (plainContext "/lib/a.mjs") noOptions
                                "ngDeclareComponent"
                                (mkWorld (mkCaches (Some declDetector) None None)
                                         [Load LinkerModule]))))).
  discriminate.
Defined.

(* ================================================================= *)
(** ** When the hook throws, and what it attaches when it links *)

Lemma customOptions_err env this o source w e :
  fst (run env (customOptions env this o source) w) = Err e ->
  run env (analyzeLinking this (Options.aot o) source
             (initialLocals (Options.rawOptions o))) w
  = (Err e, snd (run env (customOptions env this o source) w)).
Proof.
  unfold customOptions, resolveLocals. rewrite !run_bind.
  destruct (run env (analyzeLinking this (Options.aot o) source
                       (initialLocals (Options.rawOptions o))) w)
    as [[l1|e1] w1].
  - destruct (analyzeI18n_linker env this (Options.i18n o) source
                (analyzeEsTarget this (Options.scriptTarget o) source l1) w1)
      as (l3 & w2 & HI & _).
    rewrite run_bind, HI. cbn. discriminate.
  - cbn. intros H. now inversion H.
Qed.

Lemma customOptions_err_iff env this o source w e w' :
  run env (customOptions env this o source) w = (Err e, w') <->
  run env (analyzeLinking this (Options.aot o) source
             (initialLocals (Options.rawOptions o))) w = (Err e, w').
Proof.
  split.
  - intros H. pose proof (customOptions_err env this o source w e) as K.
    rewrite H in K. now apply K.
  - unfold customOptions, resolveLocals. rewrite !run_bind. now intros ->.
Qed.

Lemma requiresLinking_err_iff env path source w e w0 :
  run env (requiresLinking path source) w = (Err e, w0) <->
  e = LoadError LinkerModule
  /\ w0 = log (Load LinkerModule) w
  /\ test re_core_or_ts path = false
  /\ needsLinking (caches w) = None
  /\ loadEsmModule env (trace w) LinkerModule = None.
Proof.
  destruct (test re_core_or_ts path) eqn:E.
  - rewrite run_requiresLinking_excluded by exact E.
    split; [discriminate | intros (_ & _ & H & _); discriminate].
  - destruct (needsLinking (caches w)) as [f|] eqn:C.
    + rewrite (run_requiresLinking_cached _ _ _ _ f) by assumption.
      split; [discriminate | intros (_ & _ & _ & H & _); discriminate].
    + destruct (loadEsmModule env (trace w) LinkerModule) as [f|] eqn:L.
      * rewrite (run_requiresLinking_loaded _ _ _ _ f) by assumption.
        split; [discriminate | intros (_ & _ & _ & _ & H); discriminate].
      * rewrite run_requiresLinking_rejected by assumption. split.
        -- intros H. inversion H; subst. auto.
        -- intros (-> & -> & _). reflexivity.
Qed.

Lemma requiresLinking_ok_detector env path source w b w0 :
  run env (requiresLinking path source) w = (Ok b, w0) ->
  b = true ->
  needsLinking (caches w0) <> None.
Proof.
  destruct (test re_core_or_ts path) eqn:E.
  - rewrite run_requiresLinking_excluded by exact E.
    intros H ->. discriminate.
  - destruct (needsLinking (caches w)) as [f|] eqn:C.
    + rewrite (run_requiresLinking_cached _ _ _ _ f) by assumption.
      intros H _. inversion H; subst. cbn. congruence.
    + destruct (loadEsmModule env (trace w) LinkerModule) as [f|] eqn:L.
      * rewrite (run_requiresLinking_loaded _ _ _ _ f) by assumption.
        intros H _. inversion H; subst. cbn. discriminate.
      * rewrite run_requiresLinking_rejected by assumption. discriminate.
Qed.

Lemma analyzeLinking_err_iff env this aot source l w e w1 :
  run env (analyzeLinking this aot source l) w = (Err e, w1) <->
  run env (requiresLinking (resourcePath this) source) w = (Err e, w1)
  \/ (exists w0,
        run env (requiresLinking (resourcePath this) source) w = (Ok true, w0)
        /\ linkerPluginCreator (caches w0) = None
        /\ loadEsmModule env (trace w0) LinkerBabelModule = None
        /\ e = LoadError LinkerBabelModule
        /\ w1 = log (Load LinkerBabelModule) w0).
Proof.
  destruct (run env (requiresLinking (resourcePath this) source) w)
    as [[required|e0] w0] eqn:HR.
  - destruct required.
    + rewrite (run_analyzeLinking_required _ _ _ _ _ _ _ HR).
      destruct (linkerPluginCreator (caches w0)) as [g|] eqn:C.
      * split; [discriminate|].
        intros [H | (w0' & H & HC & _)]; [discriminate|].
        inversion H; subst. congruence.
      * destruct (loadEsmModule env (trace w0) LinkerBabelModule) as [g|] eqn:L.
        -- split; [discriminate|].
           intros [H | (w0' & H & _ & HL & _)]; [discriminate|].
           inversion H; subst. congruence.
        -- split.
           ++ intros H. inversion H; subst. right. exists w0. auto 6.
           ++ intros [H | (w0' & H & _ & _ & -> & ->)]; [discriminate|].
              inversion H; subst. reflexivity.
    + rewrite (run_analyzeLinking_not_required _ _ _ _ _ _ _ HR).
      split; [discriminate|].
      intros [H | (w0' & H & _)]; discriminate.
  - unfold analyzeLinking. rewrite run_bind, run_awaitCall, HR. split.
    + intros H. left. now inversion H.
    + intros [H | (w0' & H & _)]; [now inversion H | discriminate].
Qed.

(** X7: the hook throws only when a linker module fails to load, never
    for the localize tools.  It throws for the detector module exactly
    when the path is not excluded, no detector is cached and the load
    rejects; the caches are then as before.  It throws for the plugin
    factory exactly when the detector answered [true], no factory is
    cached and that load rejects; the detector stays cached. *)
Theorem customOptions_failure :
  forall env this o source w,
    let path := resourcePath this in
    let res := run env (customOptions env this o source) w in
    (forall e,
       fst res = Err e -> e = LoadError LinkerModule \/ e = LoadError LinkerBabelModule)
    /\ (fst res = Err (LoadError LinkerModule) <->
        test re_core_or_ts path = false
        /\ needsLinking (caches w) = None
        /\ loadEsmModule env (trace w) LinkerModule = None)
    /\ (fst res = Err (LoadError LinkerModule) -> caches (snd res) = caches w)
    /\ (fst res = Err (LoadError LinkerBabelModule) <->
        exists w0,
          run env (requiresLinking path source) w = (Ok true, w0)
          /\ linkerPluginCreator (caches w0) = None
          /\ loadEsmModule env (trace w0) LinkerBabelModule = None)
    /\ (fst res = Err (LoadError LinkerBabelModule) ->
        needsLinking (caches (snd res)) <> None
        /\ linkerPluginCreator (caches (snd res)) = None).
Proof.
  intros env this o source w path res. subst path res.
  assert (K : forall e,
             fst (run env (customOptions env this o source) w) = Err e <->
             exists w', run env (customOptions env this o source) w = (Err e, w')).
  { intros e. destruct (run env (customOptions env this o source) w) as [out w'].
    cbn. split.
    - intros ->. eauto.
    - intros (w'' & H). now inversion H. }
  split; [|split; [|split; [|split]]].
  - intros e He. apply K in He. destruct He as (w' & He).
    apply customOptions_err_iff, analyzeLinking_err_iff in He.
    destruct He as [He | (w0 & _ & _ & _ & -> & _)]; [|auto].
    apply requiresLinking_err_iff in He. destruct He as (-> & _). auto.
  - rewrite K. split.
    + intros (w' & He). apply customOptions_err_iff, analyzeLinking_err_iff in He.
      destruct He as [He | (w0 & _ & _ & _ & He & _)]; [|discriminate].
      apply requiresLinking_err_iff in He. tauto.
    + intros (E & C & L). exists (log (Load LinkerModule) w).
      apply customOptions_err_iff, analyzeLinking_err_iff. left.
      apply requiresLinking_err_iff. auto.
  - intros He. pose proof He as He'. apply K in He'. destruct He' as (w' & He').
    rewrite He'. cbn [snd].
    apply customOptions_err_iff, analyzeLinking_err_iff in He'.
    destruct He' as [He' | (w0 & _ & _ & _ & He' & _)]; [|discriminate].
    apply requiresLinking_err_iff in He'. destruct He' as (_ & -> & _). reflexivity.
  - rewrite K. split.
    + intros (w' & He). apply customOptions_err_iff, analyzeLinking_err_iff in He.
      destruct He as [He | (w0 & HR & HC & HL & _)].
      * apply requiresLinking_err_iff in He. destruct He as (He & _). discriminate.
      * exists w0. auto.
    + intros (w0 & HR & HC & HL). exists (log (Load LinkerBabelModule) w0).
      apply customOptions_err_iff, analyzeLinking_err_iff. right.
      exists w0. auto 6.
  - intros He. pose proof He as He'. apply K in He'. destruct He' as (w' & He').
    rewrite He'. cbn [snd].
    apply customOptions_err_iff, analyzeLinking_err_iff in He'.
    destruct He' as [He' | (w0 & HR & HC & _ & _ & ->)].
    + apply requiresLinking_err_iff in He'. destruct He' as (He' & _). discriminate.
    + cbn [log caches]. split; [|exact HC].
      apply (requiresLinking_ok_detector _ _ _ _ _ _ HR eq_refl).
Qed.

Lemma customOptions_failure_witness :
  let res := run factoryMissingEnv
                 (customOptions factoryMissingEnv (plainContext "/lib/a.mjs") noOptions
                                "ngDeclareComponent") initialWorld in
  fst res = Err (LoadError LinkerBabelModule)
  /\ needsLinking (caches (snd res)) <> None
  /\ linkerPluginCreator (caches (snd res)) = None.
Proof.
  cbv zeta.
  pose proof (customOptions_failure factoryMissingEnv (plainContext "/lib/a.mjs")
                noOptions "ngDeclareComponent" initialWorld)
    as (_ & _ & _ & Hiff & Hafter).
  cbv zeta in Hiff, Hafter.
  assert (He : fst (run factoryMissingEnv
                        (customOptions factoryMissingEnv (plainContext "/lib/a.mjs")
                                       noOptions "ngDeclareComponent")
                        initialWorld)
               = Err (LoadError LinkerBabelModule)).
  { apply (proj2 Hiff). eexists. split; [reflexivity|]. split; reflexivity. }
  split; [exact He | exact (Hafter He)].
Defined.

(** X8: a TypeScript file is never linked and never makes the hook
    throw: for a path ending in [.ts] or [.tsx] the hook returns without
    linker options, asks for neither linker module, does not call the
    detector and leaves both linker caches as they were, whatever the
    surroundings. *)
Theorem typescript_never_linked :
  forall env this o source w stem,
    resourcePath this = (stem ++ ".ts")%string
    \/ resourcePath this = (stem ++ ".tsx")%string ->
    exists r w',
      run env (customOptions env this o source) w = (Ok r, w')
      /\ Custom.angularLinker (custom r) = None
      /\ needsLinking (caches w') = needsLinking (caches w)
      /\ linkerPluginCreator (caches w') = linkerPluginCreator (caches w)
      /\ loads LinkerModule (trace w') = loads LinkerModule (trace w)
      /\ loads LinkerBabelModule (trace w') = loads LinkerBabelModule (trace w)
      /\ detections (trace w') = detections (trace w).
Proof.
  intros env this o source w stem Hpath.
  assert (E : test re_core_or_ts (resourcePath this) = true).
  { apply test_re_core_or_ts_iff. right. exists stem. exact Hpath. }
  pose proof (run_requiresLinking_excluded env (resourcePath this) source w E) as HR.
  pose proof (run_analyzeLinking_not_required env this (Options.aot o) source
                (initialLocals (Options.rawOptions o)) w w HR) as HA.
  pose proof (analyzeI18n_effect env this (Options.i18n o) source
                (analyzeEsTarget this (Options.scriptTarget o) source
                   (initialLocals (Options.rawOptions o))) w) as B.
  cbv zeta in B.
  destruct (analyzeI18n_linker env this (Options.i18n o) source
              (analyzeEsTarget this (Options.scriptTarget o) source
                 (initialLocals (Options.rawOptions o))) w)
    as (l3 & w2 & HI & HAL).
  rewrite HI in B. cbn [snd] in B. destruct B as (BN & BP & BL & BB & _ & BD).
  exists (finish env (Options.rawOptions o) (analyzeOptimize this (Options.optimize o) l3)),
    w2.
  split.
  - unfold customOptions, resolveLocals. rewrite run_bind, run_bind, HA, run_bind, HI.
    reflexivity.
  - cbn [custom finish]. rewrite analyzeOptimize_linker, HAL, analyzeEsTarget_linker.
    auto 8.
Qed.

Lemma typescript_never_linked_witness :
  exists r w',
    run factoryMissingEnv
        (customOptions factoryMissingEnv (plainContext "/app/src/main.ts") noOptions
                       "ngDeclareComponent") initialWorld = (Ok r, w')
    /\ Custom.angularLinker (custom r) = None
    /\ loads LinkerModule (trace w') = 0.
Proof.
  destruct (typescript_never_linked factoryMissingEnv (plainContext "/app/src/main.ts")
              noOptions "ngDeclareComponent" initialWorld "/app/src/main"
              (or_introl eq_refl))
    as (r & w' & Hrun & Hal & _ & _ & HL & _).
  exists r, w'. auto.
Defined.

(** X9: whenever the returned options carry linker options, these have
    [shouldLink] set, [jitMode] unset exactly when the caller passed
    [aot: true], and as plugin factory the very function that the cache
    holds after the call, never [undefined]. *)
Theorem linker_options_complete :
  forall env this o source w r w' al,
    run env (customOptions env this o source) w = (Ok r, w') ->
    Custom.angularLinker (custom r) = Some al ->
    AngularLinker.shouldLink al = true
    /\ (AngularLinker.jitMode al = false <-> Options.aot o = JBool true)
    /\ exists creator,
         AngularLinker.linkerPluginCreator al = Some creator
         /\ linkerPluginCreator (caches w') = Some creator.
Proof.
  intros env this o source w r w' al H Hal.
  apply customOptions_ok in H. destruct H as (l & H & ->).
  apply resolveLocals_ok in H. destruct H as (l1 & w1 & l3 & HL & HI & ->).
  cbn [custom finish] in Hal. rewrite analyzeOptimize_linker in Hal.
  destruct (analyzeI18n_linker env this (Options.i18n o) source
              (analyzeEsTarget this (Options.scriptTarget o) source l1) w1)
    as (l3' & w2 & HI' & HAL).
  rewrite HI in HI'. inversion HI'; subst l3' w2. clear HI'.
  rewrite HAL, analyzeEsTarget_linker in Hal.
  pose proof (analyzeI18n_keeps_linker env this (Options.i18n o) source
                (analyzeEsTarget this (Options.scriptTarget o) source l1) w1) as K.
  cbv zeta in K. rewrite HI in K. cbn [snd] in K. destruct K as (_ & KP & _).
  pose proof (analyzeLinking_ok _ _ _ _ _ _ _ _ HL) as (required & w0 & c & HR & _).
  destruct required.
  - rewrite (run_analyzeLinking_required _ _ _ _ _ _ _ HR) in HL.
    assert (Hnot : forall v, notTrue v = false <-> v = JBool true).
    { intros v. destruct v as [| |[|]| | | | |]; cbn; split; congruence. }
    destruct (linkerPluginCreator (caches w0)) as [g|] eqn:C.
    + inversion HL; subst. cbn in Hal. inversion Hal; subst. cbn.
      split; [reflexivity|]. split; [apply Hnot|]. exists g. split; congruence.
    + destruct (loadEsmModule env (trace w0) LinkerBabelModule) as [g|];
        [|discriminate].
      inversion HL; subst. cbn in Hal. inversion Hal; subst. cbn.
      split; [reflexivity|]. split; [apply Hnot|]. exists g. split; [reflexivity|].
      rewrite KP. reflexivity.
  - rewrite (run_analyzeLinking_not_required _ _ _ _ _ _ _ HR) in HL.
    inversion HL; subst. discriminate.
Qed.

Lemma linker_options_complete_witness :
  exists r w' al,
    run healthyEnv
        (customOptions healthyEnv (plainContext "/lib/a.mjs")
           (Options.mk None None (JBool true) JUndefined [])
           "ngDeclareComponent") initialWorld = (Ok r, w')
    /\ Custom.angularLinker (custom r) = Some al
    /\ AngularLinker.shouldLink al = true
    /\ AngularLinker.jitMode al = false.
Proof.
  eexists. eexists. eexists. split; [reflexivity|]. split; [reflexivity|].
  destruct (linker_options_complete healthyEnv (plainContext "/lib/a.mjs")
              (Options.mk None None (JBool true) JUndefined [])
              "ngDeclareComponent" initialWorld _ _ _ eq_refl eq_refl)
    as (Hs & Hj & _).
  split; [exact Hs | apply (proj2 Hj); reflexivity].
Defined.

(* ================================================================= *)
(** ** The loader options and the i18n options as objects *)

Lemma obj_get_spread_other (k : string) (extra : JsObject) :
  forall base,
    ~ In k (keys extra) -> obj_get k (spread base extra) = obj_get k base.
Proof.
  unfold spread, keys. induction extra as [|[k' v] extra IH]; intros base Hk; cbn.
  - reflexivity.
  - cbn in Hk. rewrite IH by tauto. apply obj_get_set_other. intros ->. tauto.
Qed.

Lemma obj_get_spread_in (k : string) (extra : JsObject) :
  forall base,
    NoDup (keys extra) -> In k (keys extra) ->
    obj_get k (spread base extra) = obj_get k extra.
Proof.
  induction extra as [|[k' v] extra IH]; intros base Hnd Hin; [destruct Hin|].
  cbn in Hnd. inversion Hnd as [|? ? Hnotin Hnd']; subst.
  change (spread base ((k', v) :: extra)) with (spread (obj_set k' v base) extra).
  cbn [obj_get]. destruct (String.eqb k k') eqn:E.
  - apply String.eqb_eq in E. subst k'.
    rewrite obj_get_spread_other by exact Hnotin. apply obj_get_set_same.
  - apply String.eqb_neq in E. destruct Hin as [Heq | Hin]; [cbn in Heq; congruence|].
    now apply IH.
Qed.

Lemma obj_get_absent (k : string) (o : JsObject) :
  ~ In k (keys o) -> obj_get k o = JUndefined.
Proof.
  unfold keys. induction o as [|[k' v] o IH]; cbn; [reflexivity|].
  intros H. destruct (String.eqb k k') eqn:E.
  - apply String.eqb_eq in E. subst. tauto.
  - apply IH. tauto.
Qed.

(** X10: in the loader options that the hook returns, a caller's option
    wins over the base option of the same name and every base option
    the caller did not mention is kept; this holds for every name other
    than [cacheIdentifier] and [ignore], which the hook sets itself. *)
Theorem loader_options_lookup :
  forall env this o source w r w' k,
    run env (customOptions env this o source) w = (Ok r, w') ->
    NoDup (keys (Options.rawOptions o)) ->
    k <> "cacheIdentifier" ->
    k <> "ignore" ->
    (In k (keys (Options.rawOptions o)) ->
     obj_get k (loader r) = obj_get k (Options.rawOptions o))
    /\ (~ In k (keys (Options.rawOptions o)) ->
        obj_get k (loader r) = obj_get k baseOptions).
Proof.
  intros env this o source w r w' k H Hnd Hc Hi.
  apply customOptions_ok in H. destruct H as (l & _ & ->).
  assert (Hk : obj_get k (loader (finish env (Options.rawOptions o) l))
               = obj_get k (spread baseOptions (Options.rawOptions o))).
  { unfold finish. cbn [loader]. destruct (negb (shouldProcess l)).
    - rewrite obj_get_set_other by exact Hi. now rewrite obj_get_set_other by exact Hc.
    - now rewrite obj_get_set_other by exact Hc. }
  rewrite Hk. split; intros Hin.
  - now apply obj_get_spread_in.
  - now apply obj_get_spread_other.
Qed.

Lemma loader_options_lookup_witness :
  exists r w',
    run healthyEnv
        (customOptions healthyEnv (plainContext "/app/src/main.ts")
           (Options.mk None None JUndefined JUndefined
              [("compact", JBool true); ("cacheDirectory", JStr "/tmp/cache")])
           "export const x = 1;") initialWorld = (Ok r, w')
    /\ obj_get "compact" (loader r) = JBool true
    /\ obj_get "sourceType" (loader r) = JStr "unambiguous".
Proof.
  eexists. eexists. split; [reflexivity|]. split.
  - apply (proj1 (loader_options_lookup healthyEnv (plainContext "/app/src/main.ts")
                    (Options.mk None None JUndefined JUndefined
                       [("compact", JBool true); ("cacheDirectory", JStr "/tmp/cache")])
                    "export const x = 1;" initialWorld _ _ "compact" eq_refl
                    ltac:(repeat constructor; cbn; intuition discriminate)
                    ltac:(discriminate) ltac:(discriminate))).
    cbn. auto.
  - apply (proj2 (loader_options_lookup healthyEnv (plainContext "/app/src/main.ts")
                    (Options.mk None None JUndefined JUndefined
                       [("compact", JBool true); ("cacheDirectory", JStr "/tmp/cache")])
                    "export const x = 1;" initialWorld _ _ "sourceType" eq_refl
                    ltac:(repeat constructor; cbn; intuition discriminate)
                    ltac:(discriminate) ltac:(discriminate))).
    cbn. intuition discriminate.
Defined.

(** X11: when the file has to be processed (one of the six reasons
    holds for the result), the hook adds no [ignore] of its own: the
    loader options carry the caller's [ignore], or none if the caller
    gave none. *)
Theorem no_bypass_when_processing :
  forall env this o source w r w',
    run env (customOptions env this o source) w = (Ok r, w') ->
    NoDup (keys (Options.rawOptions o)) ->
    hasPlugins (Options.rawOptions o) = true
    \/ Custom.angularLinker (custom r) <> None
    \/ Custom.forceAsyncTransformation (custom r) = true
    \/ Custom.forceES5 (custom r) = true
    \/ Custom.i18n (custom r) <> None
    \/ Custom.optimize (custom r) <> None ->
    obj_get "ignore" (loader r) = obj_get "ignore" (Options.rawOptions o)
    /\ (~ In "ignore" (keys (Options.rawOptions o)) ->
        obj_get "ignore" (loader r) = JUndefined).
Proof.
  intros env this o source w r w' H Hnd Hwhy.
  apply customOptions_ok in H. destruct H as (l & H & ->).
  pose proof (resolveLocals_summary _ _ _ _ _ _ _ H) as S.
  destruct S as (required & w0 & _ & HL & _ & _ & HI & HO & HS).
  cbn [custom finish] in Hwhy.
  assert (Hsp : shouldProcess l = true).
  { rewrite HS, !orb_true_iff.
    destruct Hwhy as [Hw | [Hw | [Hw | [Hw | [Hw | Hw]]]]].
    - tauto.
    - rewrite <- HL. destruct (Custom.angularLinker (customOptions_ l)); cbn;
        [tauto | contradiction].
    - tauto.
    - tauto.
    - rewrite <- HI. destruct (Custom.i18n (customOptions_ l)); cbn;
        [tauto | contradiction].
    - rewrite HO in Hw. destruct (truthy (Options.optimize o)); [tauto | contradiction]. }
  assert (Hk : obj_get "ignore" (loader (finish env (Options.rawOptions o) l))
               = obj_get "ignore" (Options.rawOptions o)).
  { unfold finish. cbn [loader]. rewrite Hsp. cbn [negb].
    rewrite obj_get_set_other by discriminate.
    destruct (in_dec string_dec "ignore" (keys (Options.rawOptions o))) as [Hin | Hout].
    - now apply obj_get_spread_in.
    - rewrite obj_get_spread_other by exact Hout.
      rewrite (obj_get_absent "ignore" (Options.rawOptions o)) by exact Hout.
      reflexivity. }
  split; [exact Hk|].
  intros Hout. rewrite Hk. now apply obj_get_absent.
Qed.

Lemma no_bypass_when_processing_witness :
  exists r w',
    run healthyEnv
        (customOptions healthyEnv (plainContext "/app/src/main.ts")
           (Options.mk None (Some ScriptTarget.ES5) JUndefined JUndefined
              [("compact", JBool true)])
           "export const x = 1;") initialWorld = (Ok r, w')
    /\ obj_get "ignore" (loader r) = JUndefined.
Proof.
  eexists. eexists. split; [reflexivity|].
  apply (proj2 (no_bypass_when_processing healthyEnv (plainContext "/app/src/main.ts")
                  (Options.mk None (Some ScriptTarget.ES5) JUndefined JUndefined
                     [("compact", JBool true)])
                  "export const x = 1;" initialWorld _ _ eq_refl
                  ltac:(repeat constructor; cbn; intuition discriminate)
                  ltac:(right; right; right; left; reflexivity))).
  cbn. intuition discriminate.
Defined.

(** X12: the diagnostic reporter raises an error exactly for the type
    [error], a warning exactly for [info] and [warning], each with the
    message it was given, and nothing for any other type. *)
Theorem reporter_severity :
  forall type message,
    (forall text, In (EmitError text) (reporter type message) <->
                  type = "error" /\ text = message)
    /\ (forall text, In (EmitWarning text) (reporter type message) <->
                     (type = "info" \/ type = "warning") /\ text = message)
    /\ (type <> "error" -> type <> "info" -> type <> "warning" ->
        reporter type message = []).
Proof.
  intros type message. unfold reporter.
  destruct (String.eqb type "error") eqn:E1;
    [apply String.eqb_eq in E1; subst type
    |apply String.eqb_neq in E1;
     destruct (String.eqb type "info") eqn:E2;
     [apply String.eqb_eq in E2; subst type
     |apply String.eqb_neq in E2;
      destruct (String.eqb type "warning") eqn:E3;
      [apply String.eqb_eq in E3; subst type | apply String.eqb_neq in E3]]];
    cbn [In]; (split; [|split]).
  all: try (intros text; split;
            [ intros [H | []]; inversion H; auto
            | intros [H ->]; first [ left; reflexivity
                                  | destruct H; discriminate
                                  | discriminate ] ]).
  all: try (intros text; split;
            [ first [ intros [H | []]; discriminate | intros [] ]
            | intros [H _]; first [ contradiction
                                  | discriminate
                                  | destruct H; first [contradiction | discriminate] ] ]).
  all: try (intros; first [reflexivity | contradiction | congruence]).
Qed.

Lemma reporter_severity_witness :
  reporter "debug" "resolved" = [].
Proof.
  apply (proj2 (proj2 (reporter_severity "debug" "resolved"))); discriminate.
Defined.

(** X13: the i18n options in the result are the caller's i18n options
    with one more property: every property of the caller other than
    [i18nPluginCreators] is kept, and [i18nPluginCreators] is what the
    cache holds when the hook returns. *)
Theorem i18n_options_keep_caller :
  forall env this o source w r w' cfg,
    run env (customOptions env this o source) w = (Ok r, w') ->
    Custom.i18n (custom r) = Some cfg ->
    exists i18nOptions,
      Options.i18n o = Some i18nOptions
      /\ obj_get "i18nPluginCreators" cfg = creatorsValue (i18nPluginCreators (caches w'))
      /\ (NoDup (keys i18nOptions) ->
          forall k, k <> "i18nPluginCreators" -> obj_get k cfg = obj_get k i18nOptions).
Proof.
  intros env this o source w r w' cfg H Hcfg.
  apply customOptions_ok in H. destruct H as (l & H & ->).
  apply resolveLocals_ok in H. destruct H as (l1 & w1 & l3 & HL & HI & ->).
  cbn [custom finish] in Hcfg.
  assert (Hopt : Custom.i18n (customOptions_ (analyzeOptimize this (Options.optimize o) l3))
                 = Custom.i18n (customOptions_ l3)).
  { unfold analyzeOptimize. destruct (truthy (Options.optimize o)); reflexivity. }
  rewrite Hopt in Hcfg.
  assert (Hes : Custom.i18n (customOptions_
                               (analyzeEsTarget this (Options.scriptTarget o) source l1))
                = None).
  { apply analyzeLinking_ok in HL.
    destruct HL as (required & w0 & c & _ & -> & _).
    unfold analyzeEsTarget. destruct (Options.scriptTarget o) as [t|];
      destruct required;
      try destruct (t <? ScriptTarget.ES2015)%Z;
      try destruct ((t >=? ScriptTarget.ES2017)%Z || test re_js (resourcePath this));
      reflexivity. }
  destruct (analyzeI18n_run env this (Options.i18n o) source
              (analyzeEsTarget this (Options.scriptTarget o) source l1) w1)
    as [[_ HI'] | (i18nOptions & w2 & Hsome & _ & HI' & _)];
    rewrite HI in HI'; inversion HI'; subst.
  - rewrite Hes in Hcfg. discriminate.
  - cbn in Hcfg. inversion Hcfg; subst cfg. exists i18nOptions.
    split; [exact Hsome|]. split; [apply obj_get_set_same|].
    intros Hnd k Hk. rewrite obj_get_set_other by exact Hk.
    destruct (in_dec string_dec k (keys i18nOptions)) as [Hin | Hout].
    + now apply obj_get_spread_in.
    + rewrite obj_get_spread_other by exact Hout. cbn.
      symmetry. now apply obj_get_absent.
Qed.

Lemma i18n_options_keep_caller_witness :
  exists r w' cfg,
    run healthyEnv
        (customOptions healthyEnv (plainContext "/app/src/main.ts")
           (Options.mk (Some [("locale", JStr "fr")]) None JUndefined JUndefined [])
           "const t = $localize`hello`;") initialWorld = (Ok r, w')
    /\ Custom.i18n (custom r) = Some cfg
    /\ obj_get "locale" cfg = JStr "fr"
    /\ obj_get "i18nPluginCreators" cfg = JObj localizeTools.
Proof.
  eexists. eexists. eexists. split; [reflexivity|]. split; [reflexivity|].
  destruct (i18n_options_keep_caller healthyEnv (plainContext "/app/src/main.ts")
              (Options.mk (Some [("locale", JStr "fr")]) None JUndefined JUndefined [])
              "const t = $localize`hello`;" initialWorld _ _ _ eq_refl eq_refl)
    as (i18nOptions & Hsome & Hcreators & Hkeep).
  inversion Hsome; subst i18nOptions. split.
  - apply Hkeep; [repeat constructor; cbn; tauto | discriminate].
  - exact Hcreators.
Defined.

(* ================================================================= *)
(** ** What the cache identifier tells apart *)

Lemma append_inv_head (a x y : string) : (a ++ x = a ++ y)%string -> x = y.
Proof. induction a as [|c a IH]; cbn; intros H; [exact H | inversion H; auto]. Qed.

Lemma unescapeChar_escapeChar (c : ascii) (rest : string) :
  unescapeChar (escapeChar c ++ rest) = Some (c, rest).
Proof.
  destruct c as [[|] [|] [|] [|] [|] [|] [|] [|]]; reflexivity.
Qed.

Lemma unescapeChar_quote (rest : string) : unescapeChar (dquote ++ rest) = None.
Proof. reflexivity. Qed.

(** An escaped string followed by the closing quote determines the
    string and what follows. *)
Lemma escape_prefix_code (s1 : string) :
  forall s2 r1 r2,
    (escape s1 ++ dquote ++ r1 = escape s2 ++ dquote ++ r2)%string ->
    s1 = s2 /\ r1 = r2.
Proof.
  induction s1 as [|c1 s1 IH]; intros [|c2 s2] r1 r2 H.
  - cbn in H. inversion H. auto.
  - exfalso. cbn [escape] in H. rewrite append_assoc in H.
    apply (f_equal unescapeChar) in H.
    rewrite unescapeChar_escapeChar in H. cbn in H. discriminate.
  - exfalso. cbn [escape] in H. rewrite append_assoc in H.
    apply (f_equal unescapeChar) in H.
    rewrite unescapeChar_escapeChar in H. cbn in H. discriminate.
  - cbn [escape] in H. rewrite !append_assoc in H.
    apply (f_equal unescapeChar) in H.
    rewrite !unescapeChar_escapeChar in H. inversion H; subst.
    destruct (IH s2 r1 r2) as [-> ->]; auto.
Qed.

Lemma JStr_inj (a b : string) : JStr a = JStr b -> a = b.
Proof. intros H. now inversion H. Qed.

Lemma boolText_prefix_code (a b : bool) (x y : string) :
  (boolText a ++ x = boolText b ++ y)%string -> a = b /\ x = y.
Proof.
  destruct a, b; cbn; intros H; inversion H; auto.
Qed.

Lemma join_cons (d x : string) (l : list string) :
  exists tail, join d (x :: l) = (x ++ tail)%string.
Proof.
  destruct l as [|y l].
  - exists "". cbn. now rewrite append_nil_r.
  - exists (d ++ join d (y :: l))%string. reflexivity.
Qed.

Lemma cacheIdentifier_shape (v : string) (co : Custom.t) (base raw : JsObject) :
  exists tail,
    cacheIdentifier v co base raw
    = JStr (keyHead ++ escape v ++ dquote ++ keyMiddle
            ++ boolText (Custom.forceAsyncTransformation co)
            ++ keyFlag ++ boolText (Custom.forceES5 co) ++ tail)%string.
Proof.
  unfold cacheIdentifier, JSON_stringify, customObject.
  cbn [stringify map flat_map snd fst app].
  set (others := (_ ++ _ ++ flat_map _ (optimizeObject (Custom.optimize co)))%list).
  set (ra := join "," (flat_map _ raw)).
  set (ba := join "," (flat_map _ base)).
  set (es := (quote "forceES5" ++ ":"
              ++ (if Custom.forceES5 co then "true" else "false"))%string).
  destruct (join_cons "," es others) as [t1 Ht1].
  cbn [join]. fold (join "," (es :: others)).
  change (match others with
          | [] => es
          | _ :: _ => (es ++ "," ++ join "," others)%string
          end) with (join "," (es :: others)).
  rewrite Ht1. subst es. unfold quote, keyHead, keyMiddle, keyFlag, boolText, quote.
  eexists. f_equal. rewrite !append_assoc. cbn [append escape escapeChar].
  repeat (rewrite ?append_assoc; cbn [append]).
  reflexivity.
Qed.

(** X14: the cache identifier tells apart package versions and target
    flags: two calls that get the same identifier ran under the same
    package version and resolved the same [forceAsyncTransformation]
    and the same [forceES5]. *)
Theorem cacheIdentifier_tells_apart :
  forall env1 env2 this1 this2 o1 o2 source1 source2 w1 w2 r1 r2 w1' w2',
    run env1 (customOptions env1 this1 o1 source1) w1 = (Ok r1, w1') ->
    run env2 (customOptions env2 this2 o2 source2) w2 = (Ok r2, w2') ->
    obj_get "cacheIdentifier" (loader r1) = obj_get "cacheIdentifier" (loader r2) ->
    version env1 = version env2
    /\ Custom.forceAsyncTransformation (custom r1)
       = Custom.forceAsyncTransformation (custom r2)
    /\ Custom.forceES5 (custom r1) = Custom.forceES5 (custom r2).
Proof.
  intros env1 env2 this1 this2 o1 o2 source1 source2 w1 w2 r1 r2 w1' w2' H1 H2 Hkey.
  apply customOptions_ok in H1. destruct H1 as (l1 & _ & ->).
  apply customOptions_ok in H2. destruct H2 as (l2 & _ & ->).
  rewrite !finish_cacheIdentifier in Hkey. cbn [custom finish].
  destruct (cacheIdentifier_shape (version env1) (customOptions_ l1) baseOptions
              (Options.rawOptions o1)) as [t1 E1].
  destruct (cacheIdentifier_shape (version env2) (customOptions_ l2) baseOptions
              (Options.rawOptions o2)) as [t2 E2].
  rewrite E1, E2 in Hkey. apply JStr_inj in Hkey. rename Hkey into K.
  apply append_inv_head in K.
  apply escape_prefix_code in K. destruct K as [Hv K].
  apply append_inv_head in K.
  apply boolText_prefix_code in K. destruct K as [Ha K].
  apply append_inv_head in K.
  apply boolText_prefix_code in K. destruct K as [He _].
  auto.
Qed.

Lemma cacheIdentifier_tells_apart_witness :
  exists r1 r2 w1' w2',
    run healthyEnv
        (customOptions healthyEnv (plainContext "/app/src/a.ts")
           (Options.mk None (Some ScriptTarget.ES5) JUndefined JUndefined [])
           "export const a = 1;") initialWorld = (Ok r1, w1')
    /\ run healthyEnv
           (customOptions healthyEnv (plainContext "/app/src/b.ts")
              (Options.mk None (Some ScriptTarget.ES3) JUndefined JUndefined [])
              "export const b = 2;") initialWorld = (Ok r2, w2')
    /\ Custom.forceES5 (custom r1) = Custom.forceES5 (custom r2).
Proof.
  eexists. eexists. eexists. eexists.
  split; [reflexivity|]. split; [reflexivity|].
  eapply (cacheIdentifier_tells_apart healthyEnv healthyEnv
            (plainContext "/app/src/a.ts") (plainContext "/app/src/b.ts")
            (Options.mk None (Some ScriptTarget.ES5) JUndefined JUndefined [])
            (Options.mk None (Some ScriptTarget.ES3) JUndefined JUndefined [])
            "export const a = 1;" "export const b = 2;" initialWorld initialWorld);
    reflexivity.
Defined.

(* ================================================================= *)
(** ** Loads under overlap: never more than one per call and module *)

Lemma loadsAtMost_more {A : Type} (s : Specifier) (p : Prog A) :
  forall n m, n <= m -> loadsAtMost s n p -> loadsAtMost s m p.
Proof.
  induction p as [a|e|k IH|c k IH|f path source k IH|s' k IH|k IH];
    intros n m Hle; cbn; auto.
  - intros H c. eapply IH; eauto.
  - apply IH; assumption.
  - intros H b. eapply IH; eauto.
  - destruct (Specifier_eqb s s').
    + destruct n as [|n]; [intros []|]. destruct m as [|m]; [lia|].
      intros H r. eapply IH; [|apply H]. lia.
    + intros H r. eapply IH; eauto.
  - apply IH; assumption.
Qed.

Lemma loadsAtMost_bind {A B : Type} (s : Specifier) (p : Prog A) (f : A -> Prog B) :
  forall a b,
    loadsAtMost s a p ->
    (forall x, loadsAtMost s b (f x)) ->
    loadsAtMost s (a + b) (bind p f).
Proof.
  induction p as [x|e|k IH|c k IH|d path source k IH|s' k IH|k IH];
    intros a b Hp Hf; cbn in *; auto.
  - apply (loadsAtMost_more s (f x) b (a + b)); [lia | apply Hf].
  - destruct (Specifier_eqb s s').
    + destruct a as [|a]; [destruct Hp|]. cbn. intros r. apply IH; auto.
    + intros r. apply IH; auto.
Qed.

Ltac walk_program :=
  repeat first
    [ progress intros
    | progress cbn
    | match goal with
      | |- context [match ?x with _ => _ end] => destruct x
      end ];
  try exact I.

(** Each call asks for each module at most once, on every path. *)
Lemma invoke_loadsAtMost env (s : Specifier) (i : Invocation) :
  loadsAtMost s 1 (invoke env i).
Proof.
  destruct i as [[this o] source].
  unfold invoke, customOptions, resolveLocals, analyzeLinking, analyzeI18n, awaitCall,
    requiresLinking, awaitLoad, assign_needsLinking, assign_linkerPluginCreator,
    assign_i18nPluginCreators.
  destruct s; walk_program.
Qed.

Lemma loads_log_load (s s' : Specifier) (w : World) :
  loads s (trace (log (Load s') w)) = loads s (trace w) + budgetOf s s'.
Proof. cbn [log trace]. rewrite loads_app. unfold budgetOf. cbn. destruct (Specifier_eqb s s'); reflexivity. Qed.

Lemma loads_log_detect (s : Specifier) path source (w : World) :
  loads s (trace (log (Detect path source) w)) = loads s (trace w).
Proof. cbn [log trace]. rewrite loads_app. cbn. lia. Qed.

Lemma advance_budget {A : Type} env (s : Specifier) (p : Prog A) :
  forall n w,
    loadsAtMost s n p ->
    exists n',
      taskLoadsAtMost s n' (fst (advance env p w))
      /\ loads s (trace (snd (advance env p w))) + n' <= loads s (trace w) + n.
Proof.
  induction p as [a|e|k IH|c k IH|f path source k IH|s' k IH|k IH];
    intros n w Hp; cbn [advance].
  - exists 0. cbn. split; [exact I | lia].
  - exists 0. cbn. split; [exact I | lia].
  - apply IH, Hp.
  - destruct (IH n (setCaches c w) Hp) as (n' & Ht & Hle). exists n'. auto.
  - destruct (IH (f path source) n (log (Detect path source) w) (Hp _)) as (n' & Ht & Hle).
    exists n'. split; [exact Ht|]. rewrite loads_log_detect in Hle. exact Hle.
  - cbn [fst snd taskLoadsAtMost]. rewrite loads_log_load. unfold budgetOf.
    cbn [loadsAtMost] in Hp. destruct (Specifier_eqb s s').
    + destruct n as [|m]; [destruct Hp|]. exists m. split; [apply Hp | lia].
    + exists n. split; [apply Hp | lia].
  - exists n. cbn. split; [exact Hp | lia].
Qed.

Lemma stepTask_budget {A : Type} env (s : Specifier) :
  forall (pool : list (Task A)) budgets i w,
    Forall2 (taskLoadsAtMost s) budgets pool ->
    exists budgets',
      Forall2 (taskLoadsAtMost s) budgets' (fst (stepTask env i pool w))
      /\ loads s (trace (snd (stepTask env i pool w))) + list_sum budgets'
         <= loads s (trace w) + list_sum budgets.
Proof.
  induction pool as [|t pool IH]; intros budgets i w H.
  - inversion H; subst. exists []. destruct i; cbn; split; [constructor | lia | constructor | lia].
  - inversion H as [|b ? bs ? Hb Hbs]; subst.
    destruct i as [|j]; destruct t as [p|o]; cbn [stepTask].
    + destruct (advance_budget env s p b w Hb) as (n' & Ht & Hle).
      destruct (advance env p w) as [t' w']. cbn [fst snd] in *.
      exists (n' :: bs). split; [constructor; assumption | unfold list_sum in *; cbn [fold_right]; lia].
    + exists (b :: bs). cbn [fst snd]. split; [constructor; assumption | lia].
    + destruct (IH bs j w Hbs) as (bs' & Hf & Hle).
      destruct (stepTask env j pool w) as [rest' w']. cbn [fst snd] in *.
      exists (b :: bs'). split; [constructor; assumption | unfold list_sum in *; cbn [fold_right]; lia].
    + destruct (IH bs j w Hbs) as (bs' & Hf & Hle).
      destruct (stepTask env j pool w) as [rest' w']. cbn [fst snd] in *.
      exists (b :: bs'). split; [constructor; assumption | unfold list_sum in *; cbn [fold_right]; lia].
Qed.

Lemma exec_budget {A : Type} env (s : Specifier) (schedule : list nat) :
  forall (pool : list (Task A)) budgets w,
    Forall2 (taskLoadsAtMost s) budgets pool ->
    loads s (trace (snd (exec env schedule pool w))) <= loads s (trace w) + list_sum budgets.
Proof.
  induction schedule as [|i schedule IH]; intros pool budgets w H; cbn [exec].
  - cbn. lia.
  - destruct (stepTask_budget env s pool budgets i w H) as (bs' & Hf & Hle).
    destruct (stepTask env i pool w) as [pool' w']. cbn [fst snd] in *.
    specialize (IH pool' bs' w' Hf). lia.
Qed.

(** X16: however the calls overlap and in whatever order they are
    resumed, a batch of calls asks for each module at most once per
    call. *)
Theorem overlapping_loads_bounded :
  forall env (invs : list Invocation) (schedule : list nat) (w : World) (s : Specifier),
    loads s (trace (snd (exec env schedule
                              (map (fun i => Ready (invoke env i)) invs) w)))
    <= loads s (trace w) + List.length invs.
Proof.
  intros env invs schedule w s.
  assert (H : Forall2 (taskLoadsAtMost s) (map (fun _ => 1) invs)
                (map (fun i => Ready (invoke env i)) invs)).
  { induction invs as [|i invs IH]; cbn; constructor; [|exact IH].
    apply invoke_loadsAtMost. }
  pose proof (exec_budget env s schedule _ _ w H) as K.
  assert (Hsum : list_sum (map (fun _ : Invocation => 1) invs) = List.length invs).
  { clear. induction invs as [|i invs IH]; [reflexivity|].
    change (S (list_sum (map (fun _ : Invocation => 1) invs)) = S (List.length invs)).
    now rewrite IH. }
  rewrite Hsum in K. exact K.
Qed.

(* ================================================================= *)
(** ** Any files, one after the other: each linker module once at most *)

Section LinkerResolves.

Variable env : Env.

Hypothesis detector_resolves :
  forall tr, loadEsmModule env tr LinkerModule <> None.
Hypothesis factory_resolves :
  forall tr, loadEsmModule env tr LinkerBabelModule <> None.

Lemma requiresLinking_keeps_once path source w :
  linkerLoadedOnce w ->
  exists required w0,
    run env (requiresLinking path source) w = (Ok required, w0)
    /\ linkerLoadedOnce w0.
Proof.
  unfold linkerLoadedOnce, loadedOnce. intros [HL HB].
  destruct (test re_core_or_ts path) eqn:E.
  - exists false, w. split; [now apply run_requiresLinking_excluded | auto].
  - destruct (needsLinking (caches w)) as [f|] eqn:C.
    + eexists. eexists. split; [apply (run_requiresLinking_cached _ _ _ _ f E C)|].
      cbn [log caches trace]. rewrite C, !loads_app. cbn. rewrite !Nat.add_0_r. auto.
    + destruct (loadEsmModule env (trace w) LinkerModule) as [f|] eqn:L;
        [|now apply detector_resolves in L].
      eexists. eexists. split; [apply (run_requiresLinking_loaded _ _ _ _ f E C L)|].
      cbn [log caches trace setCaches needsLinking linkerPluginCreator].
      rewrite !loads_app. cbn. rewrite !Nat.add_0_r. split; [lia | exact HB].
Qed.

Lemma analyzeLinking_keeps_once this aot source l w :
  linkerLoadedOnce w ->
  exists l1 w1,
    run env (analyzeLinking this aot source l) w = (Ok l1, w1)
    /\ linkerLoadedOnce w1.
Proof.
  intros Hw.
  destruct (requiresLinking_keeps_once (resourcePath this) source w Hw)
    as (required & w0 & HR & [HL HB]).
  destruct required.
  - rewrite (run_analyzeLinking_required _ _ _ _ _ _ _ HR).
    unfold linkerLoadedOnce, loadedOnce in *.
    destruct (linkerPluginCreator (caches w0)) as [g|] eqn:C.
    + eexists. eexists. split; [reflexivity|]. rewrite C. auto.
    + destruct (loadEsmModule env (trace w0) LinkerBabelModule) as [g|] eqn:L;
        [|now apply factory_resolves in L].
      eexists. eexists. split; [reflexivity|].
      cbn [log caches trace setCaches needsLinking linkerPluginCreator].
      rewrite !loads_app. cbn. rewrite !Nat.add_0_r. split; [exact HL | lia].
  - rewrite (run_analyzeLinking_not_required _ _ _ _ _ _ _ HR).
    eexists. eexists. split; [reflexivity|]. split; assumption.
Qed.

Lemma invoke_keeps_once i w :
  linkerLoadedOnce w ->
  exists r w',
    run env (invoke env i) w = (Ok r, w')
    /\ linkerLoadedOnce w'.
Proof.
  destruct i as [[this o] source]. intros Hw. cbn [invoke].
  destruct (analyzeLinking_keeps_once this (Options.aot o) source
              (initialLocals (Options.rawOptions o)) w Hw)
    as (l1 & w1 & HA & [HL HB]).
  pose proof (analyzeI18n_keeps_linker env this (Options.i18n o) source
                (analyzeEsTarget this (Options.scriptTarget o) source l1) w1) as K.
  cbv zeta in K.
  destruct (analyzeI18n_linker env this (Options.i18n o) source
              (analyzeEsTarget this (Options.scriptTarget o) source l1) w1)
    as (l3 & w2 & HI & _).
  rewrite HI in K. cbn [snd] in K. destruct K as (KN & KP & KL & KB).
  eexists. exists w2. split.
  - unfold customOptions, resolveLocals. rewrite run_bind, run_bind, HA, run_bind, HI.
    reflexivity.
  - unfold linkerLoadedOnce. rewrite KN, KP, KL, KB. split; assumption.
Qed.

Lemma runAll_keeps_once invs :
  forall w,
    linkerLoadedOnce w ->
    Forall (fun out => exists r, out = Ok r) (fst (runAll env (map (invoke env) invs) w))
    /\ linkerLoadedOnce (snd (runAll env (map (invoke env) invs) w)).
Proof.
  induction invs as [|i invs IH]; intros w Hw; cbn [map runAll].
  - cbn. auto.
  - destruct (invoke_keeps_once i w Hw) as (r & w1 & HR & Hw1). rewrite HR.
    specialize (IH w1 Hw1).
    destruct (runAll env (map (invoke env) invs) w1) as [outs w2]. cbn [fst snd] in *.
    destruct IH as [IHF IHW]. split; [constructor; eauto | exact IHW].
Qed.

End LinkerResolves.

(** X15: when both linker modules can be loaded, any files whatever,
    resolved one after the other from a fresh process, all return, and
    each linker module has been loaded once if its cache is filled at
    the end and not at all otherwise: never twice. *)
Theorem sequential_loads_at_most_once :
  forall env invs,
    (forall tr, loadEsmModule env tr LinkerModule <> None) ->
    (forall tr, loadEsmModule env tr LinkerBabelModule <> None) ->
    let res := runAll env (map (invoke env) invs) initialWorld in
    Forall (fun out => exists r, out = Ok r) (fst res)
    /\ linkerLoadedOnce (snd res)
    /\ loads LinkerModule (trace (snd res)) <= 1
    /\ loads LinkerBabelModule (trace (snd res)) <= 1.
Proof.
  intros env invs HD HF res. subst res.
  destruct (runAll_keeps_once env HD HF invs initialWorld) as [Hall Hw].
  { split; reflexivity. }
  split; [exact Hall|]. split; [exact Hw|].
  destruct Hw as [HL HB]. unfold loadedOnce in *.
  destruct (needsLinking (caches _)); destruct (linkerPluginCreator (caches _)); lia.
Qed.

Lemma sequential_loads_at_most_once_witness :
  let res := runAll healthyEnv
               (map (invoke healthyEnv)
                    [ (plainContext "/app/src/main.ts", noOptions, "export const x = 1;");
                      libraryFile 0;
                      (plainContext "/app/vendor/plain.js", noOptions, "var y = 2;");
                      libraryFile 1 ])
               initialWorld in
  loads LinkerModule (trace (snd res)) <= 1
  /\ loads LinkerBabelModule (trace (snd res)) <= 1.
Proof.
  cbv zeta.
  destruct (sequential_loads_at_most_once healthyEnv
              [ (plainContext "/app/src/main.ts", noOptions, "export const x = 1;");
                libraryFile 0;
                (plainContext "/app/vendor/plain.js", noOptions, "var y = 2;");
                libraryFile 1 ])
    as (_ & _ & HL & HB).
  - intros tr. discriminate.
  - intros tr. discriminate.
  - split; [exact HL | exact HB].
Defined.

(* ================================================================= *)
(** ** Paths that the analyses leave alone *)

Lemma length_append (a b : string) :
  String.length (a ++ b) = String.length a + String.length b.
Proof. induction a as [|c a IH]; cbn; [reflexivity | now rewrite IH]. Qed.

(** Two ways to cut a string with ends of equal length are the same. *)
Lemma append_same_end (a : string) :
  forall b x y,
    String.length x = String.length y ->
    (a ++ x = b ++ y)%string ->
    a = b /\ x = y.
Proof.
  induction a as [|c a IH]; intros [|d b] x y Hlen H; cbn in H.
  - auto.
  - exfalso. subst x. cbn in Hlen. rewrite length_append in Hlen. lia.
  - exfalso. subst y. cbn in Hlen. rewrite length_append in Hlen. lia.
  - inversion H; subst. destruct (IH b x y Hlen) as [-> ->]; auto.
Qed.

Lemma typescript_is_not_js (stem : string) :
  test re_js (stem ++ ".ts") = false /\ test re_js (stem ++ ".tsx") = false.
Proof.
  split.
  - destruct (test re_js (stem ++ ".ts")) eqn:E; [|reflexivity]. exfalso.
    apply test_re_js_iff in E. destruct E as (s & [E | [E | E]]).
    + apply append_same_end in E; [|reflexivity]. destruct E as [_ E]. discriminate.
    + change (s ++ ".cjs")%string with (s ++ "." ++ "cjs")%string in E.
      rewrite <- append_assoc in E.
      apply append_same_end in E; [|reflexivity]. destruct E as [_ E]. discriminate.
    + change (s ++ ".mjs")%string with (s ++ "." ++ "mjs")%string in E.
      rewrite <- append_assoc in E.
      apply append_same_end in E; [|reflexivity]. destruct E as [_ E]. discriminate.
  - destruct (test re_js (stem ++ ".tsx")) eqn:E; [|reflexivity]. exfalso.
    apply test_re_js_iff in E. destruct E as (s & [E | [E | E]]).
    + change (stem ++ ".tsx")%string with (stem ++ "." ++ "tsx")%string in E.
      rewrite <- append_assoc in E.
      apply append_same_end in E; [|reflexivity]. destruct E as [_ E]. discriminate.
    + apply append_same_end in E; [|reflexivity]. destruct E as [_ E]. discriminate.
    + apply append_same_end in E; [|reflexivity]. destruct E as [_ E]. discriminate.
Qed.

(** X17: application code in TypeScript gets the async transformation
    only from target ES2017 on: for a path ending in [.ts] or [.tsx],
    [forceAsyncTransformation] is set exactly when the target is at
    least ES2017, the source contains [async] and the path has no
    [esm2015]-style directory. *)
Theorem typescript_async_from_ES2017 :
  forall env this o source w r w' stem,
    resourcePath this = (stem ++ ".ts")%string
    \/ resourcePath this = (stem ++ ".tsx")%string ->
    run env (customOptions env this o source) w = (Ok r, w') ->
    (Custom.forceAsyncTransformation (custom r) = true <->
     (exists esTarget,
        Options.scriptTarget o = Some esTarget /\ (ScriptTarget.ES2017 <= esTarget)%Z)
     /\ includes source "async" = true
     /\ test re_esm2015 (resourcePath this) = false).
Proof.
  intros env this o source w r w' stem Hpath H.
  assert (Hjs : test re_js (resourcePath this) = false).
  { destruct Hpath as [-> | ->]; apply typescript_is_not_js. }
  apply customOptions_ok in H. destruct H as (l & H & ->).
  apply resolveLocals_summary in H.
  destruct H as (required & w0 & _ & _ & _ & HAsync & _).
  cbn [custom finish]. rewrite HAsync, Hjs.
  destruct (Options.scriptTarget o) as [esTarget|].
  - rewrite orb_false_r, !andb_true_iff, !negb_true_iff, Z.ltb_ge, Z.geb_le.
    unfold ScriptTarget.ES2015, ScriptTarget.ES2017. split.
    + intros [[_ Hge] [Hesm Hasync]]. repeat split; auto. exists esTarget. auto.
    + intros [(t & Ht & Hge) [Hasync Hesm]]. inversion Ht; subst.
      repeat split; auto. lia.
  - split; [discriminate|]. intros [(t & Ht & _) _]. discriminate.
Qed.

Lemma typescript_async_from_ES2017_witness :
  exists r w',
    run healthyEnv
        (customOptions healthyEnv (plainContext "/app/src/main.ts")
           (Options.mk None (Some ScriptTarget.ES2017) JUndefined JUndefined [])
           "export async function f() {}") initialWorld = (Ok r, w')
    /\ Custom.forceAsyncTransformation (custom r) = true.
Proof.
  eexists. eexists. split; [reflexivity|].
  apply (proj2 (typescript_async_from_ES2017 healthyEnv (plainContext "/app/src/main.ts")
                  (Options.mk None (Some ScriptTarget.ES2017) JUndefined JUndefined [])
                  "export async function f() {}" initialWorld _ _ "/app/src/main"
                  (or_introl eq_refl) eq_refl)).
  split; [|split; reflexivity].
  exists ScriptTarget.ES2017. split; [reflexivity|]. unfold ScriptTarget.ES2017. lia.
Defined.

(** X18: the packages [@angular/compiler] and [@angular/localize] are
    never prepared for i18n inlining: for a path that goes through one
    of them the result has no i18n options, the localize tools are not
    asked for and their cache stays as it was, whatever the source
    holds and whatever the caller asked for. *)
Theorem localize_package_not_inlined :
  forall env this o source w r w' pre s1 s2 package post,
    resourcePath this
    = (pre ++ String s1 ("@angular" ++ String s2 (package ++ post)))%string ->
    isSeparator s1 -> isSeparator s2 ->
    package = "compiler" \/ package = "localize" ->
    run env (customOptions env this o source) w = (Ok r, w') ->
    Custom.i18n (custom r) = None
    /\ loads LocalizeTools (trace w') = loads LocalizeTools (trace w)
    /\ i18nPluginCreators (caches w') = i18nPluginCreators (caches w).
Proof.
  intros env this o source w r w' pre s1 s2 package post Hpath H1 H2 Hp H.
  assert (E : test re_compiler_or_localize (resourcePath this) = true).
  { apply test_re_compiler_or_localize_iff. exists pre, s1, s2, package, post. auto. }
  assert (Hel : i18nEligible this (Options.i18n o) source = false).
  { unfold i18nEligible. rewrite E. destruct (Options.i18n o); reflexivity. }
  apply customOptions_ok in H. destruct H as (l & H & ->).
  pose proof (resolveLocals_summary _ _ _ _ _ _ _ H) as S.
  destruct S as (required & w0 & _ & _ & _ & _ & HI & _).
  cbn [custom finish]. split.
  - rewrite Hel in HI. destruct (Custom.i18n (customOptions_ l)); [discriminate | reflexivity].
  - apply resolveLocals_ok in H. destruct H as (l1 & w1 & l3 & HL & HI' & _).
    destruct (analyzeLinking_keeps_localize _ _ _ _ _ _ _ _ HL) as [KC KT].
    destruct (analyzeI18n_run env this (Options.i18n o) source
                (analyzeEsTarget this (Options.scriptTarget o) source l1) w1)
      as [[_ HR] | (cfg & w2 & _ & Hyes & _)]; [|congruence].
    rewrite HR in HI'. inversion HI'; subst. auto.
Qed.

Lemma localize_package_not_inlined_witness :
  exists r w',
    run healthyEnv
        (customOptions healthyEnv
           (plainContext "/app/node_modules/@angular/localize/fesm2015/localize.mjs")
           (Options.mk (Some [("locale", JStr "fr")]) None JUndefined JUndefined [])
           "export const $localize = 1;") initialWorld = (Ok r, w')
    /\ Custom.i18n (custom r) = None
    /\ loads LocalizeTools (trace w') = 0.
Proof.
  eexists. eexists. split; [reflexivity|].
  destruct (localize_package_not_inlined healthyEnv
              (plainContext "/app/node_modules/@angular/localize/fesm2015/localize.mjs")
              (Options.mk (Some [("locale", JStr "fr")]) None JUndefined JUndefined [])
              "export const $localize = 1;" initialWorld _ _
              "/app/node_modules" "/"%char "/"%char "localize" "/fesm2015/localize.mjs"
              eq_refl (or_intror eq_refl) (or_intror eq_refl) (or_intror eq_refl) eq_refl)
    as (Hnone & Hloads & _).
  split; [exact Hnone | exact Hloads].
Defined.
